(** * Backup store and diff engine of the MCP database server

    A shallow embedding of [src/backup/backupManager.ts] and
    [src/backup/diffUtils.ts], and the properties of the backup log, the
    provenance header, the retention policy and the line diff. *)

From Stdlib Require Import ZArith NArith String Ascii DecimalString Lia.
From stdpp Require Import gmap list.

Local Open Scope nat_scope.

(** ** JavaScript strings and arrays *)

(** A JavaScript string is a sequence of UTF-16 code units. *)
Abbreviation jsstring := (list N).

Module JS.

(** An ASCII literal of the source, as code units. *)
Fixpoint str (s : string) : jsstring :=
  match s with
  | EmptyString => []
  | String c s' => N_of_ascii c :: str s'
  end.

#[global] Arguments str : simpl never.

(** [a === b] on strings. *)
Definition seq_eq (a b : jsstring) : bool := bool_decide (a = b).

(** Truthiness of a string: only the empty string is falsy. *)
Definition truthy (s : jsstring) : bool :=
  match s with [] => false | _ :: _ => true end.

(** Truthiness of an optional string argument ([undefined] is falsy). *)
Definition truthy_opt (o : option jsstring) : bool :=
  match o with Some s => truthy s | None => false end.

(** [s.split('\n')]: always at least one piece. *)
Fixpoint split_nl (s : jsstring) : list jsstring :=
  match s with
  | [] => [[]]
  | c :: s' =>
      if (c =? 10)%N then [] :: split_nl s'
      else match split_nl s' with
           | l :: ls => (c :: l) :: ls
           | [] => [[c]]
           end
  end.

(** [parts.join('\n')]. *)
Fixpoint join_nl (parts : list jsstring) : jsstring :=
  match parts with
  | [] => []
  | [p] => p
  | p :: ps => p ++ 10%N :: join_nl ps
  end.

(** [pat] occurs in [s] at its very start. *)
Fixpoint starts_with (pat s : jsstring) : bool :=
  match pat, s with
  | [], _ => true
  | _ :: _, [] => false
  | p :: pat', c :: s' => (p =? c)%N && starts_with pat' s'
  end.

(** [pat] and [t] differ at a position that both have: then [pat] is not
    at the start of any text that starts with [t]. *)
Fixpoint clash (pat t : jsstring) : bool :=
  match pat, t with
  | p :: pat', c :: t' => negb (p =? c)%N || clash pat' t'
  | _, _ => false
  end.

(** [s.includes(pat)]. *)
Fixpoint includes (s pat : jsstring) : bool :=
  starts_with pat s ||
  match s with
  | [] => false
  | _ :: s' => includes s' pat
  end.

(** [s.lastIndexOf(pat)], with [None] for the result -1: the occurrence
    found deepest in [s] wins. *)
Fixpoint lastIndexOf_from (s pat : jsstring) (i : nat) : option nat :=
  match s with
  | [] => if starts_with pat [] then Some i else None
  | _ :: s' =>
      match lastIndexOf_from s' pat (S i) with
      | Some k => Some k
      | None => if starts_with pat s then Some i else None
      end
  end.

Definition lastIndexOf (s pat : jsstring) : option nat :=
  lastIndexOf_from s pat 0.

(** [s.substring(i)] for an index [i] that is not negative. *)
Definition substring_from (s : jsstring) (i : nat) : jsstring := drop i s.

(** [arr.slice(start)] with JavaScript's treatment of a negative start. *)
Definition slice_from {A} (arr : list A) (start : Z) : list A :=
  if (start <? 0)%Z
  then drop (Z.to_nat (Z.max (Z.of_nat (length arr) + start) 0)) arr
  else drop (Z.to_nat start) arr.

(** [arr.slice(0, end)] with JavaScript's treatment of a negative end. *)
Definition slice_to {A} (arr : list A) (end_ : Z) : list A :=
  if (end_ <? 0)%Z
  then take (Z.to_nat (Z.max (Z.of_nat (length arr) + end_) 0)) arr
  else take (Z.to_nat end_) arr.

(** [arr.findIndex(p)], with [None] for -1. *)
Fixpoint findIndex {A} (p : A -> bool) (arr : list A) : option nat :=
  match arr with
  | [] => None
  | x :: arr' => if p x then Some 0 else S <$> findIndex p arr'
  end.

(** [arr.splice(index, 1)]: the array without the element at [index]. *)
Definition splice1 {A} (arr : list A) (index : nat) : list A :=
  take index arr ++ drop (S index) arr.

(** [s.replace(c, d)] for one-character strings: the first [c] only. *)
Fixpoint replace_first (c d : N) (s : jsstring) : jsstring :=
  match s with
  | [] => []
  | x :: s' => if (x =? c)%N then d :: s' else x :: replace_first c d s'
  end.

(** [s.replace(/[-:]/g, '')]. *)
Definition strip_dash_colon (s : jsstring) : jsstring :=
  List.filter (fun c => negb ((c =? 45)%N || (c =? 58)%N)) s.

Definition is_line_terminator (c : N) : bool :=
  (c =? 10)%N || (c =? 13)%N || (c =? 8232)%N || (c =? 8233)%N.

Fixpoint skip_line (s : jsstring) : jsstring :=
  match s with
  | [] => []
  | d :: s' => if is_line_terminator d then s else skip_line s'
  end.

(** [s.replace(/\..+/, '')]: the first dot that is followed by a character
    of the same line goes, with the rest of that line. *)
Fixpoint strip_fraction (s : jsstring) : jsstring :=
  match s with
  | [] => []
  | c :: s' =>
      if (c =? 46)%N &&
         match s' with
         | d :: _ => negb (is_line_terminator d)
         | [] => false
         end
      then skip_line s'
      else c :: strip_fraction s'
  end.

(** [s.replace(/[^a-zA-Z0-9_]/g, '_')]. *)
Definition is_word_char (c : N) : bool :=
  ((97 <=? c) && (c <=? 122))%N || ((65 <=? c) && (c <=? 90))%N ||
  ((48 <=? c) && (c <=? 57))%N || (c =? 95)%N.

Definition sanitize (s : jsstring) : jsstring :=
  map (fun c => if is_word_char c then c else 95%N) s.

(** *** Text as UTF-8 *)

Definition is_high_surrogate (c : N) : bool := ((55296 <=? c) && (c <=? 56319))%N.

Definition is_low_surrogate (c : N) : bool := ((56320 <=? c) && (c <=? 57343))%N.

(** The code unit that comes out for [c] after [prev] and before [rest]:
    a surrogate that is not half of a pair becomes U+FFFD. *)
Definition well_formed_unit (prev c : N) (rest : jsstring) : N :=
  if is_high_surrogate c
  then match rest with
       | d :: _ => if is_low_surrogate d then c else 65533%N
       | [] => 65533%N
       end
  else if is_low_surrogate c
       then if is_high_surrogate prev then c else 65533%N
       else c.

Fixpoint well_formed_from (prev : N) (s : jsstring) : jsstring :=
  match s with
  | [] => []
  | c :: rest => well_formed_unit prev c rest :: well_formed_from c rest
  end.

(** [s.toWellFormed()]: the string that the UTF-8 encoding of [s] decodes
    to. Encoding a string as UTF-8 writes U+FFFD for every lone
    surrogate. *)
Definition toWellFormed (s : jsstring) : jsstring := well_formed_from 0 s.

(** A code unit that is no surrogate and not U+FFFD. *)
Definition plain (c : N) : bool :=
  negb (is_high_surrogate c) && negb (is_low_surrogate c)
  && negb (c =? 65533)%N.

End JS.

(** ** Diff engine ([diffUtils.ts]) *)

Module Diff.
Import JS.

Inductive DiffType := unchanged | added | removed.

#[global] Instance DiffType_eq_dec : EqDecision DiffType.
Proof. solve_decision. Defined.

Record DiffLine := mkDiffLine {
  type : DiffType;
  lineNumber_old : option nat;
  lineNumber_new : option nat;
  content : jsstring
}.

(** [oldLines[i] === newLines[j]]; two reads out of range are both
    [undefined] and compare equal. *)
Definition same_line (oldLines newLines : list jsstring) (i j : nat) : bool :=
  bool_decide (oldLines !! i = newLines !! j).

(** [dp[i][j]] and [dp[i][j] = v] on the table of numbers. *)
Definition get2 (dp : list (list nat)) (i j : nat) : nat :=
  default 0 (dp !! i ≫= fun row => row !! j).

Definition set2 (dp : list (list nat)) (i j v : nat) : list (list nat) :=
  match dp !! i with
  | Some row => <[i := <[j := v]> row]> dp
  | None => dp
  end.

(** One assignment of the inner loop of [lcs]. *)
Definition lcs_cell (oldLines newLines : list jsstring)
    (dp : list (list nat)) (i j : nat) : list (list nat) :=
  if same_line oldLines newLines (i - 1) (j - 1)
  then set2 dp i j (get2 dp (i - 1) (j - 1) + 1)
  else set2 dp i j (Nat.max (get2 dp (i - 1) j) (get2 dp i (j - 1))).

(** [lcs]: an (m+1) x (n+1) table of zeros, filled row by row. *)
Definition lcs (oldLines newLines : list jsstring) : list (list nat) :=
  let m := length oldLines in
  let n := length newLines in
  let dp := replicate (m + 1) (replicate (n + 1) 0) in
  foldl (fun dp i =>
           foldl (fun dp j => lcs_cell oldLines newLines dp i j) dp (seq 1 n))
        dp (seq 1 m).

(** The [while] loop of [backtrack]. Every turn that changes the position
    uses one unit of fuel; a turn in which no branch applies leaves the
    position as it is, and the loop goes on. *)
Fixpoint backtrack_loop (fuel : nat) (dp : list (list nat))
    (oldLines newLines : list jsstring) (currI currJ : nat)
    (tempResult : list DiffLine) : option (list DiffLine) :=
  if negb ((0 <? currI) || (0 <? currJ)) then Some tempResult
  else
    match fuel with
    | 0 => None
    | S fuel' =>
        if (0 <? currI) && (0 <? currJ)
           && same_line oldLines newLines (currI - 1) (currJ - 1)
        then
          backtrack_loop fuel' dp oldLines newLines (currI - 1) (currJ - 1)
            (tempResult ++
               [mkDiffLine unchanged (Some currI) (Some currJ)
                  (default [] (oldLines !! (currI - 1)))])
        else if (0 <? currJ)
                && ((currI =? 0)
                    || (get2 dp (currI - 1) currJ <=? get2 dp currI (currJ - 1)))
        then
          backtrack_loop fuel' dp oldLines newLines currI (currJ - 1)
            (tempResult ++
               [mkDiffLine added None (Some currJ)
                  (default [] (newLines !! (currJ - 1)))])
        else if 0 <? currI
        then
          backtrack_loop fuel' dp oldLines newLines (currI - 1) currJ
            (tempResult ++
               [mkDiffLine removed (Some currI) None
                  (default [] (oldLines !! (currI - 1)))])
        else
          backtrack_loop fuel' dp oldLines newLines currI currJ tempResult
    end.

(** [backtrack]: the loop, then [tempResult.reverse()]. *)
Definition backtrack (dp : list (list nat)) (oldLines newLines : list jsstring)
    (i j : nat) : option (list DiffLine) :=
  reverse <$> backtrack_loop (i + j) dp oldLines newLines i j [].

Record DiffOut := mkDiffOut {
  diff : jsstring;
  lines_added : nat;
  lines_removed : nat;
  is_identical : bool
}.

(** The state of the rendering loop: the two counters and the output. *)
Definition render_line (st : nat * nat * list jsstring) (line : DiffLine)
    : nat * nat * list jsstring :=
  let '(linesAdded, linesRemoved, diffOutput) := st in
  match type line with
  | unchanged =>
      (linesAdded, linesRemoved, diffOutput ++ [str "  " ++ content line])
  | added =>
      (linesAdded + 1, linesRemoved, diffOutput ++ [str "+ " ++ content line])
  | removed =>
      (linesAdded, linesRemoved + 1, diffOutput ++ [str "- " ++ content line])
  end.

(** [generateDiff]; [None] only if the backtracking loop ran out of fuel. *)
Definition generateDiff (oldText newText : jsstring) : option DiffOut :=
  let oldLines := split_nl oldText in
  let newLines := split_nl newText in
  if seq_eq oldText newText
  then Some (mkDiffOut (str "(No changes)") 0 0 true)
  else
    let dp := lcs oldLines newLines in
    diffLines ← backtrack dp oldLines newLines (length oldLines) (length newLines);
    let '(linesAdded, linesRemoved, diffOutput) :=
      foldl render_line (0, 0, [str "--- old"; str "+++ new"; []]) diffLines in
    Some (mkDiffOut (join_nl diffOutput) linesAdded linesRemoved false).

End Diff.

(** ** Data model ([sqlServerTypes.ts]) *)

Inductive Operation := ALTER | DROP | CREATE | RESTORE.

Module BackupEntry.
Record t := mk {
  id : jsstring;
  timestamp : jsstring;
  operation : Operation;
  object_type : jsstring;
  object_name : jsstring;
  schema_name : jsstring;
  database : jsstring;
  backup_file : jsstring;
  file_hash : jsstring;
  success : bool;
  error_message : option jsstring
}.
End BackupEntry.

Module BackupLog.
Record t := mk {
  version : jsstring;
  created_at : jsstring;
  updated_at : jsstring;
  backups : list BackupEntry.t
}.

Definition set_backups (log : t) (bs : list BackupEntry.t) : t :=
  mk (version log) (created_at log) (updated_at log) bs.

Definition set_updated_at (log : t) (d : jsstring) : t :=
  mk (version log) (created_at log) d (backups log).
End BackupLog.

Module BackupResult.
Record t := mk {
  success : bool;
  message : jsstring;
  backup_file : jsstring;
  backup_id : jsstring
}.
End BackupResult.

Module BackupConfig.
Record t := mk {
  enabled : bool;
  directory : jsstring;
  max_backups_per_object : Z;
  auto_cleanup : bool;
  cleanup_days : Z
}.
End BackupConfig.

Module Version.
Record t := mk {
  backup_id : jsstring;
  timestamp : jsstring
}.
End Version.

Module DiffResult.
Record t := mk {
  object_name : jsstring;
  old_version : Version.t;
  new_version : Version.t;
  diff : jsstring;
  lines_added : nat;
  lines_removed : nat;
  is_identical : bool
}.
End DiffResult.

(** ** The platform and the world *)

(** Library functions of the JavaScript platform that the store calls and
    whose results the code never inspects. Times are milliseconds since the
    epoch; [None] is an invalid date. [sha256_hex] is the digest, in
    hexadecimal, of the UTF-8 bytes of a well-formed text. *)
Class Platform := {
  toLowerCase : jsstring -> jsstring;
  toUpperCase : jsstring -> jsstring;
  sha256_hex : jsstring -> jsstring;
  toISOString : Z -> jsstring;
  toString36 : Z -> jsstring;
  Date_parse : jsstring -> option Z;
  (** [d.getDate()]: the day of the month of a time, in local time. *)
  getDate : Z -> Z;
  (** [d.setDate(date)]: the time with its day of the month set. *)
  setDate : Z -> Z -> option Z;
  path_join : jsstring -> jsstring -> jsstring;
  path_dirname : jsstring -> jsstring
}.

Module Store.

(** The log file on disk: absent; present but not to be read or parsed;
    holding a backup log (an object whose [backups] is an array of
    entries); or holding other JSON, a value without a member [backups]
    such as [{}] or [null], of which the message of the [TypeError] is
    given that the use of a member of its [backups] throws. JSON with a
    [backups] of another shape is left out. The path of the log file is
    taken to be distinct from every content file's. *)
Inductive LogFile :=
| LogMissing
| LogUnreadable
| LogStored (log : BackupLog.t)
| LogForeign (type_error : jsstring -> jsstring).

(** What a path of the file system holds. A file is held as a text, of
    which a read gives what its UTF-8 encoding decodes to. *)
Inductive Node :=
| File (content : jsstring)
| Dir.

(** The world a call runs in. The four [_fails] fields say which file
    system calls throw whatever the path holds, and with which message. *)
Record World := mkWorld {
  config : BackupConfig.t;
  projectRoot : jsstring;
  files : gmap jsstring Node;
  logFile : LogFile;
  clock : nat -> Z;
  ticks : nat;
  random : nat -> jsstring;
  draws : nat;
  mkdir_fails : jsstring -> option jsstring;
  write_fails : jsstring -> option jsstring;
  read_fails : jsstring -> option jsstring;
  unlink_fails : jsstring -> option jsstring
}.

Definition set_files (w : World) (f : gmap jsstring Node) : World :=
  mkWorld (config w) (projectRoot w) f (logFile w) (clock w)
    (ticks w) (random w) (draws w) (mkdir_fails w) (write_fails w)
    (read_fails w) (unlink_fails w).

Definition set_logFile (w : World) (l : LogFile) : World :=
  mkWorld (config w) (projectRoot w) (files w) l (clock w)
    (ticks w) (random w) (draws w) (mkdir_fails w) (write_fails w)
    (read_fails w) (unlink_fails w).

Definition set_ticks (w : World) (n : nat) : World :=
  mkWorld (config w) (projectRoot w) (files w) (logFile w) (clock w)
    n (random w) (draws w) (mkdir_fails w) (write_fails w)
    (read_fails w) (unlink_fails w).

Definition set_draws (w : World) (n : nat) : World :=
  mkWorld (config w) (projectRoot w) (files w) (logFile w) (clock w)
    (ticks w) (random w) n (mkdir_fails w) (write_fails w)
    (read_fails w) (unlink_fails w).

(** How a call ends: with a value, with an exception, or not at all. *)
Inductive Outcome (A : Type) :=
| Ok (a : A)
| Throw (message : jsstring)
| Hang.
Arguments Ok {A} a.
Arguments Throw {A} message.
Arguments Hang {A}.

(** Effectful code: a world goes in, an outcome and a world come out.
    What a call did to the world before it threw stays done. *)
Definition M (A : Type) : Type := World -> Outcome A * World.

Definition ret {A} (a : A) : M A := fun w => (Ok a, w).

Definition bind {A B} (m : M A) (k : A -> M B) : M B :=
  fun w =>
    match m w with
    | (Ok a, w') => k a w'
    | (Throw e, w') => (Throw e, w')
    | (Hang, w') => (Hang, w')
    end.

Definition throw {A} (e : jsstring) : M A := fun w => (Throw e, w).

Definition hang {A} : M A := fun w => (Hang, w).

(** [try { m } catch (error) { handler(error.message) }] *)
Definition try_catch {A} (m : M A) (handler : jsstring -> M A) : M A :=
  fun w =>
    match m w with
    | (Throw e, w') => handler e w'
    | r => r
    end.

Declare Scope js_scope.
Delimit Scope js_scope with js.
Notation "x <- m ;; k" := (bind m (fun x => k))
  (at level 100, m at next level, right associativity) : js_scope.
Notation "m ;;; k" := (bind m (fun _ => k))
  (at level 100, right associativity) : js_scope.
Local Open Scope js_scope.

(** [for (const x of xs) { st = body(st, x) }] *)
Fixpoint for_of {A St} (body : St -> A -> M St) (xs : list A) (st : St)
    : M St :=
  match xs with
  | [] => ret st
  | x :: xs' => st' <- body st x ;; for_of body xs' st'
  end.

Definition when (b : bool) (m : M unit) : M unit :=
  if b then m else ret tt.

(** *** File system and clock *)

Definition getBackupConfig : M BackupConfig.t := fun w => (Ok (config w), w).

Definition getProjectRoot : M jsstring := fun w => (Ok (projectRoot w), w).

Definition existsSync (p : jsstring) : M bool :=
  fun w => (Ok (bool_decide (is_Some (files w !! p))), w).

Definition enoent (p : jsstring) : jsstring :=
  JS.str "ENOENT: no such file or directory, '" ++ p ++ JS.str "'".

Definition eisdir (p : jsstring) : jsstring :=
  JS.str "EISDIR: illegal operation on a directory, '" ++ p ++ JS.str "'".

Definition eexist (p : jsstring) : jsstring :=
  JS.str "EEXIST: file already exists, '" ++ p ++ JS.str "'".

(** [mkdirSync(p, { recursive: true })] *)
Definition mkdirSync (p : jsstring) : M unit :=
  fun w =>
    match mkdir_fails w p with
    | Some e => (Throw e, w)
    | None =>
        match files w !! p with
        | Some (File _) => (Throw (eexist p), w)
        | Some Dir => (Ok tt, w)
        | None => (Ok tt, set_files w (<[p := Dir]> (files w)))
        end
    end.

(** [writeFileSync(p, content, 'utf-8')] *)
Definition writeFileSync (p content : jsstring) : M unit :=
  fun w =>
    match write_fails w p with
    | Some e => (Throw e, w)
    | None =>
        match files w !! p with
        | Some Dir => (Throw (eisdir p), w)
        | _ =>
            (Ok tt,
             set_files w (<[p := File (JS.toWellFormed content)]> (files w)))
        end
    end.

(** [readFileSync(p, 'utf-8')] *)
Definition readFileSync (p : jsstring) : M jsstring :=
  fun w =>
    match read_fails w p with
    | Some e => (Throw e, w)
    | None =>
        match files w !! p with
        | Some (File content) => (Ok (JS.toWellFormed content), w)
        | Some Dir => (Throw (eisdir p), w)
        | None => (Throw (enoent p), w)
        end
    end.

Definition unlinkSync (p : jsstring) : M unit :=
  fun w =>
    match unlink_fails w p with
    | Some e => (Throw e, w)
    | None =>
        match files w !! p with
        | Some (File _) => (Ok tt, set_files w (delete p (files w)))
        | Some Dir => (Throw (eisdir p), w)
        | None => (Throw (enoent p), w)
        end
    end.

(** [new Date()] and [Date.now()]: one reading of the clock. *)
Definition new_Date : M Z :=
  fun w => (Ok (clock w (ticks w)), set_ticks w (S (ticks w))).

(** [Math.random().toString(36).substring(2, 8)] *)
Definition random_suffix : M jsstring :=
  fun w => (Ok (random w (draws w)), set_draws w (S (draws w))).

End Store.

(** ** Backup manager ([backupManager.ts]) *)

Module Backup.
Import JS Store.
Local Open Scope js_scope.

Section Manager.
Context {P : Platform}.

(** UTF-8 BOM for SSMS compatibility *)
Definition UTF8_BOM : jsstring := [65279%N].

Definition nl : jsstring := [10%N].

Definition rule : jsstring :=
  str "============================================================".

Definition getBackupDir : M jsstring :=
  config <- getBackupConfig ;;
  root <- getProjectRoot ;;
  ret (path_join root (BackupConfig.directory config)).

Definition typeMap : gmap jsstring jsstring :=
  list_to_map
    [ (str "PROCEDURE", str "procedures");
      (str "SQL_STORED_PROCEDURE", str "procedures");
      (str "FUNCTION", str "functions");
      (str "SQL_SCALAR_FUNCTION", str "functions");
      (str "SQL_TABLE_VALUED_FUNCTION", str "functions");
      (str "SQL_INLINE_TABLE_VALUED_FUNCTION", str "functions");
      (str "VIEW", str "views");
      (str "TRIGGER", str "triggers");
      (str "SQL_TRIGGER", str "triggers");
      (str "TABLE", str "tables");
      (str "USER_TABLE", str "tables") ].

Definition getObjectTypeDir (objectType : jsstring) : jsstring :=
  default (str "other") (typeMap !! toUpperCase objectType).

Definition subdirs : list jsstring :=
  [ str "procedures"; str "functions"; str "views"; str "triggers";
    str "tables"; str "other" ].

Definition ensureBackupDirs : M unit :=
  backupDir <- getBackupDir ;;
  there <- existsSync backupDir ;;
  (when (negb there) (mkdirSync backupDir)) ;;;
  for_of (fun (_ : unit) subdir =>
            let subdirPath := path_join backupDir subdir in
            there <- existsSync subdirPath ;;
            when (negb there) (mkdirSync subdirPath))
         subdirs tt.

Definition getBackupLogPath : M jsstring :=
  backupDir <- getBackupDir ;;
  ret (path_join backupDir (str "backup_log.json")).

Definition fresh_log : M BackupLog.t :=
  created <- new_Date ;;
  updated <- new_Date ;;
  ret (BackupLog.mk (str "1.0") (toISOString created) (toISOString updated) []).

(** What [loadBackupLog] returns: a backup log, or whatever else
    [JSON.parse] gave, which the code takes for a backup log without a
    check. *)
Inductive Loaded :=
| Typed (log : BackupLog.t)
| Untyped (type_error : jsstring -> jsstring).

(** [loadBackupLog]: a log that is absent or cannot be read or parsed
    gives a fresh empty log. *)
Definition loadBackupLog : M Loaded :=
  fun w =>
    match logFile w with
    | LogMissing => (log <- fresh_log ;; ret (Typed log)) w
    | LogUnreadable => (log <- fresh_log ;; ret (Typed log)) w
    | LogStored log => (Ok (Typed log), w)
    | LogForeign type_error => (Ok (Untyped type_error), w)
    end.

(** The first use [log.backups.member] of a loaded value: it throws a
    [TypeError] for a value without [backups]. *)
Definition as_log (member : jsstring) (loaded : Loaded) : M BackupLog.t :=
  match loaded with
  | Typed log => ret log
  | Untyped type_error => throw (type_error member)
  end.

(** [saveBackupLog]. The log comes back from the file as it was
    written: [JSON.stringify] writes a lone surrogate as an escape. *)
Definition saveBackupLog (log : BackupLog.t) : M unit :=
  logPath <- getBackupLogPath ;;
  now <- new_Date ;;
  let log := BackupLog.set_updated_at log (toISOString now) in
  fun w =>
    match write_fails w logPath with
    | Some e => (Throw e, w)
    | None => (Ok tt, set_logFile w (LogStored log))
    end.

Definition generateBackupId : M jsstring :=
  now <- new_Date ;;
  let timestamp := toString36 now in
  random <- random_suffix ;;
  ret (str "bkp_" ++ timestamp ++ str "_" ++ random).

Definition generateBackupFilename (objectName objectType : jsstring)
    : M jsstring :=
  now <- new_Date ;;
  let timestamp :=
    strip_fraction (replace_first 84 95 (strip_dash_colon (toISOString now))) in
  let sanitizedName := sanitize objectName in
  let typeDir := getObjectTypeDir objectType in
  ret (typeDir ++ str "/" ++ sanitizedName ++ str "_" ++ timestamp ++ str ".sql").

(** [createHash('sha256').update(content).digest('hex')]: the digest of
    the UTF-8 bytes of [content]. *)
Definition calculateHash (content : jsstring) : jsstring :=
  str "sha256:" ++ sha256_hex (toWellFormed content).

(** The provenance header for a capture made at [timestamp]. *)
Definition header (objectName objectType schemaName timestamp operation
    database : jsstring) : jsstring :=
  str "/*" ++ nl ++
  rule ++ nl ++
  str "BACKUP AUTOM" ++ [193%N] ++ str "TICO - MCP SQL Server" ++ nl ++
  rule ++ nl ++
  str "Objeto:      " ++ objectName ++ nl ++
  str "Tipo:        " ++ objectType ++ nl ++
  str "Schema:      " ++ schemaName ++ nl ++
  str "Fecha:       " ++ timestamp ++ nl ++
  str "Operaci" ++ [243%N] ++ str "n:   " ++ operation ++ nl ++
  str "Base Datos:  " ++ database ++ nl ++
  rule ++ nl ++
  str "PARA RESTAURAR: Ejecute el contenido de este archivo en SSMS" ++ nl ++
  rule ++ nl ++
  str "*/" ++ nl ++
  nl.

(** [formatBackupContent] with the reading [now] of the clock it takes. *)
Definition formatBackupContent_at (now : Z) (objectName objectType schemaName
    definition operation database : jsstring) : jsstring :=
  let timestamp := strip_fraction (replace_first 84 32 (toISOString now)) in
  UTF8_BOM
  ++ header objectName objectType schemaName timestamp operation database
  ++ definition.

Definition formatBackupContent (objectName objectType schemaName definition
    operation database : jsstring) : M jsstring :=
  now <- new_Date ;;
  ret (formatBackupContent_at now objectName objectType schemaName definition
         operation database).

Definition operation_name (op : Operation) : jsstring :=
  match op with
  | ALTER => str "ALTER"
  | DROP => str "DROP"
  | CREATE => str "CREATE"
  | RESTORE => str "RESTORE"
  end.

(** [b.object_name.toLowerCase() === objectName.toLowerCase()] *)
Definition same_name (objectName : jsstring) (b : BackupEntry.t) : bool :=
  seq_eq (toLowerCase (BackupEntry.object_name b)) (toLowerCase objectName).

(** The body of the loop of [cleanupOldBackups] for one backup to remove:
    [backups] is [log.backups] as it stands. *)
Definition remove_backup (backups : list BackupEntry.t)
    (backup : BackupEntry.t) : M (list BackupEntry.t) :=
  try_catch
    (backupDir <- getBackupDir ;;
     let filePath := path_join backupDir (BackupEntry.backup_file backup) in
     there <- existsSync filePath ;;
     (when there (unlinkSync filePath)) ;;;
     match findIndex (fun b => seq_eq (BackupEntry.id b) (BackupEntry.id backup))
                     backups with
     | Some index => ret (splice1 backups index)
     | None => ret backups
     end)
    (fun _ => ret backups).

(** [cleanupOldBackups]: the log it was given, as it leaves it. *)
Definition cleanupOldBackups (log : BackupLog.t) (objectName : jsstring)
    (maxBackups : Z) : M BackupLog.t :=
  let objectBackups := List.filter (same_name objectName) (BackupLog.backups log) in
  if (maxBackups <? Z.of_nat (length objectBackups))%Z
  then
    let toRemove := slice_from objectBackups maxBackups in
    backups <- for_of remove_backup toRemove (BackupLog.backups log) ;;
    ret (BackupLog.set_backups log backups)
  else ret log.

Definition disabled_result : BackupResult.t :=
  BackupResult.mk false (str "Backup is disabled in configuration") [] [].

(** The entry [createBackup] makes for the content it wrote. *)
Definition new_entry (backupId timestamp : jsstring) (operation : Operation)
    (objectType objectName schemaName database backupFilename
       content : jsstring) : BackupEntry.t :=
  BackupEntry.mk backupId timestamp operation objectType objectName schemaName
    database backupFilename (calculateHash content) true None.

Definition createBackup (objectName objectType schemaName definition : jsstring)
    (operation : Operation) (database : jsstring) : M BackupResult.t :=
  config <- getBackupConfig ;;
  if negb (BackupConfig.enabled config) then ret disabled_result
  else
    try_catch
      (ensureBackupDirs ;;;
       backupId <- generateBackupId ;;
       backupFilename <- generateBackupFilename objectName objectType ;;
       backupDir <- getBackupDir ;;
       let backupPath := path_join backupDir backupFilename in
       let backupSubdir := path_dirname backupPath in
       there <- existsSync backupSubdir ;;
       (when (negb there) (mkdirSync backupSubdir)) ;;;
       content <- formatBackupContent objectName objectType schemaName
                    definition (operation_name operation) database ;;
       writeFileSync backupPath content ;;;
       loaded <- loadBackupLog ;;
       now <- new_Date ;;
       let entry :=
         new_entry backupId (toISOString now) operation objectType objectName
           schemaName database backupFilename content in
       log <- as_log (str "unshift") loaded ;;
       let log := BackupLog.set_backups log (entry :: BackupLog.backups log) in
       log <- (if BackupConfig.auto_cleanup config
               then cleanupOldBackups log objectName
                      (BackupConfig.max_backups_per_object config)
               else ret log) ;;
       saveBackupLog log ;;;
       ret (BackupResult.mk true (str "Backup created successfully")
              backupFilename backupId))
      (fun errorMessage =>
         ret (BackupResult.mk false
                (str "Failed to create backup: " ++ errorMessage) [] [])).

(** [bType.includes(normalizedType) || normalizedType.includes(bType)] *)
Definition same_type (objectType : jsstring) (b : BackupEntry.t) : bool :=
  let normalizedType := toUpperCase objectType in
  let bType := toUpperCase (BackupEntry.object_type b) in
  includes bType normalizedType || includes normalizedType bType.

(** [listBackups]; an argument left out is [None], and [limit] is then 50. *)
Definition listBackups (objectName objectType : option jsstring)
    (limit : option Z) : M (list BackupEntry.t) :=
  let limit := default 50%Z limit in
  loaded <- loadBackupLog ;;
  log <- as_log (if truthy_opt objectName || truthy_opt objectType
                 then str "filter" else str "slice") loaded ;;
  let backups := BackupLog.backups log in
  let backups :=
    match objectName with
    | Some name =>
        if truthy name then List.filter (same_name name) backups else backups
    | None => backups
    end in
  let backups :=
    match objectType with
    | Some type =>
        if truthy type then List.filter (same_type type) backups else backups
    | None => backups
    end in
  ret (slice_to backups limit).

(** [log.backups.find((b) => b.id === backupId) || null] *)
Definition getBackupById (backupId : jsstring) : M (option BackupEntry.t) :=
  loaded <- loadBackupLog ;;
  log <- as_log (str "find") loaded ;;
  ret (List.find (fun b => seq_eq (BackupEntry.id b) backupId)
         (BackupLog.backups log)).

(** Remove BOM if present *)
Definition strip_bom (content : jsstring) : jsstring :=
  match content with
  | c :: rest => if (c =? 65279)%N then rest else content
  | [] => content
  end.

Definition getBackupContent (backupId : jsstring) : M (option jsstring) :=
  backup <- getBackupById backupId ;;
  match backup with
  | None => ret None
  | Some backup =>
      backupDir <- getBackupDir ;;
      let filePath := path_join backupDir (BackupEntry.backup_file backup) in
      there <- existsSync filePath ;;
      if negb there then ret None
      else
        try_catch
          (content <- readFileSync filePath ;;
           ret (Some (strip_bom content)))
          (fun _ => ret None)
  end.

(** *** The pattern of the fallback of [extractDefinitionFromBackup]:
    [/(CREATE|ALTER)\s+(PROCEDURE|FUNCTION|VIEW|TRIGGER|TABLE)/i] *)

(** The class [\s]. *)
Definition is_space (c : N) : bool :=
  ((9 <=? c) && (c <=? 13))%N || (c =? 32)%N || (c =? 160)%N
  || (c =? 5760)%N || ((8192 <=? c) && (c <=? 8202))%N || (c =? 8232)%N
  || (c =? 8233)%N || (c =? 8239)%N || (c =? 8287)%N || (c =? 12288)%N
  || (c =? 65279)%N.

(** Case folding of the flag [i] on a pattern of ASCII letters. *)
Definition fold_case (c : N) : N :=
  if ((97 <=? c) && (c <=? 122))%N then (c - 32)%N else c.

(** What is left of [s] after the upper-case word [kw], in any case. *)
Fixpoint after_word (kw s : jsstring) : option jsstring :=
  match kw, s with
  | [], _ => Some s
  | _ :: _, [] => None
  | k :: kw', c :: s' =>
      if (k =? fold_case c)%N then after_word kw' s' else None
  end.

Fixpoint skip_spaces (s : jsstring) : jsstring :=
  match s with
  | c :: s' => if is_space c then skip_spaces s' else s
  | [] => []
  end.

Definition after_any (kws : list jsstring) (s : jsstring) : option jsstring :=
  list_find (fun o : option jsstring => is_Some o)
    (map (fun kw => after_word kw s) kws) ≫= snd.

(** The pattern matches at the start of [s]. *)
Definition statement_here (s : jsstring) : bool :=
  match after_any [str "CREATE"; str "ALTER"] s with
  | Some (c :: rest) =>
      is_space c &&
      bool_decide (is_Some (after_any
        [str "PROCEDURE"; str "FUNCTION"; str "VIEW"; str "TRIGGER"; str "TABLE"]
        (skip_spaces rest)))
  | _ => false
  end.

(** [content.match(...)?.index] *)
Fixpoint statement_index (s : jsstring) (i : nat) : option nat :=
  if statement_here s then Some i
  else match s with
       | [] => None
       | _ :: s' => statement_index s' (S i)
       end.

Definition headerEndMarker : jsstring :=
  rule ++ nl ++ str "*/" ++ nl ++ nl.

Definition extractDefinitionFromBackup (content : jsstring) : jsstring :=
  match lastIndexOf content headerEndMarker with
  | Some headerEndIndex =>
      substring_from content (headerEndIndex + length headerEndMarker)
  | None =>
      match statement_index content 0 with
      | Some index => substring_from content index
      | None => content
      end
  end.

(** [backupDate < cutoffDate]: false when either date is invalid. *)
Definition date_lt (a b : option Z) : bool :=
  match a, b with
  | Some x, Some y => (x <? y)%Z
  | _, _ => false
  end.

(** The body of the loop of [cleanupByAge], on [(removed, toKeep)]. *)
Definition age_step (cutoffDate : option Z) (st : nat * list BackupEntry.t)
    (backup : BackupEntry.t) : M (nat * list BackupEntry.t) :=
  let '(removed, toKeep) := st in
  let backupDate := Date_parse (BackupEntry.timestamp backup) in
  if date_lt backupDate cutoffDate
  then
    try_catch
      (backupDir <- getBackupDir ;;
       let filePath := path_join backupDir (BackupEntry.backup_file backup) in
       there <- existsSync filePath ;;
       (when there (unlinkSync filePath)) ;;;
       ret (removed + 1, toKeep))
      (fun _ => ret (removed, toKeep ++ [backup]))
  else ret (removed, toKeep ++ [backup]).

Definition cleanupByAge (days : Z) : M nat :=
  loaded <- loadBackupLog ;;
  now <- new_Date ;;
  let cutoffDate := setDate now (getDate now - days) in
  log <- as_log (str "[Symbol.iterator]") loaded ;;
  st <- for_of (age_step cutoffDate) (BackupLog.backups log) (0, []) ;;
  let '(removed, toKeep) := st in
  saveBackupLog (BackupLog.set_backups log toKeep) ;;;
  ret removed.

(** *** [compareBackups] ([diffUtils.ts]) *)

Definition compareBackups (backupIdOld backupIdNew : jsstring)
    (currentDefinition : option jsstring) : M (option DiffResult.t) :=
  oldBackup <- getBackupById backupIdOld ;;
  match oldBackup with
  | None => ret None
  | Some oldBackup =>
      oldContent <- getBackupContent backupIdOld ;;
      match oldContent with
      | None => ret None
      | Some oldContent =>
          if negb (truthy oldContent) then ret None
          else
            new_side <-
              (if seq_eq backupIdNew (str "current")
               then
                 match currentDefinition with
                 | None => ret None
                 | Some currentDefinition =>
                     if negb (truthy currentDefinition) then ret None
                     else
                       now <- new_Date ;;
                       ret (Some (currentDefinition,
                                  Version.mk (str "current") (toISOString now)))
                 end
               else
                 newBackup <- getBackupById backupIdNew ;;
                 match newBackup with
                 | None => ret None
                 | Some newBackup =>
                     newBackupContent <- getBackupContent backupIdNew ;;
                     match newBackupContent with
                     | None => ret None
                     | Some newBackupContent =>
                         if negb (truthy newBackupContent) then ret None
                         else
                           ret (Some (extractDefinitionFromBackup newBackupContent,
                                      Version.mk (BackupEntry.id newBackup)
                                        (BackupEntry.timestamp newBackup)))
                     end
                 end) ;;
            match new_side with
            | None => ret None
            | Some (newContent, newBackupInfo) =>
                let oldDefinition := extractDefinitionFromBackup oldContent in
                match Diff.generateDiff oldDefinition newContent with
                | None => hang
                | Some d =>
                    ret (Some (DiffResult.mk
                                 (BackupEntry.object_name oldBackup)
                                 (Version.mk (BackupEntry.id oldBackup)
                                    (BackupEntry.timestamp oldBackup))
                                 newBackupInfo
                                 (Diff.diff d) (Diff.lines_added d)
                                 (Diff.lines_removed d) (Diff.is_identical d)))
                end
            end
      end
  end.

End Manager.
End Backup.

(** ** Reference definitions for the statements *)

Module DiffSpec.
Import JS Diff.

(** The length of a longest common subsequence of the first [i] old lines
    and the first [j] new lines, by the recurrence of the table. *)
Fixpoint lcs_length (oldLines newLines : list jsstring) (i : nat) : nat -> nat :=
  match i with
  | 0 => fun _ => 0
  | S i' =>
      fix row (j : nat) : nat :=
        match j with
        | 0 => 0
        | S j' =>
            if same_line oldLines newLines i' j'
            then lcs_length oldLines newLines i' j' + 1
            else Nat.max (lcs_length oldLines newLines i' j) (row j')
        end
  end.

(** How many lines of a diff carry the mark [t]. *)
Definition count_type (t : DiffType) (ls : list DiffLine) : nat :=
  length (List.filter (fun l => bool_decide (type l = t)) ls).

(** The table has [m + 1] rows of [n + 1] numbers. *)
Definition shape (m n : nat) (dp : list (list nat)) : Prop :=
  length dp = m + 1 /\ Forall (fun row => length row = n + 1) dp.

(** Rows before [i], and row [i] up to column [j], are filled in; the
    other cells still hold zero. *)
Definition filled (oldLines newLines : list jsstring) (i j : nat)
    (dp : list (list nat)) : Prop :=
  shape (length oldLines) (length newLines) dp /\
  forall r c, r <= length oldLines -> c <= length newLines ->
    get2 dp r c =
    if decide (r < i \/ (r = i /\ c <= j))
    then lcs_length oldLines newLines r c else 0.

End DiffSpec.

Module BackupSpec.
Import JS Store Backup.

Section Spec.
Context {P : Platform}.

(** The entries of the log on disk, newest first; none if there is no
    loadable log. *)
Definition log_of (w : World) : list BackupEntry.t :=
  match logFile w with
  | LogStored log => BackupLog.backups log
  | _ => []
  end.

(** The log file is absent, cannot be read or parsed, or holds a backup
    log: what [loadBackupLog] returns is a backup log. *)
Definition log_typed (w : World) : Prop :=
  match logFile w with
  | LogForeign _ => False
  | _ => True
  end.

(** The first entry of the log with the given id. *)
Definition entry_of (w : World) (backupId : jsstring) : option BackupEntry.t :=
  List.find (fun b => seq_eq (BackupEntry.id b) backupId) (log_of w).

(** Where the content file of an entry lives. *)
Definition backup_dir (w : World) : jsstring :=
  path_join (projectRoot w) (BackupConfig.directory (config w)).

Definition file_path (w : World) (b : BackupEntry.t) : jsstring :=
  path_join (backup_dir w) (BackupEntry.backup_file b).

Definition log_path (w : World) : jsstring :=
  path_join (backup_dir w) (str "backup_log.json").

(** The text of a content file, without its BOM, when the file is there
    and can be read. *)
Definition readable_text (w : World) (p : jsstring) : option jsstring :=
  match read_fails w p, files w !! p with
  | None, Some (File content) => Some (strip_bom (toWellFormed content))
  | _, _ => None
  end.

(** The stored text of the backup with the given id. *)
Definition content_of (w : World) (backupId : jsstring) : option jsstring :=
  b ← entry_of w backupId; readable_text w (file_path w b).

(** A backup that cannot serve as one side of a comparison: no entry, or
    no text to be read for it, or an empty text. *)
Definition unavailable (w : World) (backupId : jsstring) : Prop :=
  entry_of w backupId = None \/
  content_of w backupId = None \/
  content_of w backupId = Some [].

(** When a comparison has nothing to compare: a side that is a backup is
    unavailable, or the new side is "current" and no text (or the empty
    text) came with it. *)
Definition nothing_to_compare (w : World) (backupIdOld backupIdNew : jsstring)
    (currentDefinition : option jsstring) : Prop :=
  unavailable w backupIdOld \/
  (backupIdNew = str "current" /\ truthy_opt currentDefinition = false) \/
  (backupIdNew <> str "current" /\ unavailable w backupIdNew).

(** The new side of a comparison: its text, and how the result names it. *)
Definition new_side_is (w : World) (backupIdNew : jsstring)
    (currentDefinition : option jsstring) (newText : jsstring)
    (newInfo : Version.t) : Prop :=
  if decide (backupIdNew = str "current")
  then currentDefinition = Some newText /\
       Version.backup_id newInfo = str "current" /\
       exists t, Version.timestamp newInfo = toISOString (clock w t)
  else exists newBackup stored,
         entry_of w backupIdNew = Some newBackup /\
         content_of w backupIdNew = Some stored /\
         newText = extractDefinitionFromBackup stored /\
         newInfo = Version.mk (BackupEntry.id newBackup)
                     (BackupEntry.timestamp newBackup).

(** A result that carries the old entry's identity, the new side's, and
    the diff of the two definitions. *)
Definition populated (w : World) (backupIdOld backupIdNew : jsstring)
    (currentDefinition : option jsstring) (d : DiffResult.t) : Prop :=
  exists oldBackup oldText newText newInfo g,
    entry_of w backupIdOld = Some oldBackup /\
    content_of w backupIdOld = Some oldText /\
    new_side_is w backupIdNew currentDefinition newText newInfo /\
    Diff.generateDiff (extractDefinitionFromBackup oldText) newText = Some g /\
    d = DiffResult.mk (BackupEntry.object_name oldBackup)
          (Version.mk (BackupEntry.id oldBackup)
             (BackupEntry.timestamp oldBackup))
          newInfo (Diff.diff g) (Diff.lines_added g) (Diff.lines_removed g)
          (Diff.is_identical g).

(** The filter of [listBackups] in one predicate: an argument that is
    given (and not the empty string) must match. *)
Definition listed (objectName objectType : option jsstring)
    (b : BackupEntry.t) : bool :=
  (if truthy_opt objectName
   then seq_eq (toLowerCase (BackupEntry.object_name b))
               (toLowerCase (default [] objectName))
   else true)
  &&
  (if truthy_opt objectType
   then includes (toUpperCase (BackupEntry.object_type b))
                 (toUpperCase (default [] objectType))
        || includes (toUpperCase (default [] objectType))
                    (toUpperCase (BackupEntry.object_type b))
   else true).

(** Retention by count: every entry of another object stays, and of the
    entries of this object the first [k] (the most recent) stay. *)
Fixpoint keep_recent (objectName : jsstring) (k : nat)
    (backups : list BackupEntry.t) : list BackupEntry.t :=
  match backups with
  | [] => []
  | b :: rest =>
      if same_name objectName b
      then match k with
           | 0 => keep_recent objectName 0 rest
           | S k' => b :: keep_recent objectName k' rest
           end
      else b :: keep_recent objectName k rest
  end.

(** The entries of this object beyond the [k] most recent. *)
Definition excess (objectName : jsstring) (k : nat)
    (backups : list BackupEntry.t) : list BackupEntry.t :=
  drop k (List.filter (same_name objectName) backups).

(** What one turn of the loop of [cleanupOldBackups] does to the log when
    the file is out of the way: the first entry with the id goes. *)
Definition remove_by_id (backups : list BackupEntry.t) (backup : BackupEntry.t)
    : list BackupEntry.t :=
  match findIndex (fun b => seq_eq (BackupEntry.id b) (BackupEntry.id backup))
                  backups with
  | Some index => splice1 backups index
  | None => backups
  end.

(** The files left when the content files of [gone] are deleted. *)
Definition without_files (w : World) (gone : list BackupEntry.t)
    (fs : gmap jsstring Node) : gmap jsstring Node :=
  foldl (fun fs b => delete (file_path w b) fs) fs gone.

(** Deleting the content file of [b] throws: the path holds a file that
    [unlinkSync] fails on, or a directory. *)
Definition delete_throws (w : World) (b : BackupEntry.t) : bool :=
  match files w !! file_path w b with
  | Some (File _) => bool_decide (is_Some (unlink_fails w (file_path w b)))
  | Some Dir => true
  | None => false
  end.

(** The entry is strictly older than the cutoff. *)
Definition older_than (cutoff : option Z) (b : BackupEntry.t) : bool :=
  match Date_parse (BackupEntry.timestamp b), cutoff with
  | Some t, Some c => bool_decide (t < c)%Z
  | _, _ => false
  end.

(** What [cleanupByAge] takes away and what it leaves, for a cutoff. *)
Definition aged_out (w : World) (cutoff : option Z) (b : BackupEntry.t) : bool :=
  older_than cutoff b && negb (delete_throws w b).

Definition retained (w : World) (cutoff : option Z) (b : BackupEntry.t) : bool :=
  negb (older_than cutoff b) || delete_throws w b.

(** The files [fs] are those of [w] less some files that can be deleted. *)
Definition only_deleted (w : World) (fs : gmap jsstring Node) : Prop :=
  forall p,
    fs !! p = files w !! p \/
    (fs !! p = None /\ unlink_fails w p = None /\
     exists content, files w !! p = Some (File content)).

(** The files [fs'] are the files [fs] less some. *)
Definition only_fewer (fs fs' : gmap jsstring Node) : Prop :=
  forall p, fs' !! p = fs !! p \/ fs' !! p = None.

(** The world with the clock read some more times, and nothing else
    changed. *)
Definition later (w w' : World) : Prop :=
  exists n, w' = set_ticks w n.

End Spec.
End BackupSpec.

(** ** A platform and stores for closed examples *)

Module Examples.
Import JS Store Backup BackupSpec.

Definition ascii_lower (c : N) : N :=
  if ((65 <=? c) && (c <=? 90))%N then (c + 32)%N else c.

Definition ascii_upper (c : N) : N :=
  if ((97 <=? c) && (c <=? 122))%N then (c - 32)%N else c.

(** The dates of the examples, as ISO text and as milliseconds. *)
Definition dates : list (string * Z) :=
  [ ("2024-01-01T00:00:00.000Z"%string, 1704067200000);
    ("2024-04-06T12:00:00.000Z"%string, 1712404800000);
    ("2024-05-06T07:08:09.000Z"%string, 1714979289000);
    ("2024-05-06T12:00:00.000Z"%string, 1714996800000) ]%Z.

Definition decimal (n : N) : jsstring :=
  str (NilZero.string_of_uint (N.to_uint n)).

(** A checksum in place of SHA-256. *)
Definition checksum (s : jsstring) : jsstring :=
  decimal (fold_left (fun h c => ((h * 31 + c) mod 4294967296)%N) s 7%N).

Definition dirname (p : jsstring) : jsstring :=
  match lastIndexOf p (str "/") with
  | Some i => take i p
  | None => str "."
  end.

(** The calendar in UTC: the year, month and day of the month of a day
    counted from the epoch, and the day of a date of the calendar. *)
Definition civil_from_days (z : Z) : Z * Z * Z :=
  let z := (z + 719468)%Z in
  let era := (z / 146097)%Z in
  let doe := (z - era * 146097)%Z in
  let yoe := ((doe - doe / 1460 + doe / 36524 - doe / 146096) / 365)%Z in
  let doy := (doe - (365 * yoe + yoe / 4 - yoe / 100))%Z in
  let mp := ((5 * doy + 2) / 153)%Z in
  let d := (doy - (153 * mp + 2) / 5 + 1)%Z in
  let m := (if (mp <? 10)%Z then mp + 3 else mp - 9)%Z in
  ((yoe + era * 400 + (if (m <=? 2)%Z then 1 else 0))%Z, m, d).

Definition days_from_civil (y m d : Z) : Z :=
  let y := (if (m <=? 2)%Z then y - 1 else y)%Z in
  let era := (y / 400)%Z in
  let yoe := (y - era * 400)%Z in
  let doy := ((153 * (if (2 <? m)%Z then m - 3 else m + 9) + 2) / 5 + d - 1)%Z in
  let doe := (yoe * 365 + yoe / 4 - yoe / 100 + doy)%Z in
  (era * 146097 + doe - 719468)%Z.

(** [date.setDate(day)] in UTC: the day of the month is replaced, days
    outside the month run into the months around it, and a time out of
    the range of dates is invalid. *)
Definition set_day_of_month (t day : Z) : option Z :=
  let '(y, m, _) := civil_from_days (t / 86400000) in
  let t' := ((days_from_civil y m 1 + day - 1) * 86400000
             + t mod 86400000)%Z in
  if (Z.abs t' <=? 8640000000000000)%Z then Some t' else None.

(** Case mapping as JavaScript does it on ASCII text, dates by the table
    above (any other text is an invalid date), the calendar in UTC,
    paths joined with a slash. The digest and the base-36 text are
    stand-ins. *)
#[export] Instance ascii_platform : Platform := {|
  toLowerCase := map ascii_lower;
  toUpperCase := map ascii_upper;
  sha256_hex := checksum;
  toISOString := fun t =>
    match List.find (fun d => (t =? snd d)%Z) dates with
    | Some d => str (fst d)
    | None => str "1970-01-01T00:00:00.000Z"
    end;
  toString36 := fun t => decimal (Z.to_N t);
  Date_parse := fun s =>
    snd <$> List.find (fun d => seq_eq (str (fst d)) s) dates;
  getDate := fun t => snd (civil_from_days (t / 86400000));
  setDate := set_day_of_month;
  path_join := fun a b => a ++ str "/" ++ b;
  path_dirname := dirname
|}.

Definition entry (id name timestamp : string) : BackupEntry.t :=
  BackupEntry.mk (str id) (str timestamp) ALTER
    (str "PROCEDURE") (str name) (str "dbo") (str "db")
    (str "procedures/" ++ str id ++ str ".sql") (str "sha256:0") true None.

Definition path_of (id : string) : jsstring :=
  str "/srv/.sql_backups/procedures/" ++ str id ++ str ".sql".

Definition config_with (enabled : bool) (max_backups : Z) : BackupConfig.t :=
  BackupConfig.mk enabled (str ".sql_backups") max_backups true 30.

(** A store with the given configuration, content files and log, at noon
    of 6 May 2024, in which [unlinkSync] fails on the paths given and no
    other file system call fails. *)
Definition store (cfg : BackupConfig.t) (fs : list (jsstring * jsstring))
    (stuck : list jsstring) (backups : list BackupEntry.t) : World :=
  mkWorld cfg (str "/srv") (File <$> list_to_map fs)
    (LogStored (BackupLog.mk (str "1.0") (str "2024-01-01T00:00:00.000Z")
                  (str "2024-01-01T00:00:00.000Z") backups))
    (fun _ => 1714996800000%Z) 0 (fun _ => str "k3x9qa") 0
    (fun _ => None) (fun _ => None) (fun _ => None)
    (fun p => if bool_decide (p ∈ stuck)
              then Some (str "EPERM: operation not permitted")
              else None).

(** Five backups of "foo" in varying case among three of other objects. *)
Definition scenario_log : list BackupEntry.t :=
  [ entry "b8" "bar" "2024-05-06T07:08:09.000Z";
    entry "b7" "FOO" "2024-05-06T07:08:09.000Z";
    entry "b6" "foobar" "2024-05-06T07:08:09.000Z";
    entry "b5" "Foo" "2024-05-06T07:08:09.000Z";
    entry "b4" "foo" "2024-04-06T12:00:00.000Z";
    entry "b3" "baz" "2024-04-06T12:00:00.000Z";
    entry "b2" "fOO" "2024-01-01T00:00:00.000Z";
    entry "b1" "foO" "2024-01-01T00:00:00.000Z" ].

Definition scenario_files : list (jsstring * jsstring) :=
  map (fun b => (str "/srv/.sql_backups/" ++ BackupEntry.backup_file b,
                 str "SELECT 1"))
      scenario_log.

Definition scenario_store : World :=
  store (config_with true 50) scenario_files [] scenario_log.

Definition disabled_store : World :=
  store (config_with false 50) scenario_files [] scenario_log.

(** One backup of "foo" whose file cannot be deleted, and a cap of one. *)
Definition stuck_store : World :=
  store (config_with true 1) [(path_of "b1", str "SELECT 1")] [path_of "b1"]
    [entry "b1" "foo" "2024-01-01T00:00:00.000Z"].

(** One backup whose content file is there and empty. *)
Definition empty_file_store : World :=
  store (config_with true 50) [(path_of "b1", [])] []
    [entry "b1" "foo" "2024-01-01T00:00:00.000Z"].

Definition sample_definition : jsstring :=
  str "CREATE PROCEDURE dbo.usp_x AS SELECT 1".

(** The run of [createBackup] ended with a result that reports success. *)
Definition created (run : Outcome BackupResult.t * World) : bool :=
  match run with
  | (Ok r, _) => BackupResult.success r
  | _ => false
  end.

End Examples.

(** ** The rest of the diff utilities ([diffUtils.ts]) *)

Module DiffTools.
Import JS Diff.

(** [arr.slice(start, end)] with JavaScript's treatment of negative and
    oversized bounds. *)
Definition slice {A} (arr : list A) (start end_ : Z) : list A :=
  let len := Z.of_nat (length arr) in
  let k := if (start <? 0)%Z then Z.max (len + start) 0 else Z.min start len in
  let final := if (end_ <? 0)%Z then Z.max (len + end_) 0 else Z.min end_ len in
  take (Z.to_nat (final - k)) (drop (Z.to_nat k) arr).

(** [getDiffContext]; [contextLines] left out is 3. *)
Definition getDiffContext (diff : jsstring) (lineNumber : Z)
    (contextLines : option Z) : jsstring :=
  let contextLines := default 3%Z contextLines in
  let lines := split_nl diff in
  let start := Z.max 0 (lineNumber - contextLines) in
  let end_ := Z.min (Z.of_nat (length lines)) (lineNumber + contextLines + 1) in
  join_nl (slice lines start end_).

(** A count in a template literal. *)
Definition number_text (n : nat) : jsstring :=
  str (NilEmpty.string_of_uint (Nat.to_uint n)).

Definition generateChangeSummary (diffResult : DiffResult.t) : jsstring :=
  if DiffResult.is_identical diffResult
  then str "No changes between versions of " ++ DiffResult.object_name diffResult
  else
    join_nl
      [ str "Changes in " ++ DiffResult.object_name diffResult ++ str ":";
        str "  Old version: "
          ++ Version.backup_id (DiffResult.old_version diffResult)
          ++ str " (" ++ Version.timestamp (DiffResult.old_version diffResult)
          ++ str ")";
        str "  New version: "
          ++ Version.backup_id (DiffResult.new_version diffResult)
          ++ str " (" ++ Version.timestamp (DiffResult.new_version diffResult)
          ++ str ")";
        str "  Lines added: " ++ number_text (DiffResult.lines_added diffResult);
        str "  Lines removed: "
          ++ number_text (DiffResult.lines_removed diffResult) ].

End DiffTools.

(** ** Reading a diff as an edit script *)

Module DiffScript.
Import JS Diff.

(** The lines of the old text that a diff shows: the unchanged and the
    removed ones, in order. *)
Definition old_view (ds : list DiffLine) : list jsstring :=
  content <$> List.filter (fun l => negb (bool_decide (type l = added))) ds.

(** The lines of the new text that a diff shows: the unchanged and the
    added ones, in order. *)
Definition new_view (ds : list DiffLine) : list jsstring :=
  content <$> List.filter (fun l => negb (bool_decide (type l = removed))) ds.

(** The lines that a diff shows as common to both texts. *)
Definition kept_view (ds : list DiffLine) : list jsstring :=
  content <$> List.filter (fun l => bool_decide (type l = unchanged)) ds.

(** One line of the body of the rendered diff. *)
Definition render_text (line : DiffLine) : jsstring :=
  match type line with
  | unchanged => str "  " ++ content line
  | added => str "+ " ++ content line
  | removed => str "- " ++ content line
  end.

(** The rendered diff of a script. *)
Definition render (ds : list DiffLine) : jsstring :=
  join_nl ([str "--- old"; str "+++ new"; []] ++ map render_text ds).

(** [c] is a subsequence of both [a] and [b]. *)
Definition common (c a b : list jsstring) : Prop :=
  c `sublist_of` a /\ c `sublist_of` b.

End DiffScript.

(** ** Further reference definitions for the backup manager *)

Module StoreSpec.
Import JS Store Backup BackupSpec.

Section Spec.
Context {P : Platform}.

(** The text at position [k] of [s] starts a CREATE or ALTER statement. *)
Definition statement_at (s : jsstring) (k : nat) : Prop :=
  statement_here (drop k s) = true.

(** A path that the file system holds, as a file or as a directory. *)
Definition present (w : World) (p : jsstring) : Prop :=
  is_Some (files w !! p).

(** The world [w'] is [w] with more paths: what [w] holds is as it was,
    and nothing but the files has changed. *)
Definition extends (w w' : World) : Prop :=
  w' = set_files w (files w') /\
  forall p, present w p -> files w' !! p = files w !! p.

(** The directories that [ensureBackupDirs] looks after. *)
Definition backup_dirs (w : World) : list jsstring :=
  backup_dir w :: map (path_join (backup_dir w)) subdirs.

(** Two worlds that differ at most in their files, in the positions of
    the clock and of the random source, and in their log file. *)
Definition same_env (w w' : World) : Prop :=
  config w' = config w /\ projectRoot w' = projectRoot w /\
  clock w' = clock w /\ random w' = random w /\
  mkdir_fails w' = mkdir_fails w /\ write_fails w' = write_fails w /\
  read_fails w' = read_fails w /\ unlink_fails w' = unlink_fails w.

(** A decimal digit. *)
Definition is_digit (c : N) : bool := ((48 <=? c) && (c <=? 57))%N.

Definition digits (s : jsstring) : Prop := Forall (fun c => is_digit c = true) s.

(** The text of a time as [toISOString] writes it, from its fields. *)
Definition iso_text (year month day hour minute second fraction : jsstring)
    : jsstring :=
  year ++ str "-" ++ month ++ str "-" ++ day ++ str "T" ++ hour ++ str ":"
  ++ minute ++ str ":" ++ second ++ str "." ++ fraction ++ str "Z".

(** The world [w'] is [w] after calls that left the log file alone and
    took nothing off the disk: what [w] holds is still there. *)
Definition grown (w w' : World) : Prop :=
  same_env w w' /\ logFile w' = logFile w /\
  forall p, present w p -> files w' !! p = files w !! p.

End Spec.
End StoreSpec.

(** ** Statistics ([getBackupStats], [backupManager.ts]) *)

Module Stats.
Import JS Store Backup.
Local Open Scope js_scope.

Record t := mk {
  total_backups : nat;
  by_type : gmap jsstring nat;
  by_operation : gmap jsstring nat;
  oldest_backup : option jsstring;
  newest_backup : option jsstring;
  total_size_bytes : N
}.

(** [a < b] on strings: the order of the code units. *)
Fixpoint str_lt (a b : jsstring) : bool :=
  match a, b with
  | _, [] => false
  | [], _ :: _ => true
  | x :: a', y :: b' => (x <? y)%N || ((x =? y)%N && str_lt a' b')
  end.

(** [counts[key] = (counts[key] || 0) + 1] *)
Definition bump (counts : gmap jsstring nat) (key : jsstring)
    : gmap jsstring nat :=
  <[key := default 0 (counts !! key) + 1]> counts.

Section Stats.
Context {P : Platform}.

(** What [statSync(p).size] gives for a path that exists: a number of
    bytes, or [None] when the call throws. *)
Variable stat_size : jsstring -> option N.

Definition statSync (p : jsstring) : M N :=
  fun w =>
    match stat_size p with
    | Some size => (Ok size, w)
    | None => (Throw (str "EACCES: permission denied, stat"), w)
    end.

(** The body of the loop of [getBackupStats]. *)
Definition stats_step (backupDir : jsstring) (stats : t)
    (backup : BackupEntry.t) : M t :=
  let typeDir := getObjectTypeDir (BackupEntry.object_type backup) in
  let by_type := bump (by_type stats) typeDir in
  let by_operation :=
    bump (by_operation stats) (operation_name (BackupEntry.operation backup)) in
  let oldest_backup :=
    if negb (truthy_opt (oldest_backup stats))
       || str_lt (BackupEntry.timestamp backup)
                 (default [] (oldest_backup stats))
    then Some (BackupEntry.timestamp backup)
    else oldest_backup stats in
  let newest_backup :=
    if negb (truthy_opt (newest_backup stats))
       || str_lt (default [] (newest_backup stats))
                 (BackupEntry.timestamp backup)
    then Some (BackupEntry.timestamp backup)
    else newest_backup stats in
  total_size_bytes <-
    try_catch
      (let filePath := path_join backupDir (BackupEntry.backup_file backup) in
       there <- existsSync filePath ;;
       if there
       then size <- statSync filePath ;;
            ret (total_size_bytes stats + size)%N
       else ret (total_size_bytes stats))
      (fun _ => ret (total_size_bytes stats)) ;;
  ret (mk (total_backups stats) by_type by_operation oldest_backup
         newest_backup total_size_bytes).

Definition getBackupStats : M t :=
  loaded <- loadBackupLog ;;
  backupDir <- getBackupDir ;;
  log <- as_log (str "length") loaded ;;
  for_of (stats_step backupDir) (BackupLog.backups log)
    (mk (length (BackupLog.backups log)) ∅ ∅ None None 0).

End Stats.
End Stats.

Module StatsSpec.
Import JS Store Backup BackupSpec Stats.

#[global] Instance Operation_eq_dec : EqDecision Operation.
Proof. solve_decision. Defined.

Section Spec.
Context {P : Platform}.
Variable stat_size : jsstring -> option N.

(** The category directory of an entry. *)
Definition type_dir (b : BackupEntry.t) : jsstring :=
  getObjectTypeDir (BackupEntry.object_type b).

(** How many entries a predicate holds of. *)
Definition count (p : BackupEntry.t -> bool) (bs : list BackupEntry.t) : nat :=
  length (List.filter p bs).

(** The bytes that one entry adds to the total: the size of its content
    file when the path exists and [statSync] does not throw. *)
Definition size_of (w : World) (b : BackupEntry.t) : N :=
  match files w !! file_path w b with
  | Some _ => default 0%N (stat_size (file_path w b))
  | None => 0%N
  end.

End Spec.
End StatsSpec.

(** ** The backup tools ([tools/schemaTools.ts]) *)

Module Tools.
Import JS Store Backup.

Inductive McpErrorCode :=
| CONFIRM_REQUIRED
| OBJECT_NOT_FOUND
| BACKUP_FAILED
| SYNTAX_ERROR
| PERMISSION_DENIED
| TIMEOUT
| MAX_ROWS_EXCEEDED
| INVALID_OPERATION
| DATABASE_NOT_SUPPORTED
| RESTORE_FAILED.

(** [McpSqlServerError]; of the details only the suggestion is used
    here. *)
Record McpSqlServerError := mkError {
  code : McpErrorCode;
  message : jsstring;
  suggestion : option jsstring
}.

(** How a tool ends: its promise resolves, it rejects with an
    [McpSqlServerError] or with another error, or it does not settle. *)
Inductive Settled (A : Type) :=
| Resolved (a : A)
| Rejected (e : McpSqlServerError)
| Failed (message : jsstring)
| Pending.

Arguments Resolved {A} a.
Arguments Rejected {A} e.
Arguments Failed {A} message.
Arguments Pending {A}.

Definition T (A : Type) : Type := World -> Settled A * World.

Definition resolve {A} (a : A) : T A := fun w => (Resolved a, w).

Definition reject {A} (e : McpSqlServerError) : T A := fun w => (Rejected e, w).

(** A call of the backup manager from a tool. *)
Definition call {A} (m : M A) : T A :=
  fun w =>
    match m w with
    | (Ok a, w') => (Resolved a, w')
    | (Throw e, w') => (Failed e, w')
    | (Hang, w') => (Pending, w')
    end.

Definition then_ {A B} (m : T A) (k : A -> T B) : T B :=
  fun w =>
    match m w with
    | (Resolved a, w') => k a w'
    | (Rejected e, w') => (Rejected e, w')
    | (Failed e, w') => (Failed e, w')
    | (Pending, w') => (Pending, w')
    end.

(** [try { body } catch (error) { if (error instanceof McpSqlServerError)
    throw error; throw new McpSqlServerError('INVALID_OPERATION',
    prefix + error.message) }] *)
Definition rethrow (prefix : jsstring) {A} (body : T A) : T A :=
  fun w =>
    match body w with
    | (Failed e, w') => (Rejected (mkError INVALID_OPERATION (prefix ++ e) None), w')
    | r => r
    end.

(** [try { body } catch (error) { throw new McpSqlServerError(
    'INVALID_OPERATION', prefix + error.message) }] *)
Definition rethrow_all (prefix : jsstring) {A} (body : T A) : T A :=
  fun w =>
    match body w with
    | (Failed e, w') => (Rejected (mkError INVALID_OPERATION (prefix ++ e) None), w')
    | (Rejected e, w') =>
        (Rejected (mkError INVALID_OPERATION (prefix ++ message e) None), w')
    | r => r
    end.

(** What [getBackup] hands to [formatSuccessResponse]. *)
Record BackupView := mkView {
  view_backup_id : jsstring;
  view_timestamp : jsstring;
  view_operation : Operation;
  view_object_name : jsstring;
  view_object_type : jsstring;
  view_schema_name : jsstring;
  view_database : jsstring;
  view_backup_file : jsstring;
  view_definition : jsstring
}.

(** What [cleanupBackups] hands to [formatSuccessResponse]. *)
Record CleanupReport := mkReport {
  report_success : bool;
  report_message : jsstring;
  removed_count : nat
}.

Section Tools.
Context {P : Platform}.

(** [formatSuccessResponse] of [utils/formatUtils.ts], taken to return
    for every value, and the text of a number in a template literal. *)
Variable Response : Type -> Type.
Variable formatSuccessResponse : forall A, A -> Response A.
Variable number_toString : Z -> jsstring.

Definition getBackup (backupId : jsstring) : T (Response BackupView) :=
  if negb (truthy backupId)
  then reject (mkError INVALID_OPERATION (str "Backup ID is required") None)
  else
    rethrow (str "Error getting backup: ")
      (then_ (call (getBackupById backupId)) (fun backup =>
       match backup with
       | None =>
           reject (mkError OBJECT_NOT_FOUND
                     (str "Backup '" ++ backupId ++ str "' not found") None)
       | Some backup =>
           then_ (call (getBackupContent backupId)) (fun content =>
           if negb (truthy_opt content)
           then reject (mkError BACKUP_FAILED
                          (str "Could not read backup content for '"
                           ++ backupId ++ str "'") None)
           else
             resolve
               (formatSuccessResponse _
                  (mkView (BackupEntry.id backup)
                     (BackupEntry.timestamp backup)
                     (BackupEntry.operation backup)
                     (BackupEntry.object_name backup)
                     (BackupEntry.object_type backup)
                     (BackupEntry.schema_name backup)
                     (BackupEntry.database backup)
                     (BackupEntry.backup_file backup)
                     (extractDefinitionFromBackup (default [] content)))))
       end)).

(** [cleanupBackups]; [days] left out is [None], [confirm] left out is
    [false]. *)
Definition cleanupBackups (days : option Z) (confirm : bool)
    : T (Response CleanupReport) :=
  if negb confirm
  then reject (mkError CONFIRM_REQUIRED
                 (str "This operation requires confirmation. Set confirm=true to proceed.")
                 (Some (str "This will permanently delete old backup files")))
  else
    rethrow_all (str "Error cleaning up backups: ")
      (then_ (call getBackupConfig) (fun config =>
       let cleanupDays :=
         match days with
         | Some d => if (d =? 0)%Z then BackupConfig.cleanup_days config else d
         | None => BackupConfig.cleanup_days config
         end in
       then_ (call (cleanupByAge cleanupDays)) (fun removedCount =>
       resolve
         (formatSuccessResponse _
            (mkReport true
               (str "Cleaned up " ++ number_toString (Z.of_nat removedCount)
                ++ str " backups older than " ++ number_toString cleanupDays
                ++ str " days")
               removedCount))))).

End Tools.
End Tools.

(** ** More stores for closed examples *)

Module MoreExamples.
Import JS Store Backup BackupSpec Examples.

(** The scenario store with a cap of 0. *)
Definition zero_cap_store : World :=
  store (config_with true 0) scenario_files [] scenario_log.

(** The world [w] in which the log cannot be written. *)
Definition log_locked (w : World) : World :=
  mkWorld (config w) (projectRoot w) (files w) (logFile w) (clock w)
    (ticks w) (random w) (draws w) (mkdir_fails w)
    (fun p => if bool_decide (p = log_path w)
              then Some (str "EACCES: permission denied")
              else None)
    (read_fails w) (unlink_fails w).

Definition locked_store : World := log_locked scenario_store.

(** A store without eviction that holds a backup of "usp_x" under the
    file name that a backup made at noon of 6 May 2024 gets. *)
Definition taken_name : jsstring :=
  str "procedures/usp_x_20240506_120000.sql".

Definition taken_entry : BackupEntry.t :=
  BackupEntry.mk (str "b0") (str "2024-05-06T12:00:00.000Z") ALTER
    (str "PROCEDURE") (str "usp_x") (str "dbo") (str "db") taken_name
    (str "sha256:0") true None.

Definition taken_store : World :=
  store (BackupConfig.mk true (str ".sql_backups") 50 false 30)
    [(str "/srv/.sql_backups/" ++ taken_name, str "SELECT 0")] []
    [taken_entry].

(** The result of a backup of "usp_x" made in the stores of the
    examples. *)
Definition sample_result : BackupResult.t :=
  BackupResult.mk true (str "Backup created successfully") taken_name
    (str "bkp_1714996800000_k3x9qa").

Definition sample_run (w : World) : Outcome BackupResult.t * World :=
  createBackup (str "usp_x") (str "PROCEDURE") (str "dbo") sample_definition
    ALTER (str "db") w.

(** The scenario store with a cap of two, and a backup of "foo" made
    in it. *)
Definition capped_store : World :=
  store (config_with true 2) scenario_files [] scenario_log.

Definition foo_result : BackupResult.t :=
  BackupResult.mk true (str "Backup created successfully")
    (str "procedures/foo_20240506_120000.sql")
    (str "bkp_1714996800000_k3x9qa").

Definition foo_run (w : World) : Outcome BackupResult.t * World :=
  createBackup (str "foo") (str "PROCEDURE") (str "dbo") sample_definition
    ALTER (str "db") w.

(** The scenario store in which the file of "b2" cannot be deleted. *)
Definition jammed_store : World :=
  store (config_with true 50) scenario_files [path_of "b2"] scenario_log.

(** The world [w] with another log file. *)
Definition with_log (w : World) (l : LogFile) : World :=
  mkWorld (config w) (projectRoot w) (files w) l (clock w) (ticks w)
    (random w) (draws w) (mkdir_fails w) (write_fails w) (read_fails w)
    (unlink_fails w).

(** The messages of V8 for the uses of [log.backups] when the log file
    holds [{}]. *)
Definition no_backups (member : jsstring) : jsstring :=
  if seq_eq member (str "[Symbol.iterator]")
  then str "log.backups is not iterable"
  else str "Cannot read properties of undefined (reading '" ++ member
       ++ str "')".

Definition foreign_store : World :=
  with_log scenario_store (LogForeign no_backups).

(** A backup of January whose timestamp is no date, before one whose
    timestamp is. *)
Definition undated_log : list BackupEntry.t :=
  [ entry "b2" "foo" "last winter";
    entry "b1" "foo" "2024-01-01T00:00:00.000Z" ].

Definition undated_store : World :=
  store (config_with true 50)
    [(path_of "b2", str "SELECT 2"); (path_of "b1", str "SELECT 1")] []
    undated_log.

(** A definition with half of a surrogate pair in it, and a backup of
    it made in the scenario store. *)
Definition torn_definition : jsstring :=
  str "SELECT '" ++ [55357%N] ++ str "'".

Definition torn_run : Outcome BackupResult.t * World :=
  createBackup (str "usp_x") (str "PROCEDURE") (str "dbo") torn_definition
    ALTER (str "db") scenario_store.

(** A content without the closing delimiter, with a statement in it. *)
Definition bare_content : jsstring :=
  str "-- saved by hand" ++ nl ++ str "alter  view dbo.v AS SELECT 1".

End MoreExamples.

(** ** Properties of the string functions *)

Module StringProofs.
Import JS.

Lemma starts_with_app pat rest : starts_with pat (pat ++ rest) = true.
Proof.
  induction pat as [|p pat IH]; [done|].
  cbn. by rewrite N.eqb_refl.
Qed.

Lemma clash_starts_with pat t rest :
  clash pat t = true -> starts_with pat (t ++ rest) = false.
Proof.
  revert t. induction pat as [|p pat IH]; intros [|c t]; cbn; try done.
  destruct (p =? c)%N; cbn; [|done]. apply IH.
Qed.

Lemma includes_false_drop s pat k :
  includes s pat = false -> starts_with pat (drop k s) = false.
Proof.
  revert k. induction s as [|c s IH]; intros k Hnone.
  - rewrite drop_nil. cbn in Hnone. by apply orb_false_elim in Hnone as [? _].
  - cbn [includes] in Hnone. apply orb_false_elim in Hnone as [Hhere Hrest].
    destruct k as [|k]; [done|]. cbn [drop]. by apply IH.
Qed.

Lemma lastIndexOf_from_None s pat i :
  (forall k, k <= length s -> starts_with pat (drop k s) = false) ->
  lastIndexOf_from s pat i = None.
Proof.
  revert i. induction s as [|c s IH]; intros i Hnone;
    pose proof (Hnone 0 ltac:(lia)) as Hhere; rewrite drop_0 in Hhere.
  - cbn. by rewrite Hhere.
  - cbn [lastIndexOf_from]. rewrite IH.
    + by rewrite Hhere.
    + intros k Hk. apply (Hnone (S k)). cbn. lia.
Qed.

Lemma lastIndexOf_from_here s pat i :
  starts_with pat s = true ->
  (forall k, 1 <= k <= length s -> starts_with pat (drop k s) = false) ->
  lastIndexOf_from s pat i = Some i.
Proof.
  intros Hhere Hlater. destruct s as [|c s].
  - cbn. by rewrite Hhere.
  - cbn [lastIndexOf_from]. rewrite lastIndexOf_from_None.
    + by rewrite Hhere.
    + intros k Hk. apply (Hlater (S k)). cbn. lia.
Qed.

Lemma lastIndexOf_from_app pre s pat i k :
  lastIndexOf_from s pat (i + length pre) = Some k ->
  lastIndexOf_from (pre ++ s) pat i = Some k.
Proof.
  revert i. induction pre as [|c pre IH]; intros i Hs.
  - cbn in *. by rewrite Nat.add_0_r in Hs.
  - cbn [app lastIndexOf_from]. rewrite (IH (S i)); [done|].
    rewrite <- Hs. f_equal. cbn. lia.
Qed.

(** The last occurrence of [pat] in [pre ++ pat ++ rest] is the one
    shown, when [pat] does not start again after it. *)
Lemma lastIndexOf_marker pre pat rest :
  (forall k, 1 <= k <= length (pat ++ rest) ->
             starts_with pat (drop k (pat ++ rest)) = false) ->
  lastIndexOf (pre ++ pat ++ rest) pat = Some (length pre).
Proof.
  intros Hlater. unfold lastIndexOf.
  apply lastIndexOf_from_app. cbn.
  apply lastIndexOf_from_here; [apply starts_with_app | done].
Qed.

(** *** Texts as UTF-8 holds them *)

Lemma high_not_low c : is_high_surrogate c = true -> is_low_surrogate c = false.
Proof.
  unfold is_high_surrogate, is_low_surrogate.
  intros [_ H]%andb_prop. apply N.leb_le in H.
  apply andb_false_iff. left. apply N.leb_gt. lia.
Qed.

Lemma low_not_high c : is_low_surrogate c = true -> is_high_surrogate c = false.
Proof.
  intros Hlow. destruct (is_high_surrogate c) eqn:Hhigh; [|done].
  apply high_not_low in Hhigh. congruence.
Qed.

(** A unit that is not a low surrogate is treated the same whatever
    comes before it. *)
Lemma well_formed_from_head p q s :
  match s with
  | c :: _ => is_low_surrogate c = true ->
              is_high_surrogate p = is_high_surrogate q
  | [] => True
  end ->
  well_formed_from p s = well_formed_from q s.
Proof.
  destruct s as [|c s]; [done|]. intros Hhead.
  cbn [well_formed_from]. f_equal. unfold well_formed_unit.
  destruct (is_high_surrogate c); [done|].
  destruct (is_low_surrogate c); [|done]. by rewrite Hhead.
Qed.

(** A text in two parts is made well formed part by part when no
    surrogate pair lies across the two: here the second part does not
    start with a low surrogate. *)
Lemma well_formed_from_app_head a b : forall p,
  match b with c :: _ => is_low_surrogate c = false | [] => True end ->
  well_formed_from p (a ++ b) = well_formed_from p a ++ well_formed_from 0 b.
Proof.
  induction a as [|c a IH]; intros p Hb.
  - cbn [app]. apply well_formed_from_head.
    destruct b as [|d b]; [done|]. congruence.
  - cbn [app well_formed_from]. rewrite IH by done. f_equal.
    unfold well_formed_unit.
    destruct a as [|c' a]; [|done]. cbn [app].
    destruct b as [|d b]; [done|]. by rewrite Hb.
Qed.

(** Here the first part does not end with a high surrogate. *)
Lemma well_formed_from_app_last a c b : forall p,
  is_high_surrogate c = false ->
  well_formed_from p ((a ++ [c]) ++ b)
  = well_formed_from p (a ++ [c]) ++ well_formed_from 0 b.
Proof.
  intros p Hc. revert p.
  induction a as [|x a IH]; intros p.
  - cbn [app well_formed_from]. f_equal.
    + unfold well_formed_unit. by rewrite Hc.
    + apply well_formed_from_head. destruct b as [|d b]; [done|].
      intros _. rewrite Hc. reflexivity.
  - cbn [app well_formed_from]. rewrite IH. f_equal.
    unfold well_formed_unit. by destruct a.
Qed.

(** A text without surrogates is well formed. *)
Lemma well_formed_from_plain s : forall p,
  forallb plain s = true -> well_formed_from p s = s.
Proof.
  induction s as [|c s IH]; intros p Hs; [done|].
  cbn [forallb] in Hs. apply andb_prop in Hs as [Hc Hs].
  cbn [well_formed_from]. rewrite IH by done. f_equal.
  unfold plain in Hc.
  apply andb_prop in Hc as [[Hhigh Hlow]%andb_prop _].
  unfold well_formed_unit.
  apply negb_true_iff in Hhigh, Hlow. by rewrite Hhigh, Hlow.
Qed.

(** Making a text well formed a second time changes nothing. *)
Lemma well_formed_from_twice s : forall p p',
  match s with
  | c :: _ => is_low_surrogate c = true ->
              is_high_surrogate p' = is_high_surrogate p
  | [] => True
  end ->
  well_formed_from p' (well_formed_from p s) = well_formed_from p s.
Proof.
  assert (forall q rest, well_formed_unit q 65533 rest = 65533%N)
    as Hrep by done.
  induction s as [|c s IH]; intros p p' Hp; [done|].
  cbn [well_formed_from]. f_equal.
  - destruct (is_high_surrogate c) eqn:Hhigh.
    + destruct s as [|d s].
      * assert (well_formed_unit p c [] = 65533%N) as ->
          by (unfold well_formed_unit; by rewrite Hhigh).
        apply Hrep.
      * destruct (is_low_surrogate d) eqn:Hlow.
        -- assert (well_formed_unit p c (d :: s) = c) as ->
             by (unfold well_formed_unit; by rewrite Hhigh, Hlow).
           cbn [well_formed_from].
           assert (well_formed_unit c d s = d) as ->
             by (unfold well_formed_unit;
                 by rewrite (low_not_high d Hlow), Hlow, Hhigh).
           unfold well_formed_unit. by rewrite Hhigh, Hlow.
        -- assert (well_formed_unit p c (d :: s) = 65533%N) as ->
             by (unfold well_formed_unit; by rewrite Hhigh, Hlow).
           apply Hrep.
    + destruct (is_low_surrogate c) eqn:Hlow.
      * destruct (is_high_surrogate p) eqn:Hprev.
        -- assert (well_formed_unit p c s = c) as ->
             by (unfold well_formed_unit; by rewrite Hhigh, Hlow, Hprev).
           unfold well_formed_unit. by rewrite Hhigh, Hlow, Hp.
        -- assert (well_formed_unit p c s = 65533%N) as ->
             by (unfold well_formed_unit; by rewrite Hhigh, Hlow, Hprev).
           apply Hrep.
      * assert (well_formed_unit p c s = c) as ->
          by (unfold well_formed_unit; by rewrite Hhigh, Hlow).
        unfold well_formed_unit. by rewrite Hhigh, Hlow.
  - apply IH. destruct s as [|d s]; [done|]. intros Hlow.
    unfold well_formed_unit. rewrite Hlow.
    destruct (is_high_surrogate c) eqn:Hhigh; [done|].
    destruct (is_low_surrogate c); [|done].
    by destruct (is_high_surrogate p).
Qed.

Lemma toWellFormed_twice s : toWellFormed (toWellFormed s) = toWellFormed s.
Proof.
  unfold toWellFormed. apply well_formed_from_twice. by destruct s.
Qed.

Lemma well_formed_from_length s : forall p,
  length (well_formed_from p s) = length s.
Proof. induction s as [|c s IH]; intros p; [done|]. cbn. by rewrite IH. Qed.

(** A pattern without surrogates is found in the well-formed text where
    it is found in the text. *)
Lemma starts_with_well_formed pat : forall s p,
  forallb plain pat = true ->
  starts_with pat (well_formed_from p s) = starts_with pat s.
Proof.
  induction pat as [|a pat IH]; intros s p Hpat; [done|].
  cbn [forallb] in Hpat. apply andb_prop in Hpat as [Ha Hpat].
  destruct s as [|c s]; [done|].
  cbn [well_formed_from starts_with]. rewrite IH by done. f_equal.
  unfold plain in Ha.
  apply andb_prop in Ha as [[Hhigh Hlow]%andb_prop Hrep].
  apply negb_true_iff in Hhigh, Hlow, Hrep.
  assert (forall x, (x = c \/ x = 65533%N) ->
                    (is_high_surrogate c = true \/ is_low_surrogate c = true
                     \/ x = c) ->
                    (a =? x)%N = (a =? c)%N) as Hsame.
  { intros x [-> | ->] Hc; [done|].
    rewrite Hrep. symmetry. apply N.eqb_neq. intros ->.
    destruct Hc as [Hc|[Hc|Hc]]; [congruence..|].
    subst c. by rewrite N.eqb_refl in Hrep. }
  apply Hsame; unfold well_formed_unit.
  - destruct (is_high_surrogate c).
    + destruct s as [|d s]; [by right|]. destruct (is_low_surrogate d); auto.
    + destruct (is_low_surrogate c); [|by left].
      destruct (is_high_surrogate p); auto.
  - destruct (is_high_surrogate c); [by left|].
    destruct (is_low_surrogate c); auto.
Qed.

Lemma includes_well_formed pat s : forall p,
  forallb plain pat = true ->
  includes (well_formed_from p s) pat = includes s pat.
Proof.
  induction s as [|c s IH]; intros p Hpat.
  - cbn. by destruct pat.
  - cbn [includes well_formed_from]. rewrite IH by done.
    f_equal. apply (starts_with_well_formed pat (c :: s) p Hpat).
Qed.

End StringProofs.

(** ** Properties of the diff engine *)

Module DiffProofs.
Import JS Diff DiffSpec.

(** *** Loops over a range *)

Lemma foldl_seq_invariant {St : Type} (f : St -> nat -> St)
    (Inv : nat -> St -> Prop) (k a : nat) (s : St) :
  Inv a s ->
  (forall x s', a <= x < a + k -> Inv x s' -> Inv (x + 1) (f s' x)) ->
  Inv (a + k) (foldl f s (seq a k)).
Proof.
  revert a s. induction k as [|k IH]; intros a s Ha Hstep; simpl.
  - by rewrite Nat.add_0_r.
  - replace (a + S k) with (S a + k) by lia.
    apply IH.
    + replace (S a) with (a + 1) by lia. apply Hstep; [lia | done].
    + intros x s' Hx. apply Hstep. lia.
Qed.

(** *** Reading and writing the table *)

Lemma shape_set2 m n dp i j v : shape m n dp -> shape m n (set2 dp i j v).
Proof.
  intros [Hlen Hrows]. unfold set2.
  destruct (dp !! i) as [row|] eqn:Hrow; [|done].
  split.
  - by rewrite length_insert.
  - apply Forall_insert; [done|].
    rewrite length_insert.
    by eapply (Forall_lookup_1 _ _ _ _ Hrows).
Qed.

Lemma get2_set2_eq m n dp i j v :
  shape m n dp -> i <= m -> j <= n -> get2 (set2 dp i j v) i j = v.
Proof.
  intros [Hlen Hrows] Hi Hj. unfold set2, get2.
  destruct (dp !! i) as [row|] eqn:Hrow.
  - rewrite list_lookup_insert_eq; [|apply lookup_lt_Some in Hrow; lia].
    simpl. rewrite list_lookup_insert_eq; [done|].
    rewrite (Forall_lookup_1 _ _ _ _ Hrows Hrow). lia.
  - apply lookup_ge_None in Hrow. lia.
Qed.

Lemma get2_set2_ne dp i j v r c :
  (r, c) <> (i, j) -> get2 (set2 dp i j v) r c = get2 dp r c.
Proof.
  intros Hne. unfold set2, get2.
  destruct (dp !! i) as [row|] eqn:Hrow; [|done].
  destruct (decide (r = i)) as [->|Hr].
  - rewrite list_lookup_insert_eq; [|by apply lookup_lt_Some in Hrow].
    rewrite Hrow. simpl.
    rewrite list_lookup_insert_ne; [done|]. congruence.
  - by rewrite list_lookup_insert_ne.
Qed.

Lemma shape_zero m n : shape m n (replicate (m + 1) (replicate (n + 1) 0)).
Proof.
  split.
  - by rewrite length_replicate.
  - apply Forall_replicate. by rewrite length_replicate.
Qed.

Lemma get2_zero m n r c : get2 (replicate m (replicate n 0)) r c = 0.
Proof.
  unfold get2.
  destruct (replicate m (replicate n 0) !! r) as [row|] eqn:Hrow; [|done].
  apply lookup_replicate in Hrow as [-> _]. simpl.
  destruct (replicate n 0 !! c) as [x|] eqn:Hx; [|done].
  by apply lookup_replicate in Hx as [-> _].
Qed.

(** *** The table holds the lengths of the longest common subsequences *)

Section Table.
Variables oldLines newLines : list jsstring.
Let m := length oldLines.
Let n := length newLines.
Let L := lcs_length oldLines newLines.

Lemma lcs_length_row_0 i : L i 0 = 0.
Proof. subst L. by destruct i. Qed.

Lemma lcs_length_step i j :
  L (S i) (S j) =
  if same_line oldLines newLines i j then L i j + 1
  else Nat.max (L i (S j)) (L (S i) j).
Proof. done. Qed.

Let filled := filled oldLines newLines.

Lemma filled_cell dp i j :
  1 <= i <= m -> 1 <= j <= n ->
  filled i (j - 1) dp -> filled i j (lcs_cell oldLines newLines dp i j).
Proof.
  intros Hi Hj [Hshape Hcells].
  assert (Hdiag : get2 dp (i - 1) (j - 1) = L (i - 1) (j - 1)).
  { rewrite Hcells by lia. rewrite decide_True; [done | lia]. }
  assert (Hup : get2 dp (i - 1) j = L (i - 1) j).
  { rewrite Hcells by lia. rewrite decide_True; [done | lia]. }
  assert (Hleft : get2 dp i (j - 1) = L i (j - 1)).
  { rewrite Hcells by lia. rewrite decide_True; [done | lia]. }
  assert (Hnew : forall v, v = L i j ->
            filled i j (set2 dp i j v)).
  { intros v ->. split; [by apply shape_set2|].
    intros r c Hr Hc.
    destruct (decide ((r, c) = (i, j))) as [Heq|Hne].
    - inversion Heq; subst r c.
      rewrite (get2_set2_eq m n) by done.
      rewrite decide_True; [done | lia].
    - rewrite get2_set2_ne by done. rewrite Hcells by done.
      assert (r <> i \/ c <> j) as Hor.
      { destruct (decide (r = i)); [right|left]; congruence. }
      repeat case_decide; try done; lia. }
  unfold lcs_cell.
  destruct i as [|i]; [lia|]. destruct j as [|j]; [lia|].
  replace (S i - 1) with i in * by lia. replace (S j - 1) with j in * by lia.
  destruct (same_line oldLines newLines i j) eqn:Hsame;
    apply Hnew; rewrite lcs_length_step, Hsame; congruence.
Qed.

Lemma filled_row dp i :
  1 <= i <= m ->
  filled (i - 1) n dp ->
  filled i n (foldl (fun dp j => lcs_cell oldLines newLines dp i j) dp (seq 1 n)).
Proof.
  intros Hi [Hshape Hcells].
  pose (Inv := fun j dp => filled i (j - 1) dp).
  assert (Inv (1 + n)
            (foldl (fun dp j => lcs_cell oldLines newLines dp i j) dp (seq 1 n)))
    as Hend.
  { apply foldl_seq_invariant.
    - split; [done|]. intros r c Hr Hc. rewrite Hcells by done.
      repeat case_decide; try done; try lia.
      assert (r = i /\ c = 0) as [-> ->] by lia.
      by rewrite lcs_length_row_0.
    - intros j dp' Hj Hinv. unfold Inv in *.
      replace (j + 1 - 1) with j by lia.
      apply filled_cell; [done | lia | done]. }
  unfold Inv in Hend. by replace (1 + n - 1) with n in Hend by lia.
Qed.

Lemma filled_lcs : filled m n (lcs oldLines newLines).
Proof.
  unfold lcs. fold m n.
  pose (Inv := fun i dp => filled (i - 1) n dp).
  assert (Inv (1 + m)
    (foldl (fun dp i =>
              foldl (fun dp j => lcs_cell oldLines newLines dp i j) dp (seq 1 n))
       (replicate (m + 1) (replicate (n + 1) 0)) (seq 1 m))) as Hend.
  { apply foldl_seq_invariant.
    - split; [apply shape_zero|].
      intros r c Hr Hc. rewrite get2_zero.
      case_decide as Hd; [|done].
      assert (r = 0) as -> by lia. done.
    - intros i dp' Hi Hinv. unfold Inv in *.
      replace (i + 1 - 1) with i by lia.
      apply filled_row; [lia | done]. }
  unfold Inv in Hend. by replace (1 + m - 1) with m in Hend by lia.
Qed.

Lemma lcs_table i j :
  i <= m -> j <= n -> get2 (lcs oldLines newLines) i j = L i j.
Proof.
  intros Hi Hj. destruct filled_lcs as [_ Hcells].
  rewrite Hcells by done. rewrite decide_True; [done | lia].
Qed.

(** *** The backtracking loop *)

Lemma backtrack_loop_step fuel dp i j acc :
  0 < i + j ->
  backtrack_loop (S fuel) dp oldLines newLines i j acc =
  if (0 <? i) && (0 <? j) && same_line oldLines newLines (i - 1) (j - 1)
  then backtrack_loop fuel dp oldLines newLines (i - 1) (j - 1)
         (acc ++ [mkDiffLine unchanged (Some i) (Some j)
                    (default [] (oldLines !! (i - 1)))])
  else if (0 <? j) && ((i =? 0) || (get2 dp (i - 1) j <=? get2 dp i (j - 1)))
  then backtrack_loop fuel dp oldLines newLines i (j - 1)
         (acc ++ [mkDiffLine added None (Some j)
                    (default [] (newLines !! (j - 1)))])
  else if 0 <? i
  then backtrack_loop fuel dp oldLines newLines (i - 1) j
         (acc ++ [mkDiffLine removed (Some i) None
                    (default [] (oldLines !! (i - 1)))])
  else backtrack_loop fuel dp oldLines newLines i j acc.
Proof.
  intros Hpos. cbn [backtrack_loop].
  destruct i, j; try lia; reflexivity.
Qed.

(** From [(i, j)] the loop ends within [i + j] turns, and the lines it
    adds are counted by the table. *)
Lemma backtrack_loop_counts fuel i j acc :
  i <= m -> j <= n -> i + j <= fuel ->
  exists path,
    backtrack_loop fuel (lcs oldLines newLines) oldLines newLines i j acc
      = Some (acc ++ path) /\
    count_type unchanged path = L i j /\
    count_type unchanged path + count_type added path = j /\
    count_type unchanged path + count_type removed path = i.
Proof.
  revert i j acc. induction fuel as [|fuel IH]; intros i j acc Hi Hj Hfuel.
  - assert (i = 0 /\ j = 0) as [-> ->] by lia.
    exists []. simpl. by rewrite app_nil_r.
  - destruct i as [|i], j as [|j].
    + exists []. simpl. by rewrite app_nil_r.
    + destruct (IH 0 j (acc ++ [mkDiffLine added None (Some (S j))
                  (default [] (newLines !! j))])) as (path & Hrun & Hu & Ha & Hr);
        [lia..|].
      eexists (_ :: path). rewrite backtrack_loop_step by lia.
      rewrite !Nat.sub_succ, !Nat.sub_0_r. cbn [Nat.ltb Nat.leb andb Nat.eqb orb].
      rewrite Hrun, <- app_assoc. split; [done|].
      unfold count_type in *. simpl. subst L. simpl in *. lia.
    + destruct (IH i 0 (acc ++ [mkDiffLine removed (Some (S i)) None
                  (default [] (oldLines !! i))])) as (path & Hrun & Hu & Ha & Hr);
        [lia..|].
      eexists (_ :: path). rewrite backtrack_loop_step by lia.
      rewrite !Nat.sub_succ, !Nat.sub_0_r. cbn [Nat.ltb Nat.leb andb Nat.eqb orb].
      rewrite Hrun, <- app_assoc. split; [done|].
      unfold count_type in *. simpl.
      rewrite lcs_length_row_0 in *. lia.
    + rewrite backtrack_loop_step by lia.
      rewrite !Nat.sub_succ, !Nat.sub_0_r. cbn [Nat.ltb Nat.leb andb Nat.eqb orb].
      rewrite lcs_length_step.
      destruct (same_line oldLines newLines i j) eqn:Hsame.
      * destruct (IH i j (acc ++ [mkDiffLine unchanged (Some (S i)) (Some (S j))
                  (default [] (oldLines !! i))])) as (path & Hrun & Hu & Ha & Hr);
          [lia..|].
        eexists (_ :: path). rewrite Hrun, <- app_assoc. split; [done|].
        unfold count_type in *. simpl. lia.
      * rewrite !lcs_table by lia. fold L.
        destruct (L i (S j) <=? L (S i) j) eqn:Hle.
        -- apply Nat.leb_le in Hle.
           destruct (IH (S i) j (acc ++ [mkDiffLine added None (Some (S j))
                  (default [] (newLines !! j))])) as (path & Hrun & Hu & Ha & Hr);
             [lia..|].
           eexists (_ :: path). rewrite Hrun, <- app_assoc. split; [done|].
           unfold count_type in *. simpl. lia.
        -- apply Nat.leb_gt in Hle.
           destruct (IH i (S j) (acc ++ [mkDiffLine removed (Some (S i)) None
                  (default [] (oldLines !! i))])) as (path & Hrun & Hu & Ha & Hr);
             [lia..|].
           eexists (_ :: path). rewrite Hrun, <- app_assoc. split; [done|].
           unfold count_type in *. simpl. lia.
Qed.

End Table.

(** The table of the lengths is the same when the two texts are swapped. *)
Lemma same_line_sym a b i j : same_line a b i j = same_line b a j i.
Proof. unfold same_line. apply bool_decide_ext. split; congruence. Qed.

Lemma lcs_length_sym a b i j : lcs_length a b i j = lcs_length b a j i.
Proof.
  revert j. induction i as [|i IHi]; intros j.
  - by destruct j.
  - induction j as [|j IHj]; [done|].
    rewrite !lcs_length_step. rewrite (same_line_sym a b).
    rewrite IHi, (IHi (S j)), IHj. by rewrite Nat.max_comm.
Qed.

(** *** Rendering *)

Lemma count_type_app t xs ys :
  count_type t (xs ++ ys) = count_type t xs + count_type t ys.
Proof. unfold count_type. by rewrite List.filter_app, length_app. Qed.

Lemma count_type_reverse t xs : count_type t (reverse xs) = count_type t xs.
Proof.
  induction xs as [|x xs IH]; [done|].
  rewrite reverse_cons, count_type_app, IH.
  change (x :: xs) with ([x] ++ xs). rewrite count_type_app. lia.
Qed.

Lemma render_counts ls a r out :
  exists out',
    foldl render_line (a, r, out) ls =
    (a + count_type added ls, r + count_type removed ls, out').
Proof.
  revert a r out. induction ls as [|l ls IH]; intros a r out.
  - exists out. simpl. f_equal. f_equal; unfold count_type; simpl; lia.
  - simpl. destruct l as [[] lo ln c]; simpl;
      edestruct IH as [out' ->]; exists out';
      unfold count_type; simpl; f_equal; f_equal; lia.
Qed.

Lemma generateDiff_same_text (T : jsstring) :
  generateDiff T T = Some (mkDiffOut (str "(No changes)") 0 0 true).
Proof.
  unfold generateDiff, seq_eq. by rewrite bool_decide_true.
Qed.

(** [generateDiff] always returns, and off the short cut its counts are
    the two lengths less the length of a longest common subsequence. *)
Lemma generateDiff_counts oldText newText :
  oldText <> newText ->
  exists d,
    generateDiff oldText newText = Some d /\
    lines_added d + lcs_length (split_nl oldText) (split_nl newText)
                      (length (split_nl oldText)) (length (split_nl newText))
      = length (split_nl newText) /\
    lines_removed d + lcs_length (split_nl oldText) (split_nl newText)
                        (length (split_nl oldText)) (length (split_nl newText))
      = length (split_nl oldText).
Proof.
  intros Hne. unfold generateDiff, seq_eq.
  rewrite bool_decide_false by done.
  unfold backtrack.
  destruct (backtrack_loop_counts (split_nl oldText) (split_nl newText)
              (length (split_nl oldText) + length (split_nl newText))
              (length (split_nl oldText)) (length (split_nl newText)) [])
    as (path & -> & Hu & Ha & Hr); [lia..|].
  rewrite app_nil_l. cbn [fmap option_fmap option_map mbind option_bind].
  destruct (render_counts (reverse path) 0 0
              [str "--- old"; str "+++ new"; []]) as [out' Hout].
  rewrite Hout. eexists. split; [done|]. simpl.
  rewrite !count_type_reverse. lia.
Qed.

Lemma generateDiff_total (A B : jsstring) :
  exists d, generateDiff A B = Some d.
Proof.
  destruct (decide (A = B)) as [->|Hne].
  - eexists. apply generateDiff_same_text.
  - destruct (generateDiff_counts A B Hne) as (d & Hd & _). eauto.
Qed.

(** C8: a text compared with itself takes the short cut before the table
    is built: the result is the fixed record with the text "(No changes)",
    no line added, no line removed, and [is_identical] set. *)
Theorem generateDiff_identical (T : jsstring) :
  generateDiff T T = Some (mkDiffOut (str "(No changes)") 0 0 true).
Proof.
  unfold generateDiff, seq_eq. by rewrite bool_decide_true.
Qed.

(** C3: [generateDiff] returns in both directions, and the lines added from
    A to B are as many as the lines removed from B to A, and the lines
    removed from A to B as many as the lines added from B to A. *)
Theorem generateDiff_swap (A B : jsstring) :
  exists dAB dBA,
    generateDiff A B = Some dAB /\
    generateDiff B A = Some dBA /\
    lines_added dAB = lines_removed dBA /\
    lines_removed dAB = lines_added dBA.
Proof.
  destruct (decide (A = B)) as [->|Hne].
  - exists (mkDiffOut (str "(No changes)") 0 0 true),
           (mkDiffOut (str "(No changes)") 0 0 true).
    by rewrite generateDiff_same_text.
  - destruct (generateDiff_counts A B Hne) as (dAB & HAB & Ha & Hr).
    destruct (generateDiff_counts B A) as (dBA & HBA & Ha' & Hr');
      [congruence|].
    exists dAB, dBA. repeat split; [done..| |].
    + rewrite lcs_length_sym in Hr'. lia.
    + rewrite lcs_length_sym in Ha'. lia.
Qed.

Example scenario_one_line_changed :
  generateDiff (join_nl [str "line1"; str "line2"; str "line3"])
               (join_nl [str "line1"; str "lineX"; str "line3"])
  = Some (mkDiffOut
            (join_nl [str "--- old"; str "+++ new"; [];
                      str "  line1"; str "- line2"; str "+ lineX";
                      str "  line3"])
            1 1 false).
Proof. vm_compute. reflexivity. Qed.

End DiffProofs.

(** ** Properties of the backup manager *)

Module BackupProofs.
Import JS Store Backup BackupSpec.
Local Open Scope js_scope.

Lemma generateDiff_total_any (A : jsstring) :
  forall B, exists d, Diff.generateDiff A B = Some d.
Proof. intros B. apply DiffProofs.generateDiff_total. Qed.

Section Proofs.
Context {P : Platform}.

(** *** Reading the clock changes nothing else *)

Lemma later_refl w : later w w.
Proof. exists (ticks w). by destruct w. Qed.

Lemma later_trans w1 w2 w3 : later w1 w2 -> later w2 w3 -> later w1 w3.
Proof. intros [n ->] [k ->]. by exists k. Qed.

Lemma later_tick w : later w (set_ticks w (S (ticks w))).
Proof. by eexists. Qed.

Lemma later_log_of w w' : later w w' -> log_of w' = log_of w.
Proof. by intros [n ->]. Qed.

Lemma later_entry_of w w' backupId :
  later w w' -> entry_of w' backupId = entry_of w backupId.
Proof. by intros [n ->]. Qed.

Lemma later_content_of w w' backupId :
  later w w' -> content_of w' backupId = content_of w backupId.
Proof. by intros [n ->]. Qed.

Lemma later_log_typed w w' : later w w' -> log_typed w -> log_typed w'.
Proof. by intros [n ->]. Qed.

Create HintDb store.
#[local] Hint Resolve later_refl later_tick : store.

(** *** Running the monad *)

Ltac world_simpl :=
  cbn [config projectRoot files logFile clock ticks random draws mkdir_fails
       write_fails read_fails unlink_fails set_files set_ticks set_draws
       set_logFile].


Lemma bind_Ok {A B} (m : M A) (k : A -> M B) w a w' :
  m w = (Ok a, w') -> bind m k w = k a w'.
Proof. unfold bind. by intros ->. Qed.

Lemma bind_Throw {A B} (m : M A) (k : A -> M B) w e w' :
  m w = (Throw e, w') -> bind m k w = (Throw e, w').
Proof. unfold bind. by intros ->. Qed.

Lemma getBackupDir_run w : getBackupDir w = (Ok (backup_dir w), w).
Proof. done. Qed.

Lemma getBackupLogPath_run w : getBackupLogPath w = (Ok (log_path w), w).
Proof. done. Qed.

Lemma saveBackupLog_run log w :
  write_fails w (log_path w) = None ->
  saveBackupLog log w =
  (Ok tt,
   set_logFile (set_ticks w (S (ticks w)))
     (LogStored (BackupLog.set_updated_at log
                   (toISOString (clock w (ticks w)))))).
Proof.
  intros Hwrite. unfold saveBackupLog.
  rewrite (bind_Ok _ _ _ _ _ (getBackupLogPath_run w)).
  unfold bind, new_Date. world_simpl. by rewrite Hwrite.
Qed.

Lemma saveBackupLog_throw log w e :
  write_fails w (log_path w) = Some e ->
  saveBackupLog log w = (Throw e, set_ticks w (S (ticks w))).
Proof.
  intros Hwrite. unfold saveBackupLog.
  rewrite (bind_Ok _ _ _ _ _ (getBackupLogPath_run w)).
  unfold bind, new_Date. world_simpl. by rewrite Hwrite.
Qed.

(** When the log file holds a backup log or none, [loadBackupLog]
    returns the entries on disk and at most reads the clock; from other
    JSON it returns what it holds. *)
Lemma loadBackupLog_run w :
  log_typed w ->
  exists log w',
    loadBackupLog w = (Ok (Typed log), w') /\ later w w' /\
    BackupLog.backups log = log_of w.
Proof.
  unfold loadBackupLog, log_of, log_typed.
  destruct (logFile w) eqn:Hlog; [| | |done]; intros _;
    (eexists _, _; split; [reflexivity|]; split; [|done]).
  - eexists. reflexivity.
  - eexists. reflexivity.
  - auto with store.
Qed.

(** A property by the cases of the log file. *)
Lemma log_cases w (Q : Prop) (R : (jsstring -> jsstring) -> Prop) :
  (log_typed w -> Q) ->
  (forall type_error, logFile w = LogForeign type_error -> R type_error) ->
  match logFile w with
  | LogForeign type_error => R type_error
  | _ => Q
  end.
Proof.
  unfold log_typed. intros Htyped Hforeign.
  destruct (logFile w); [by apply Htyped..|by apply Hforeign].
Qed.

Lemma foreign_log_of w type_error :
  logFile w = LogForeign type_error -> log_of w = [].
Proof. unfold log_of. by intros ->. Qed.

Lemma entry_of_typed w backupId b :
  entry_of w backupId = Some b -> log_typed w.
Proof.
  unfold entry_of, log_of, log_typed. by destruct (logFile w).
Qed.

Lemma typed_or_foreign w :
  log_typed w \/ exists type_error, logFile w = LogForeign type_error.
Proof. unfold log_typed. destruct (logFile w); eauto. Qed.

Lemma loadBackupLog_foreign w type_error :
  logFile w = LogForeign type_error ->
  loadBackupLog w = (Ok (Untyped type_error), w).
Proof. unfold loadBackupLog. by intros ->. Qed.

Lemma getBackupById_run w backupId :
  log_typed w ->
  exists w',
    getBackupById backupId w = (Ok (entry_of w backupId), w') /\ later w w'.
Proof.
  intros Htyped.
  destruct (loadBackupLog_run w Htyped) as (log & w' & Hload & Hlater & Hlog).
  exists w'. split; [|done].
  unfold getBackupById. rewrite (bind_Ok _ _ _ _ _ Hload).
  unfold as_log, bind, ret, entry_of. by rewrite Hlog.
Qed.

Lemma getBackupById_foreign w backupId type_error :
  logFile w = LogForeign type_error ->
  getBackupById backupId w = (Throw (type_error (str "find")), w).
Proof.
  intros Hlog. unfold getBackupById.
  by rewrite (bind_Ok _ _ _ _ _ (loadBackupLog_foreign _ _ Hlog)).
Qed.

Lemma getBackupContent_foreign w backupId type_error :
  logFile w = LogForeign type_error ->
  getBackupContent backupId w = (Throw (type_error (str "find")), w).
Proof.
  intros Hlog. unfold getBackupContent.
  by rewrite (bind_Throw _ _ _ _ _ (getBackupById_foreign _ backupId _ Hlog)).
Qed.

Lemma getBackupContent_run w backupId :
  log_typed w ->
  exists w',
    getBackupContent backupId w = (Ok (content_of w backupId), w') /\
    later w w'.
Proof.
  intros Htyped.
  destruct (getBackupById_run w backupId Htyped) as (w' & Hget & Hlater).
  exists w'. split; [|done].
  unfold getBackupContent. rewrite (bind_Ok _ _ _ _ _ Hget).
  unfold content_of.
  destruct (entry_of w backupId) as [b|]; [|done].
  destruct Hlater as [n ->].
  unfold readable_text, file_path, backup_dir. cbn.
  destruct (files w !! _) as [[content|]|] eqn:Hfile; cbn;
    unfold try_catch, bind, readFileSync, ret; cbn;
    try rewrite Hfile; by destruct (read_fails w _).
Qed.

(** *** The header and its removal *)

Lemma headerEndMarker_length : length headerEndMarker = 65.
Proof. reflexivity. Qed.

(** The closing delimiter does not overlap a shifted copy of itself. *)
Lemma headerEndMarker_no_overlap k rest :
  1 <= k < 65 ->
  starts_with headerEndMarker (drop k headerEndMarker ++ rest) = false.
Proof.
  intros Hk. apply StringProofs.clash_starts_with.
  assert (forallb (fun k => clash headerEndMarker (drop k headerEndMarker))
            (seq 1 64) = true) as Hall by (vm_compute; reflexivity).
  rewrite forallb_forall in Hall. apply Hall. apply in_seq. lia.
Qed.

Lemma header_ends_with_marker objectName objectType schemaName timestamp
    operation database :
  exists pre,
    header objectName objectType schemaName timestamp operation database
    = pre ++ headerEndMarker.
Proof.
  eexists (str "/*" ++ nl ++ rule ++ nl ++
           str "BACKUP AUTOM" ++ [193%N] ++ str "TICO - MCP SQL Server" ++ nl ++
           rule ++ nl ++
           str "Objeto:      " ++ objectName ++ nl ++
           str "Tipo:        " ++ objectType ++ nl ++
           str "Schema:      " ++ schemaName ++ nl ++
           str "Fecha:       " ++ timestamp ++ nl ++
           str "Operaci" ++ [243%N] ++ str "n:   " ++ operation ++ nl ++
           str "Base Datos:  " ++ database ++ nl ++
           rule ++ nl ++
           str "PARA RESTAURAR: Ejecute el contenido de este archivo en SSMS"
           ++ nl).
  unfold header, headerEndMarker. by rewrite <- !app_assoc.
Qed.

(** Taking the header off a text that ends its header with the closing
    delimiter gives what follows, if the delimiter is not in it. *)
Lemma extract_after_marker pre definition :
  includes definition headerEndMarker = false ->
  extractDefinitionFromBackup (pre ++ headerEndMarker ++ definition)
  = definition.
Proof.
  intros Hclean. unfold extractDefinitionFromBackup.
  rewrite StringProofs.lastIndexOf_marker.
  - unfold substring_from. by rewrite drop_app_add, drop_app_length.
  - intros k Hk. rewrite length_app, headerEndMarker_length in Hk.
    destruct (decide (k < 65)) as [Hlt|Hge].
    + rewrite drop_app_le by (rewrite headerEndMarker_length; lia).
      apply headerEndMarker_no_overlap. lia.
    + rewrite drop_app_ge by (rewrite headerEndMarker_length; lia).
      by apply StringProofs.includes_false_drop.
Qed.

(** *** The content as the file holds it *)

Lemma headerEndMarker_plain : forallb plain headerEndMarker = true.
Proof. vm_compute. reflexivity. Qed.

(** What UTF-8 keeps of a content: its BOM, its header with the
    delimiter at its end, and what it keeps of the definition. *)
Lemma content_as_stored now objectName objectType schemaName definition
    operation database :
  exists pre,
    toWellFormed (formatBackupContent_at now objectName objectType schemaName
                    definition operation database)
    = UTF8_BOM ++ pre ++ headerEndMarker ++ toWellFormed definition.
Proof.
  unfold formatBackupContent_at.
  destruct (header_ends_with_marker objectName objectType schemaName
              (strip_fraction (replace_first 84 32 (toISOString now)))
              operation database) as [pre ->].
  exists (well_formed_from 65279 pre).
  unfold toWellFormed, UTF8_BOM. cbn [app well_formed_from].
  change (well_formed_unit 0 65279 ((pre ++ headerEndMarker) ++ definition))
    with 65279%N.
  f_equal. rewrite <- app_assoc.
  rewrite StringProofs.well_formed_from_app_head
    by (vm_compute; reflexivity).
  f_equal.
  assert (headerEndMarker = removelast headerEndMarker ++ [10%N]) as Hlast
    by (vm_compute; reflexivity).
  rewrite Hlast at 1.
  rewrite StringProofs.well_formed_from_app_last by reflexivity.
  rewrite <- Hlast.
  by rewrite StringProofs.well_formed_from_plain
    by apply headerEndMarker_plain.
Qed.

Lemma extract_as_stored pre definition :
  includes definition headerEndMarker = false ->
  extractDefinitionFromBackup
    (pre ++ headerEndMarker ++ toWellFormed definition)
  = toWellFormed definition.
Proof.
  intros Hclean. apply extract_after_marker.
  unfold toWellFormed.
  by rewrite StringProofs.includes_well_formed
    by apply headerEndMarker_plain.
Qed.

(** C2: for a definition that does not contain the closing delimiter of
    the header, [formatBackupContent] returns a content from which
    [extractDefinitionFromBackup] gives the definition back exactly,
    whatever the name, type, schema, operation and database: the BOM and
    the header are taken off whole. *)
Theorem extract_format_roundtrip w (objectName objectType schemaName
    definition operation database : jsstring) :
  includes definition headerEndMarker = false ->
  exists content w',
    formatBackupContent objectName objectType schemaName definition
      operation database w = (Ok content, w') /\
    extractDefinitionFromBackup content = definition.
Proof.
  intros Hclean. eexists _, _. split; [reflexivity|].
  unfold formatBackupContent_at.
  destruct (header_ends_with_marker objectName objectType schemaName
              (strip_fraction (replace_first 84 32
                 (toISOString (clock w (ticks w)))))
              operation database) as [pre ->].
  rewrite <- app_assoc, app_assoc.
  by apply extract_after_marker.
Qed.

(** *** Listing *)

Lemma filter_filter_andb {A} (p q : A -> bool) (l : list A) :
  List.filter q (List.filter p l) = List.filter (fun x => p x && q x) l.
Proof.
  induction l as [|x l IH]; [done|].
  cbn. destruct (p x); cbn; [|done]. destruct (q x); by rewrite IH.
Qed.

Lemma filter_listed objectName objectType (backups : list BackupEntry.t) :
  match objectType with
  | Some type =>
      if truthy type
      then List.filter (same_type type)
      else fun bs => bs
  | None => fun bs => bs
  end
    match objectName with
    | Some name =>
        if truthy name then List.filter (same_name name) backups else backups
    | None => backups
    end
  = List.filter (listed objectName objectType) backups.
Proof.
  assert (forall l : list BackupEntry.t, l = List.filter (fun _ => true) l)
    as Hall.
  { induction l as [|x l IH]; [done|]. cbn. by rewrite <- IH. }
  unfold listed.
  destruct objectName as [name|], objectType as [type|]; cbn [truthy_opt default];
    try destruct (truthy name); try destruct (truthy type);
    rewrite ?filter_filter_andb; try apply Hall;
    apply List.filter_ext; intros b; unfold same_name, same_type;
    by rewrite ?andb_true_r.
Qed.

(** C7: [listBackups] returns, in the order of the log (newest first), the
    entries whose name equals the given name in any case, when a name is
    given, and whose type contains or is contained in the given type after
    upper-casing, when a type is given, cut to the first [limit] of them
    (50 when no limit is given). An argument that is the empty string
    counts as not given. The log is the one of the log file, or the
    empty log when the file is absent or unparsable; when the file holds
    JSON without a member [backups], there is no log to list and
    [listBackups] throws the TypeError of its first use of
    [log.backups]. *)
Theorem listBackups_slice w (objectName objectType : option jsstring)
    (limit : option Z) :
  (0 <= default 50 limit)%Z ->
  match logFile w with
  | LogForeign type_error =>
      listBackups objectName objectType limit w
      = (Throw (type_error
                  (if truthy_opt objectName || truthy_opt objectType
                   then str "filter" else str "slice")), w)
  | _ =>
      exists w',
        listBackups objectName objectType limit w =
          (Ok (take (Z.to_nat (default 50%Z limit))
                 (List.filter (listed objectName objectType) (log_of w))),
           w') /\
        later w w'
  end.
Proof.
  intros Hlimit. apply log_cases.
  2:{ intros type_error Hfile. unfold listBackups.
      by rewrite (bind_Ok _ _ _ _ _ (loadBackupLog_foreign _ _ Hfile)). }
  intros Htyped.
  destruct (loadBackupLog_run w Htyped) as (log & w' & Hload & Hlater & Hlog).
  exists w'. split; [|done].
  unfold listBackups. rewrite (bind_Ok _ _ _ _ _ Hload).
  unfold as_log, bind, ret. f_equal. f_equal.
  unfold slice_to. rewrite (proj2 (Z.ltb_ge _ _)) by done.
  f_equal. rewrite Hlog.
  rewrite <- filter_listed.
  by destruct objectName as [[|]|], objectType as [[|]|].
Qed.

(** *** Cleanup by age *)

Lemma only_deleted_refl w : only_deleted w (files w).
Proof. intros p. by left. Qed.

Lemma date_lt_older_than cutoff b :
  date_lt (Date_parse (BackupEntry.timestamp b)) cutoff = older_than cutoff b.
Proof.
  unfold date_lt, older_than.
  destruct (Date_parse _) as [t|], cutoff as [c|]; try done.
  destruct (Z.ltb_spec t c).
  - by rewrite bool_decide_true.
  - rewrite bool_decide_false; [done|lia].
Qed.

(** Deleting the content file of one entry, in a world whose files are
    those of [w] less some deleted ones: it throws exactly when it does
    in [w], and otherwise the file is gone. *)
Lemma delete_file_run {A} w fs n b (k : M A) :
  only_deleted w fs ->
  (backupDir <- getBackupDir ;;
   there <- existsSync (path_join backupDir (BackupEntry.backup_file b)) ;;
   (when there (unlinkSync (path_join backupDir (BackupEntry.backup_file b))))
   ;;; k)
    (set_files (set_ticks w n) fs)
  = if delete_throws w b
    then (Throw (default (eisdir (file_path w b))
                   (unlink_fails w (file_path w b))),
          set_files (set_ticks w n) fs)
    else k (set_files (set_ticks w n) (delete (file_path w b) fs)).
Proof.
  intros Hfs. unfold bind, getBackupDir, getBackupConfig, getProjectRoot,
    ret, existsSync, when, unlinkSync, delete_throws, file_path, backup_dir.
  cbn.
  set (p := path_join _ _).
  destruct (Hfs p) as [Hsame|(Hgone & Hcan & content & Hwas)].
  - rewrite Hsame.
    destruct (files w !! p) as [[content|]|] eqn:Hp; cbn.
    + destruct (unlink_fails w p) as [e|] eqn:He; cbn; [done|].
      by rewrite Hsame.
    + destruct (unlink_fails w p) as [e|] eqn:He; [done|].
      by rewrite Hsame.
    + rewrite delete_id by (by rewrite Hsame). done.
  - rewrite Hgone, Hwas, Hcan. cbn.
    by rewrite delete_id.
Qed.

Lemma only_deleted_delete w fs b :
  only_deleted w fs -> delete_throws w b = false ->
  only_deleted w (delete (file_path w b) fs).
Proof.
  intros Hfs Hok p. unfold delete_throws in Hok.
  destruct (decide (p = file_path w b)) as [->|Hne].
  - rewrite lookup_delete_eq.
    destruct (files w !! file_path w b) as [[content|]|] eqn:Hp; [|done|by left].
    right. repeat split; [|by eexists].
    destruct (unlink_fails w _); [|done].
    by rewrite bool_decide_true in Hok.
  - rewrite lookup_delete_ne by done. apply Hfs.
Qed.

(** The loop of [cleanupByAge]. *)
Lemma age_loop_run w cutoff n backups : forall fs removed toKeep,
  only_deleted w fs ->
  for_of (age_step cutoff) backups (removed, toKeep)
    (set_files (set_ticks w n) fs)
  = (Ok (removed + length (List.filter (aged_out w cutoff) backups),
         toKeep ++ List.filter (retained w cutoff) backups),
     set_files (set_ticks w n)
       (without_files w (List.filter (aged_out w cutoff) backups) fs)).
Proof.
  induction backups as [|b backups IH]; intros fs removed toKeep Hfs.
  - cbn. unfold ret. by rewrite Nat.add_0_r, app_nil_r.
  - cbn [for_of List.filter]. unfold bind at 1. unfold age_step at 1.
    rewrite date_lt_older_than.
    destruct (older_than cutoff b) eqn:Hold.
    + unfold try_catch. rewrite delete_file_run by done.
      destruct (delete_throws w b) eqn:Hthrow; unfold ret.
      * replace (aged_out w cutoff b) with false
          by (unfold aged_out; by rewrite Hold, Hthrow).
        replace (retained w cutoff b) with true
          by (unfold retained; by rewrite Hold, Hthrow).
        rewrite IH by done. by rewrite <- app_assoc.
      * replace (aged_out w cutoff b) with true
          by (unfold aged_out; by rewrite Hold, Hthrow).
        replace (retained w cutoff b) with false
          by (unfold retained; by rewrite Hold, Hthrow).
        rewrite IH by (by apply only_deleted_delete).
        cbn [without_files foldl length]. do 3 f_equal. lia.
    + replace (aged_out w cutoff b) with false
        by (unfold aged_out; by rewrite Hold).
      replace (retained w cutoff b) with true
        by (unfold retained; by rewrite Hold).
      unfold ret. rewrite IH by done. by rewrite <- app_assoc.
Qed.

Lemma aged_out_or_retained w cutoff (backups : list BackupEntry.t) :
  length (List.filter (aged_out w cutoff) backups)
  + length (List.filter (retained w cutoff) backups)
  = length backups.
Proof.
  induction backups as [|b backups IH]; [done|].
  cbn [List.filter]. unfold aged_out at 1, retained at 1.
  destruct (older_than cutoff b), (delete_throws w b); cbn; lia.
Qed.


(** *** Comparing *)

(** [compareBackups] over a log file that holds other JSON: its first
    step, [getBackupById], throws on [log.backups.find]. *)
Lemma compareBackups_foreign w type_error
    (backupIdOld backupIdNew : jsstring)
    (currentDefinition : option jsstring) :
  logFile w = LogForeign type_error ->
  compareBackups backupIdOld backupIdNew currentDefinition w
  = (Throw (type_error (str "find")), w).
Proof.
  intros Hlog. unfold compareBackups.
  apply bind_Throw. by apply getBackupById_foreign.
Qed.

(** C10: with "current" as the new side and the empty string as its
    text, [compareBackups] ends as it does when no text is passed,
    whatever the old id: it returns null. That is so for the log of the
    log file, and for the empty log when the file is absent or
    unparsable; when the file holds JSON without a member [backups], no
    id exists, and with the empty text as without a text
    [compareBackups] throws the TypeError of [log.backups.find]. *)
Theorem compareBackups_current_empty w (backupIdOld : jsstring) :
  match logFile w with
  | LogForeign type_error =>
      compareBackups backupIdOld (str "current") (Some []) w
      = (Throw (type_error (str "find")), w) /\
      compareBackups backupIdOld (str "current") None w
      = (Throw (type_error (str "find")), w)
  | _ =>
      exists w',
        compareBackups backupIdOld (str "current") (Some []) w
        = (Ok None, w') /\
        compareBackups backupIdOld (str "current") None w = (Ok None, w')
  end.
Proof.
  apply log_cases.
  2:{ intros type_error Hfile. split; by apply compareBackups_foreign. }
  intros Htyped. unfold compareBackups.
  destruct (getBackupById_run w backupIdOld Htyped) as (w1 & Hget & Hl1).
  rewrite !(bind_Ok _ _ _ _ _ Hget).
  destruct (entry_of w backupIdOld) as [oldBackup|]; [|by exists w1].
  destruct (getBackupContent_run w1 backupIdOld
              (later_log_typed _ _ Hl1 Htyped)) as (w2 & Hcontent & Hl2).
  rewrite !(bind_Ok _ _ _ _ _ Hcontent).
  destruct (content_of w1 backupIdOld) as [oldContent|]; [|by exists w2].
  destruct (truthy oldContent); cbn [negb]; [|by exists w2].
  exists w2. unfold seq_eq. rewrite !bool_decide_true by done.
  cbn [truthy negb]. done.
Qed.

Lemma truthy_false s : truthy s = false -> s = [].
Proof. by destruct s. Qed.

Lemma truthy_true s : truthy s = true -> s <> [].
Proof. by destruct s. Qed.

Lemma available w backupId b text :
  entry_of w backupId = Some b -> content_of w backupId = Some text ->
  truthy text = true -> ~ unavailable w backupId.
Proof.
  intros He Hc Ht [H|[H|H]]; [congruence..|].
  apply truthy_true in Ht. congruence.
Qed.

(** [compareBackups] over a log file that holds a backup log or none. *)
Lemma compareBackups_typed w (backupIdOld backupIdNew : jsstring)
    (currentDefinition : option jsstring) :
  log_typed w ->
  exists r w',
    compareBackups backupIdOld backupIdNew currentDefinition w = (Ok r, w') /\
    later w w' /\
    match r with
    | None => nothing_to_compare w backupIdOld backupIdNew currentDefinition
    | Some d =>
        ~ nothing_to_compare w backupIdOld backupIdNew currentDefinition /\
        populated w backupIdOld backupIdNew currentDefinition d
    end.
Proof.
  intros Htyped. unfold compareBackups, nothing_to_compare.
  destruct (getBackupById_run w backupIdOld Htyped) as (w1 & Hget & Hl1).
  rewrite (bind_Ok _ _ _ _ _ Hget).
  destruct (entry_of w backupIdOld) as [oldBackup|] eqn:Hold.
  2: { exists None, w1. split; [done|]. split; [done|].
       left. left. done. }
  pose proof (later_log_typed _ _ Hl1 Htyped) as Htyped1.
  destruct (getBackupContent_run w1 backupIdOld Htyped1)
    as (w2 & Hcontent & Hl2).
  pose proof (later_log_typed _ _ Hl2 Htyped1) as Htyped2.
  rewrite (bind_Ok _ _ _ _ _ Hcontent).
  rewrite (later_content_of _ _ _ Hl1).
  pose proof (later_trans _ _ _ Hl1 Hl2) as Hl12.
  destruct (content_of w backupIdOld) as [oldContent|] eqn:HoldC.
  2: { exists None, w2. split; [done|]. split; [done|].
       left. right. left. done. }
  destruct (truthy oldContent) eqn:HoldT; cbn [negb].
  2: { exists None, w2. split; [done|]. split; [done|].
       apply truthy_false in HoldT. subst. left. right. right. done. }
  pose proof (available _ _ _ _ Hold HoldC HoldT) as Hav.
  pose proof (generateDiff_total_any (extractDefinitionFromBackup oldContent))
    as Htotal.
  unfold seq_eq.
  destruct (decide (backupIdNew = str "current")) as [->|Hnew].
  - rewrite bool_decide_true by done.
    destruct currentDefinition as [text|].
    2: { exists None, w2. split; [done|]. split; [done|].
         right. left. done. }
    destruct (truthy text) eqn:Htext; cbn [negb].
    2: { exists None, w2. split; [done|]. split; [done|].
         right. left. done. }
    destruct (Htotal text) as [g Hg].
    unfold bind, new_Date, ret. rewrite Hg.
    eexists (Some _), _. split; [reflexivity|].
    split; [eapply later_trans; [exact Hl12 | apply later_tick]|].
    split.
    + intros [H|[[_ H]|[H _]]]; [done| |done]. cbn in H. congruence.
    + exists oldBackup, oldContent, text, (Version.mk (str "current")
                (toISOString (clock w2 (ticks w2)))), g.
      split; [done|]. split; [done|]. split; [|split; [done|reflexivity]].
      unfold new_side_is. rewrite decide_True by done.
      split; [done|]. split; [done|].
      destruct Hl12 as [n ->]. by exists n.
  - rewrite bool_decide_false by done.
    destruct (getBackupById_run w2 backupIdNew Htyped2)
      as (w3 & Hget' & Hl3).
    pose proof (later_log_typed _ _ Hl3 Htyped2) as Htyped3.
    unfold bind at 1. rewrite (bind_Ok _ _ _ _ _ Hget').
    rewrite (later_entry_of _ _ _ Hl12).
    pose proof (later_trans _ _ _ Hl12 Hl3) as Hl13.
    destruct (entry_of w backupIdNew) as [newBackup|] eqn:Hnew_e.
    2: { exists None, w3. split; [done|]. split; [done|].
         right. right. split; [done|]. left. done. }
    destruct (getBackupContent_run w3 backupIdNew Htyped3)
      as (w4 & Hcontent' & Hl4).
    rewrite (bind_Ok _ _ _ _ _ Hcontent').
    rewrite (later_content_of _ _ _ Hl13).
    pose proof (later_trans _ _ _ Hl13 Hl4) as Hl14.
    destruct (content_of w backupIdNew) as [newContent|] eqn:HnewC.
    2: { exists None, w4. split; [done|]. split; [done|].
         right. right. split; [done|]. right. left. done. }
    destruct (truthy newContent) eqn:HnewT; cbn [negb].
    2: { exists None, w4. split; [done|]. split; [done|].
         apply truthy_false in HnewT. subst.
         right. right. split; [done|]. right. right. done. }
    destruct (Htotal (extractDefinitionFromBackup newContent)) as [g Hg].
    unfold ret. rewrite Hg.
    eexists (Some _), _. split; [reflexivity|]. split; [done|].
    pose proof (available _ _ _ _ Hnew_e HnewC HnewT) as Hav'.
    split.
    + intros [H|[[H _]|[_ H]]]; done.
    + exists oldBackup, oldContent, (extractDefinitionFromBackup newContent),
        (Version.mk (BackupEntry.id newBackup)
           (BackupEntry.timestamp newBackup)), g.
      split; [done|]. split; [done|]. split; [|split; [done|reflexivity]].
      unfold new_side_is. rewrite decide_False by done.
      by exists newBackup, newContent.
Qed.

(** C5, as the code has it. Over a log file that is absent, unparsable or
    a backup log, [compareBackups] does not throw and returns: null
    exactly when the old backup is unavailable (no entry with that id, or
    a content file that is absent, unreadable or empty once its BOM is
    taken off), or the new side is "current" with no text or the empty
    text, or the new side is a backup that is unavailable in the same
    sense; in every other case a populated result. Over a log file that
    holds JSON without a member [backups] it throws the TypeError of
    [log.backups.find], whatever its arguments. *)
Theorem compareBackups_null_iff w (backupIdOld backupIdNew : jsstring)
    (currentDefinition : option jsstring) :
  match logFile w with
  | LogForeign type_error =>
      compareBackups backupIdOld backupIdNew currentDefinition w
      = (Throw (type_error (str "find")), w)
  | _ =>
      exists r w',
        compareBackups backupIdOld backupIdNew currentDefinition w
        = (Ok r, w') /\
        later w w' /\
        match r with
        | None =>
            nothing_to_compare w backupIdOld backupIdNew currentDefinition
        | Some d =>
            ~ nothing_to_compare w backupIdOld backupIdNew
                currentDefinition /\
            populated w backupIdOld backupIdNew currentDefinition d
        end
  end.
Proof.
  apply log_cases.
  - apply compareBackups_typed.
  - intros type_error Hlog. by apply compareBackups_foreign.
Qed.

(** C6: with backups disabled in the configuration, [createBackup]
    returns the "disabled" result without throwing, and the world is as it
    was: no file written, no log entry, no eviction. *)
Theorem createBackup_disabled w (objectName objectType schemaName
    definition : jsstring) (operation : Operation) (database : jsstring) :
  BackupConfig.enabled (config w) = false ->
  createBackup objectName objectType schemaName definition operation database w
  = (Ok (BackupResult.mk false (str "Backup is disabled in configuration")
           [] []), w).
Proof.
  intros Hoff. unfold createBackup, bind, getBackupConfig.
  by rewrite Hoff.
Qed.

End Proofs.
End BackupProofs.

(** ** Retention by count *)

Module EvictionProofs.
Import JS Store Backup BackupSpec.

Section Lists.
Context {P : Platform}.

Abbreviation ids bs := (BackupEntry.id <$> bs).

Lemma filter_all {A} (p : A -> bool) (l : list A) :
  (forall x, x ∈ l -> p x = true) -> List.filter p l = l.
Proof.
  induction l as [|x l IH]; intros Hall; [done|].
  cbn. rewrite Hall by apply list_elem_of_here.
  f_equal. apply IH. intros y Hy. apply Hall. by apply list_elem_of_further.
Qed.

Lemma filter_ext_elem {A} (p q : A -> bool) (l : list A) :
  (forall x, x ∈ l -> p x = q x) -> List.filter p l = List.filter q l.
Proof.
  intros Hpq. apply List.filter_ext_in. intros x Hx.
  apply Hpq. by apply list_elem_of_In.
Qed.

Lemma elem_of_filter_bool {A} (p : A -> bool) (l : list A) x :
  x ∈ List.filter p l <-> x ∈ l /\ p x = true.
Proof. rewrite !list_elem_of_In. apply filter_In. Qed.

Lemma id_elem_of_filter (p : BackupEntry.t -> bool) bs i :
  i ∈ ids (List.filter p bs) -> i ∈ ids bs.
Proof.
  rewrite !list_elem_of_fmap. intros (x & -> & Hx).
  exists x. split; [done|]. by apply elem_of_filter_bool in Hx as [? _].
Qed.

Lemma id_elem_of_drop k (bs : list BackupEntry.t) i :
  i ∈ ids (drop k bs) -> i ∈ ids bs.
Proof.
  rewrite !list_elem_of_fmap. intros (x & -> & Hx).
  exists x. split; [done|].
  rewrite <- (take_drop k bs). apply elem_of_app. by right.
Qed.

Lemma NoDup_ids_filter (p : BackupEntry.t -> bool) bs :
  NoDup (ids bs) -> NoDup (ids (List.filter p bs)).
Proof.
  induction bs as [|b bs IH]; [done|].
  rewrite fmap_cons, NoDup_cons. intros [Hfresh Hrest].
  cbn. destruct (p b); [|by apply IH].
  rewrite fmap_cons, NoDup_cons. split; [|by apply IH].
  intros Hin. apply Hfresh. by eapply id_elem_of_filter.
Qed.

(** With distinct ids, taking the first entry with an id away takes
    every entry with that id away. *)
Lemma remove_by_id_filter bs b :
  NoDup (ids bs) ->
  remove_by_id bs b =
  List.filter (fun x => negb (seq_eq (BackupEntry.id x) (BackupEntry.id b))) bs.
Proof.
  unfold remove_by_id.
  induction bs as [|x bs IH]; [done|].
  rewrite fmap_cons, NoDup_cons. intros [Hfresh Hrest].
  cbn [findIndex List.filter].
  destruct (seq_eq (BackupEntry.id x) (BackupEntry.id b)) eqn:Hx; cbn [negb].
  - unfold splice1. cbn. rewrite drop_0.
    symmetry. apply filter_all. intros y Hy.
    apply negb_true_iff, bool_decide_eq_false. intros Hyb.
    apply bool_decide_eq_true in Hx.
    apply Hfresh. rewrite Hx, <- Hyb. by apply list_elem_of_fmap_2.
  - specialize (IH Hrest).
    destruct (findIndex _ bs) as [i|]; cbn [fmap option_fmap option_map].
    + unfold splice1 in *. cbn. by rewrite IH.
    + by rewrite <- IH.
Qed.

Lemma foldl_remove_by_id rm : forall bs,
  NoDup (ids bs) ->
  foldl remove_by_id bs rm =
  List.filter (fun x => negb (bool_decide (BackupEntry.id x ∈ ids rm))) bs.
Proof.
  induction rm as [|b rm IH]; intros bs Hnodup.
  - cbn. symmetry. apply filter_all. intros x _.
    apply negb_true_iff, bool_decide_eq_false. cbn. apply not_elem_of_nil.
  - cbn [foldl]. rewrite remove_by_id_filter by done.
    rewrite IH by (by apply NoDup_ids_filter).
    rewrite BackupProofs.filter_filter_andb.
    apply List.filter_ext. intros x. unfold seq_eq.
    rewrite fmap_cons.
    destruct (decide (BackupEntry.id x = BackupEntry.id b)) as [Heq|Hne].
    + rewrite (bool_decide_true (_ = _)) by done. cbn.
      symmetry. apply negb_false_iff, bool_decide_eq_true.
      rewrite Heq. apply list_elem_of_here.
    + rewrite (bool_decide_false (_ = _)) by done. cbn. f_equal.
      apply bool_decide_ext. rewrite elem_of_cons. tauto.
Qed.

Lemma excess_cons_other objectName k b bs :
  same_name objectName b = false ->
  excess objectName k (b :: bs) = excess objectName k bs.
Proof. unfold excess. cbn. by intros ->. Qed.

Lemma excess_cons_kept objectName k b bs :
  same_name objectName b = true ->
  excess objectName (S k) (b :: bs) = excess objectName k bs.
Proof. unfold excess. cbn. by intros ->. Qed.

Lemma excess_cons_gone objectName b bs :
  same_name objectName b = true ->
  excess objectName 0 (b :: bs) = b :: excess objectName 0 bs.
Proof. unfold excess. cbn. by intros ->. Qed.

Lemma id_elem_of_excess objectName k bs i :
  i ∈ ids (excess objectName k bs) -> i ∈ ids bs.
Proof.
  unfold excess. intros Hi.
  by eapply id_elem_of_filter, id_elem_of_drop.
Qed.

(** With distinct ids, the entries whose id is not an excess one are the
    entries that retention keeps. *)
Lemma keep_recent_filter objectName bs : forall k,
  NoDup (ids bs) ->
  List.filter
    (fun x => negb (bool_decide (BackupEntry.id x ∈ ids (excess objectName k bs))))
    bs
  = keep_recent objectName k bs.
Proof.
  induction bs as [|b bs IH]; intros k; [done|].
  rewrite fmap_cons, NoDup_cons. intros [Hfresh Hrest].
  cbn [List.filter keep_recent].
  destruct (same_name objectName b) eqn:Hb.
  - destruct k as [|k].
    + rewrite excess_cons_gone by done. rewrite fmap_cons.
      rewrite (bool_decide_true (_ ∈ _ :: _)) by apply list_elem_of_here.
      cbn [negb]. rewrite <- (IH 0 Hrest).
      apply filter_ext_elem. intros x Hx. f_equal.
      apply bool_decide_ext. rewrite elem_of_cons.
      split; [|by right]. intros [Heq|Hin]; [|done].
      exfalso. apply Hfresh. rewrite <- Heq. by apply list_elem_of_fmap_2.
    + rewrite excess_cons_kept by done.
      rewrite bool_decide_false; [cbn [negb]; by rewrite IH|].
      intros Hin. apply Hfresh. by eapply id_elem_of_excess.
  - rewrite excess_cons_other by done.
    rewrite bool_decide_false; [cbn [negb]; by rewrite IH|].
    intros Hin. apply Hfresh. by eapply id_elem_of_excess.
Qed.

Lemma evict_excess objectName k bs :
  NoDup (ids bs) ->
  foldl remove_by_id bs (excess objectName k bs) = keep_recent objectName k bs.
Proof.
  intros Hnodup. rewrite foldl_remove_by_id by done.
  by apply keep_recent_filter.
Qed.

(** What retention keeps, in the terms of the claim. *)
Lemma keep_recent_same_name objectName bs : forall k,
  List.filter (same_name objectName) (keep_recent objectName k bs)
  = take k (List.filter (same_name objectName) bs).
Proof.
  induction bs as [|b bs IH]; intros k; [by destruct k|].
  cbn [keep_recent List.filter].
  destruct (same_name objectName b) eqn:Hb.
  - destruct k as [|k]; [by rewrite IH|].
    cbn [List.filter]. rewrite Hb. cbn. by rewrite IH.
  - cbn [List.filter]. rewrite Hb. apply IH.
Qed.

Lemma keep_recent_others objectName bs : forall k,
  List.filter (fun b => negb (same_name objectName b))
    (keep_recent objectName k bs)
  = List.filter (fun b => negb (same_name objectName b)) bs.
Proof.
  induction bs as [|b bs IH]; intros k; [done|].
  cbn [keep_recent List.filter].
  destruct (same_name objectName b) eqn:Hb; cbn [negb].
  - destruct k as [|k]; [by rewrite IH|].
    cbn [List.filter]. rewrite Hb. cbn [negb]. apply IH.
  - cbn [List.filter]. rewrite Hb. cbn [negb]. by rewrite IH.
Qed.

Lemma keep_recent_length objectName bs : forall k,
  length (keep_recent objectName k bs) + length (excess objectName k bs)
  = length bs.
Proof.
  induction bs as [|b bs IH]; intros k.
  - unfold excess. cbn. by rewrite drop_nil.
  - cbn [keep_recent].
    destruct (same_name objectName b) eqn:Hb.
    + destruct k as [|k].
      * rewrite excess_cons_gone by done. cbn. rewrite <- (IH 0). lia.
      * rewrite excess_cons_kept by done. cbn. by rewrite IH.
    + rewrite excess_cons_other by done. cbn. by rewrite IH.
Qed.

(** *** The loop of [cleanupOldBackups] *)

Lemma world_as_update w : w = set_files (set_ticks w (ticks w)) (files w).
Proof. by destruct w. Qed.

Lemma evict_loop_run w n toRemove : forall fs bs,
  only_deleted w fs ->
  (forall b, b ∈ toRemove -> delete_throws w b = false) ->
  for_of remove_backup toRemove bs (set_files (set_ticks w n) fs)
  = (Ok (foldl remove_by_id bs toRemove),
     set_files (set_ticks w n) (without_files w toRemove fs)).
Proof.
  induction toRemove as [|b toRemove IH]; intros fs bs Hfs Hok; [done|].
  cbn [for_of foldl without_files]. unfold bind at 1.
  unfold remove_backup at 1. unfold try_catch.
  rewrite BackupProofs.delete_file_run by done.
  rewrite (Hok b) by apply list_elem_of_here.
  assert (forall w1,
    match findIndex (fun b0 => seq_eq (BackupEntry.id b0) (BackupEntry.id b)) bs
    with
    | Some index => ret (splice1 bs index)
    | None => ret bs
    end w1 = (Ok (remove_by_id bs b), w1)) as ->.
  { intros w1. unfold remove_by_id. by destruct (findIndex _ bs). }
  apply IH.
  - by apply BackupProofs.only_deleted_delete, Hok, list_elem_of_here.
  - intros b' Hb'. by apply Hok, list_elem_of_further.
Qed.

Lemma without_files_lookup w gone : forall fs p,
  without_files w gone fs !! p =
  if bool_decide (p ∈ file_path w <$> gone) then None else fs !! p.
Proof.
  induction gone as [|b gone IH]; intros fs p; [done|].
  change (without_files w (b :: gone) fs)
    with (without_files w gone (delete (file_path w b) fs)).
  rewrite IH, fmap_cons.
  destruct (decide (p = file_path w b)) as [->|Hne].
  - rewrite (bool_decide_true (_ ∈ _ :: _)) by apply list_elem_of_here.
    rewrite lookup_delete_eq. by case_bool_decide.
  - rewrite lookup_delete_ne by done.
    apply (f_equal (fun c : bool => if c then None else fs !! p)).
    apply bool_decide_ext. rewrite elem_of_cons. tauto.
Qed.

(** The loop when deletions may throw: the entries whose deletion throws
    are passed over, the others go with their files. *)
Lemma evict_loop_run_any w n toRemove : forall fs bs,
  only_deleted w fs ->
  for_of remove_backup toRemove bs (set_files (set_ticks w n) fs)
  = (Ok (foldl remove_by_id bs
           (List.filter (fun b => negb (delete_throws w b)) toRemove)),
     set_files (set_ticks w n)
       (without_files w
          (List.filter (fun b => negb (delete_throws w b)) toRemove) fs)).
Proof.
  induction toRemove as [|b toRemove IH]; intros fs bs Hfs; [done|].
  cbn [for_of List.filter]. unfold bind at 1.
  unfold remove_backup at 1. unfold try_catch.
  rewrite BackupProofs.delete_file_run by done.
  destruct (delete_throws w b) eqn:Hb; cbn [negb].
  - unfold ret at 1. by apply IH.
  - assert (forall w1,
      match findIndex (fun b0 => seq_eq (BackupEntry.id b0) (BackupEntry.id b))
              bs
      with
      | Some index => ret (splice1 bs index)
      | None => ret bs
      end w1 = (Ok (remove_by_id bs b), w1)) as ->.
    { intros w1. unfold remove_by_id. by destruct (findIndex _ bs). }
    cbn [foldl without_files]. apply IH.
    by apply BackupProofs.only_deleted_delete.
Qed.

Lemma same_id_same_entry bs (x y : BackupEntry.t) :
  NoDup (ids bs) -> x ∈ bs -> y ∈ bs ->
  BackupEntry.id x = BackupEntry.id y -> x = y.
Proof.
  induction bs as [|b bs IH]; [by intros _ ?%elem_of_nil|].
  rewrite fmap_cons, NoDup_cons. intros [Hfresh Hrest].
  rewrite !elem_of_cons. intros [->|Hx] [->|Hy] Hid; [done| | |by apply IH].
  - exfalso. apply Hfresh. rewrite Hid. by apply list_elem_of_fmap_2.
  - exfalso. apply Hfresh. rewrite <- Hid. by apply list_elem_of_fmap_2.
Qed.

(** C1, as the code has it: when the cap is not negative and the ids of
    the log are distinct, [cleanupOldBackups] returns, leaves every entry
    of another object in place, and keeps of the entries of this object
    (in any case) the [maxBackups] most recent; of the older ones, N - K
    of them when N > K, it removes those whose content file it could
    delete, each with its file, and keeps in the log, after the recent
    ones, those whose file deletion throws. When no deletion throws, the
    log is left with the K most recent entries of the object and N - K
    entries fewer. *)
Theorem cleanupOldBackups_evicts w (log : BackupLog.t) (objectName : jsstring)
    (maxBackups : Z) :
  (0 <= maxBackups)%Z ->
  NoDup (ids (BackupLog.backups log)) ->
  let K := Z.to_nat maxBackups in
  let N := length (List.filter (same_name objectName) (BackupLog.backups log)) in
  let over := excess objectName K (BackupLog.backups log) in
  let gone := List.filter (fun b => negb (delete_throws w b)) over in
  let stuck := List.filter (delete_throws w) over in
  exists log',
    cleanupOldBackups log objectName maxBackups w
      = (Ok log', set_files w (without_files w gone (files w))) /\
    length over = N - K /\
    List.filter (same_name objectName) (BackupLog.backups log')
      = take K (List.filter (same_name objectName) (BackupLog.backups log))
        ++ stuck /\
    List.filter (fun b => negb (same_name objectName b)) (BackupLog.backups log')
      = List.filter (fun b => negb (same_name objectName b))
          (BackupLog.backups log) /\
    length (BackupLog.backups log') + length gone
      = length (BackupLog.backups log) /\
    (forall b, b ∈ gone ->
       (b ∉ BackupLog.backups log') /\
       without_files w gone (files w) !! file_path w b = None) /\
    (forall b, b ∈ stuck -> b ∈ BackupLog.backups log') /\
    ((forall b, b ∈ over -> delete_throws w b = false) ->
       BackupLog.backups log'
         = keep_recent objectName K (BackupLog.backups log) /\
       length (BackupLog.backups log') + (N - K)
         = length (BackupLog.backups log)).
Proof.
  intros Hcap Hnodup K N over gone stuck.
  set (bs := BackupLog.backups log) in *.
  set (F := List.filter (same_name objectName) bs) in *.
  set (left_in := fun x : BackupEntry.t =>
                    negb (bool_decide (BackupEntry.id x ∈ ids gone))).
  assert (length over = N - K) as Hover_len.
  { subst over. unfold excess. by rewrite length_drop. }
  assert (forall x, x ∈ over -> x ∈ bs /\ same_name objectName x = true)
    as Hover.
  { intros x Hx. apply elem_of_filter_bool. fold F.
    rewrite <- (take_drop K F). apply elem_of_app. by right. }
  assert (forall x, x ∈ gone -> x ∈ over /\ delete_throws w x = false)
    as Hgone.
  { intros x Hx. apply elem_of_filter_bool in Hx as [Hx Hcan].
    split; [done|]. by apply negb_true_iff. }
  pose proof (NoDup_ids_filter (same_name objectName) bs Hnodup) as HnodupF.
  fold F in HnodupF.
  assert (List.filter (same_name objectName) (List.filter left_in bs)
          = take K F ++ stuck) as Hsame.
  { rewrite BackupProofs.filter_filter_andb.
    rewrite (List.filter_ext (fun x => left_in x && same_name objectName x)
               (fun x => same_name objectName x && left_in x))
      by (intros x; apply andb_comm).
    rewrite <- BackupProofs.filter_filter_andb. fold F.
    rewrite <- (take_drop K F) at 1. rewrite List.filter_app.
    rewrite <- (take_drop K F), fmap_app in HnodupF.
    apply NoDup_app in HnodupF as (_ & Hdisjoint & Hdrop).
    f_equal.
    - apply filter_all. intros x Hx.
      apply negb_true_iff, bool_decide_eq_false. intros Hin.
      apply (Hdisjoint (BackupEntry.id x)); [by apply list_elem_of_fmap_2|].
      apply list_elem_of_fmap in Hin as (y & -> & Hy).
      apply list_elem_of_fmap_2. by apply Hgone in Hy as [? _].
    - subst stuck. change (drop K F) with over.
      apply filter_ext_elem. intros x Hx. subst left_in. cbv beta.
      destruct (delete_throws w x) eqn:Hthrows.
      + apply negb_true_iff, bool_decide_eq_false.
        intros (y & Hid & Hy)%list_elem_of_fmap.
        apply Hgone in Hy as [Hy Hcan].
        assert (x = y) as ->; [|congruence].
        eapply (same_id_same_entry over); [exact Hdrop|done..].
      + apply negb_false_iff, bool_decide_eq_true.
        apply list_elem_of_fmap_2, elem_of_filter_bool.
        split; [done|]. by rewrite Hthrows. }
  assert (List.filter (fun b => negb (same_name objectName b))
            (List.filter left_in bs)
          = List.filter (fun b => negb (same_name objectName b)) bs)
    as Hothers.
  { rewrite BackupProofs.filter_filter_andb.
    apply filter_ext_elem. intros x Hx.
    destruct (same_name objectName x) eqn:Hname; cbn [negb];
      [apply andb_false_r|].
    rewrite andb_true_r.
    apply negb_true_iff, bool_decide_eq_false.
    intros (y & Hid & Hy)%list_elem_of_fmap.
    apply Hgone in Hy as [Hy _]. apply Hover in Hy as [Hy Hname'].
    assert (x = y) as ->; [|congruence].
    by eapply (same_id_same_entry bs). }
  assert (length (List.filter left_in bs) + length gone = length bs)
    as Hlength.
  { rewrite <- (List.filter_length (same_name objectName)
                  (List.filter left_in bs)).
    rewrite <- (List.filter_length (same_name objectName) bs).
    rewrite Hsame, Hothers. fold F.
    rewrite <- (take_drop K F) at 2. rewrite !length_app.
    change (drop K F) with over.
    pose proof (List.filter_length (delete_throws w) over) as Hparts.
    fold stuck gone in Hparts. lia. }
  assert (cleanupOldBackups log objectName maxBackups w
          = (Ok (BackupLog.set_backups log (List.filter left_in bs)),
             set_files w (without_files w gone (files w)))) as Hrun.
  { unfold cleanupOldBackups. fold bs F N.
    destruct (Z.ltb_spec maxBackups (Z.of_nat N)) as [Hlt|Hge].
    - unfold slice_from. rewrite (proj2 (Z.ltb_ge _ _)) by done.
      fold K. change (drop K F) with over.
      unfold bind.
      rewrite (world_as_update w) at 1.
      rewrite evict_loop_run_any by apply BackupProofs.only_deleted_refl.
      fold gone. unfold ret.
      rewrite foldl_remove_by_id by done. by destruct w.
    - assert (over = []) as Hnone.
      { subst over. unfold excess. apply drop_ge. fold bs F N. lia. }
      subst gone left_in. rewrite Hnone. cbn [List.filter without_files].
      unfold ret. f_equal; [|by destruct w]. f_equal.
      rewrite filter_all; [by destruct log|].
      intros x _. apply negb_true_iff, bool_decide_eq_false.
      cbn. apply not_elem_of_nil. }
  exists (BackupLog.set_backups log (List.filter left_in bs)).
  change (BackupLog.backups (BackupLog.set_backups log (List.filter left_in bs)))
    with (List.filter left_in bs).
  split; [exact Hrun|]. split; [exact Hover_len|].
  split; [exact Hsame|]. split; [exact Hothers|]. split; [exact Hlength|].
  split; [|split].
  - intros b Hb. split.
    + intros [_ Hin]%elem_of_filter_bool. subst left_in. cbv beta in Hin.
      apply negb_true_iff, bool_decide_eq_false in Hin.
      apply Hin. by apply list_elem_of_fmap_2.
    + rewrite without_files_lookup.
      rewrite bool_decide_true; [done|]. by apply list_elem_of_fmap_2.
  - intros b Hb.
    assert (b ∈ take K F ++ stuck) as Hin by (apply elem_of_app; by right).
    rewrite <- Hsame in Hin. by apply elem_of_filter_bool in Hin as [? _].
  - intros Hok.
    assert (gone = over) as Hall.
    { subst gone. apply filter_all. intros x Hx. by rewrite Hok. }
    split.
    + rewrite <- (evict_excess objectName K) by done.
      rewrite foldl_remove_by_id by done. fold over. by rewrite <- Hall.
    + rewrite <- Hover_len, <- Hall. exact Hlength.
Qed.

End Lists.
End EvictionProofs.

(** ** Creating a backup *)

Module CreateProofs.
Import JS Store Backup BackupSpec.
Local Open Scope js_scope.

Section Create.
Context {P : Platform}.

(** *** Eviction, however its deletions end *)

Lemma only_fewer_refl fs : only_fewer fs fs.
Proof. intros p. by left. Qed.

Lemma only_fewer_trans fs1 fs2 fs3 :
  only_fewer fs1 fs2 -> only_fewer fs2 fs3 -> only_fewer fs1 fs3.
Proof.
  intros H12 H23 p. destruct (H23 p) as [-> | ->]; [apply H12 | by right].
Qed.

Lemma only_fewer_delete fs p : only_fewer fs (delete p fs).
Proof.
  intros q. destruct (decide (q = p)) as [->|Hne].
  - right. apply lookup_delete_eq.
  - left. by apply lookup_delete_ne.
Qed.

Lemma remove_by_id_sublist bs b : remove_by_id bs b `sublist_of` bs.
Proof.
  unfold remove_by_id. destruct (findIndex _ bs) as [i|]; [|done].
  unfold splice1. rewrite <- delete_take_drop. apply sublist_delete.
Qed.

(** One turn of the loop never throws; it takes at most one entry out of
    the log and at most one file off the disk. *)
Lemma remove_backup_run bs b w :
  exists bs' fs',
    remove_backup bs b w = (Ok bs', set_files w fs') /\
    bs' `sublist_of` bs /\ only_fewer (files w) fs'.
Proof.
  pose proof (BackupProofs.delete_file_run w (files w) (ticks w) b
    (match findIndex (fun b0 => seq_eq (BackupEntry.id b0) (BackupEntry.id b))
             bs with
     | Some index => ret (splice1 bs index)
     | None => ret bs
     end) (BackupProofs.only_deleted_refl w)) as Hrun.
  replace (set_files (set_ticks w (ticks w)) (files w)) with w in Hrun
    by (by destruct w).
  unfold remove_backup, try_catch. rewrite Hrun.
  destruct (delete_throws w b).
  - exists bs, (files w). split; [by destruct w|].
    split; [done | apply only_fewer_refl].
  - exists (remove_by_id bs b), (delete (file_path w b) (files w)).
    split; [|split; [apply remove_by_id_sublist | apply only_fewer_delete]].
    unfold remove_by_id. by destruct (findIndex _ bs); destruct w.
Qed.

Lemma remove_loop_run toRemove : forall bs w,
  exists bs' fs',
    for_of remove_backup toRemove bs w = (Ok bs', set_files w fs') /\
    bs' `sublist_of` bs /\ only_fewer (files w) fs'.
Proof.
  induction toRemove as [|b toRemove IH]; intros bs w.
  - exists bs, (files w). split; [by destruct w|].
    split; [done | apply only_fewer_refl].
  - destruct (remove_backup_run bs b w) as (bs1 & fs1 & Hrun & Hsub & Hfs).
    destruct (IH bs1 (set_files w fs1)) as (bs2 & fs2 & Hrun' & Hsub' & Hfs').
    exists bs2, fs2. cbn [for_of]. unfold bind. rewrite Hrun, Hrun'.
    split; [done|]. split; [by etrans|].
    by eapply only_fewer_trans.
Qed.

(** [cleanupOldBackups] never throws: it returns a log whose entries are
    entries of the log it was given, in their order, and it only deletes
    files. *)
Lemma cleanupOldBackups_run log objectName maxBackups w :
  exists log' fs',
    cleanupOldBackups log objectName maxBackups w = (Ok log', set_files w fs') /\
    BackupLog.backups log' `sublist_of` BackupLog.backups log /\
    only_fewer (files w) fs'.
Proof.
  unfold cleanupOldBackups.
  destruct (_ <? _)%Z.
  - destruct (remove_loop_run
                (slice_from (List.filter (same_name objectName)
                               (BackupLog.backups log)) maxBackups)
                (BackupLog.backups log) w) as (bs' & fs' & Hrun & Hsub & Hfs).
    exists (BackupLog.set_backups log bs'), fs'.
    unfold bind. rewrite Hrun. by repeat split.
  - exists log, (files w). split; [by destruct w|].
    split; [done | apply only_fewer_refl].
Qed.

End Create.
End CreateProofs.

(** ** Closed instances *)

Module Witnesses.
Import JS Store Backup BackupSpec Examples.

(** A store whose configuration has backups disabled. *)
Lemma createBackup_disabled_witness :
  createBackup (str "usp_x") (str "PROCEDURE") (str "dbo") sample_definition
    ALTER (str "db") disabled_store
  = (Ok (BackupResult.mk false (str "Backup is disabled in configuration")
           [] []), disabled_store).
Proof. apply BackupProofs.createBackup_disabled. reflexivity. Defined.

(** A definition without the closing delimiter comes back as it was. *)
Lemma extract_format_roundtrip_witness :
  includes sample_definition headerEndMarker = false /\
  exists content w',
    formatBackupContent (str "usp_x") (str "PROCEDURE") (str "dbo")
      sample_definition (str "ALTER") (str "db") scenario_store
      = (Ok content, w') /\
    extractDefinitionFromBackup content = sample_definition.
Proof.
  split; [reflexivity|].
  apply BackupProofs.extract_format_roundtrip. reflexivity.
Defined.

(** The scenario: of five backups of "foo" in varying case among three
    others, [listBackups("Foo", undefined, 2)] gives the two most recent. *)
Lemma listBackups_slice_witness :
  exists w',
    listBackups (Some (str "Foo")) None (Some 2%Z) scenario_store
    = (Ok [ entry "b7" "FOO" "2024-05-06T07:08:09.000Z";
            entry "b5" "Foo" "2024-05-06T07:08:09.000Z" ], w').
Proof.
  destruct (BackupProofs.listBackups_slice scenario_store (Some (str "Foo"))
              None (Some 2%Z)) as (w' & Hrun & _); [cbn; lia|].
  exists w'. rewrite Hrun. f_equal.
Defined.


(** Of the five backups of "foo", a cap of two keeps "b7" and "b5";
    of the three older ones, "b4" and "b1" go with their files, and "b2",
    whose file cannot be deleted, stays in the log. The three others
    stay. *)
Lemma cleanupOldBackups_evicts_witness :
  exists log' w',
    cleanupOldBackups (BackupLog.mk (str "1.0") [] [] scenario_log)
      (str "Foo") 2 MoreExamples.jammed_store = (Ok log', w') /\
    map BackupEntry.id
      (List.filter (same_name (str "Foo")) (BackupLog.backups log'))
      = [str "b7"; str "b5"; str "b2"] /\
    map BackupEntry.id
      (List.filter (fun b => negb (same_name (str "Foo") b))
         (BackupLog.backups log'))
      = [str "b8"; str "b6"; str "b3"] /\
    length (BackupLog.backups log') = 6 /\
    files w' !! path_of "b4" = None /\
    files w' !! path_of "b1" = None /\
    is_Some (files w' !! path_of "b2") /\
    is_Some (files w' !! path_of "b5").
Proof.
  destruct (EvictionProofs.cleanupOldBackups_evicts MoreExamples.jammed_store
              (BackupLog.mk (str "1.0") [] [] scenario_log) (str "Foo") 2)
    as (log' & Hrun & _ & Hsame & Hothers & _).
  - lia.
  - apply (bool_decide_unpack _). vm_compute. exact I.
  - eexists log', _. split; [exact Hrun|].
    rewrite <- (List.filter_length (same_name (str "Foo"))
                  (BackupLog.backups log')).
    rewrite Hsame, Hothers. split; [reflexivity|]. split; [reflexivity|].
    split; [reflexivity|].
    vm_compute. eauto 10.
Defined.

(** Against C1 as stated: with a cap of one and a backup of "foo" whose
    file [unlinkSync] fails on, a successful [createBackup] of "foo" leaves
    two entries of "foo" in the saved log, not one, and the old file on
    disk. *)
Lemma eviction_keeps_entry_when_unlink_throws :
  let run :=
    createBackup (str "foo") (str "PROCEDURE") (str "dbo") sample_definition
      ALTER (str "db") stuck_store in
  BackupConfig.auto_cleanup (config stuck_store) = true /\
  BackupConfig.max_backups_per_object (config stuck_store) = 1%Z /\
  created run = true /\
  map BackupEntry.object_name (log_of (snd run)) = [str "foo"; str "foo"] /\
  map BackupEntry.id (log_of (snd run)) = [str "bkp_1714996800000_k3x9qa"; str "b1"] /\
  files (snd run) !! path_of "b1" = Some (File (str "SELECT 1")).
Proof. vm_compute. repeat split. Qed.

(** Against C5 as stated: the old backup has its entry and its content
    file is there and can be read, "current" comes with a text, and yet
    the result is null, because the file is empty. *)
Lemma compareBackups_null_for_empty_file :
  entry_of empty_file_store (str "b1")
    = Some (entry "b1" "foo" "2024-01-01T00:00:00.000Z") /\
  fst (readFileSync (path_of "b1") empty_file_store) = Ok [] /\
  truthy_opt (Some sample_definition) = true /\
  fst (compareBackups (str "b1") (str "current") (Some sample_definition)
         empty_file_store) = Ok None.
Proof. vm_compute. repeat split. Qed.

(** The backup "b5" of the scenario against an empty current text. *)
Lemma compareBackups_current_empty_witness :
  exists w',
    compareBackups (str "b5") (str "current") (Some []) scenario_store
      = (Ok None, w') /\
    compareBackups (str "b5") (str "current") None scenario_store
      = (Ok None, w').
Proof.
  apply (BackupProofs.compareBackups_current_empty scenario_store (str "b5")).
Defined.


(** And when the log file holds [{}], [compareBackups] throws. *)
Lemma compareBackups_throws_without_backups :
  fst (compareBackups (str "b1") (str "current") (Some sample_definition)
         MoreExamples.foreign_store)
  = Throw (str "Cannot read properties of undefined (reading 'find')").
Proof. vm_compute. reflexivity. Qed.

End Witnesses.

(** ** Further properties of the diff engine *)

Module DiffScriptProofs.
Import JS Diff DiffSpec DiffTools DiffScript.

(** *** Splitting and joining lines *)

Lemma split_nl_not_nil s : split_nl s <> [].
Proof.
  destruct s as [|c s]; [done|]. cbn.
  destruct (c =? 10)%N; [done|]. by destruct (split_nl s).
Qed.

Lemma join_nl_cons_char c l ls :
  join_nl ((c :: l) :: ls) = c :: join_nl (l :: ls).
Proof. by destruct ls. Qed.

Lemma join_split s : join_nl (split_nl s) = s.
Proof.
  induction s as [|c s IH]; [done|].
  cbn [split_nl]. destruct (N.eqb_spec c 10) as [->|Hc].
  - pose proof (split_nl_not_nil s) as Hne.
    destruct (split_nl s) as [|p ps]; [done|].
    cbn [join_nl app]. by rewrite <- IH.
  - pose proof (split_nl_not_nil s) as Hne.
    destruct (split_nl s) as [|p ps]; [done|].
    by rewrite join_nl_cons_char, IH.
Qed.

Lemma split_nl_inj a b : split_nl a = split_nl b -> a = b.
Proof. intros H. by rewrite <- (join_split a), <- (join_split b), H. Qed.

(** *** The views of a script *)

Lemma old_view_app xs ys : old_view (xs ++ ys) = old_view xs ++ old_view ys.
Proof. unfold old_view. by rewrite List.filter_app, fmap_app. Qed.

Lemma new_view_app xs ys : new_view (xs ++ ys) = new_view xs ++ new_view ys.
Proof. unfold new_view. by rewrite List.filter_app, fmap_app. Qed.

Lemma take_S_lookup {A} (l : list A) i x :
  l !! i = Some x -> take (S i) l = take i l ++ [x].
Proof. intros H. by apply take_S_r. Qed.

Section Script.
Variables oldLines newLines : list jsstring.
Variable dp : list (list nat).

(** Whatever the table holds, the loop emits a script whose old side is
    the first [i] old lines and whose new side is the first [j] new
    lines. *)
Lemma backtrack_loop_views fuel : forall i j acc,
  i <= length oldLines -> j <= length newLines -> i + j <= fuel ->
  exists path,
    backtrack_loop fuel dp oldLines newLines i j acc = Some (acc ++ path) /\
    old_view (reverse path) = take i oldLines /\
    new_view (reverse path) = take j newLines.
Proof.
  induction fuel as [|fuel IH]; intros i j acc Hi Hj Hfuel.
  - assert (i = 0 /\ j = 0) as [-> ->] by lia.
    exists []. cbn. by rewrite app_nil_r.
  - destruct i as [|i], j as [|j].
    + exists []. cbn. by rewrite app_nil_r.
    + destruct (lookup_lt_is_Some_2 newLines j ltac:(lia)) as [y Hy].
      rewrite DiffProofs.backtrack_loop_step by lia.
      rewrite !Nat.sub_succ, !Nat.sub_0_r. cbn [Nat.ltb Nat.leb andb Nat.eqb orb].
      edestruct (IH 0 j) as (path & -> & Hold & Hnew); [lia..|].
      eexists (_ :: path). rewrite <- app_assoc. split; [done|].
      rewrite reverse_cons, old_view_app, new_view_app, Hold, Hnew.
      rewrite Hy. cbn. rewrite (take_S_lookup _ _ _ Hy). done.
    + destruct (lookup_lt_is_Some_2 oldLines i ltac:(lia)) as [x Hx].
      rewrite DiffProofs.backtrack_loop_step by lia.
      rewrite !Nat.sub_succ, !Nat.sub_0_r. cbn [Nat.ltb Nat.leb andb Nat.eqb orb].
      edestruct (IH i 0) as (path & -> & Hold & Hnew); [lia..|].
      eexists (_ :: path). rewrite <- app_assoc. split; [done|].
      rewrite reverse_cons, old_view_app, new_view_app, Hold, Hnew.
      rewrite Hx. cbn. rewrite (take_S_lookup _ _ _ Hx). done.
    + destruct (lookup_lt_is_Some_2 oldLines i ltac:(lia)) as [x Hx].
      destruct (lookup_lt_is_Some_2 newLines j ltac:(lia)) as [y Hy].
      rewrite DiffProofs.backtrack_loop_step by lia.
      rewrite !Nat.sub_succ, !Nat.sub_0_r. cbn [Nat.ltb Nat.leb andb Nat.eqb orb].
      destruct (same_line oldLines newLines i j) eqn:Hsame.
      * apply bool_decide_eq_true in Hsame.
        edestruct (IH i j) as (path & -> & Hold & Hnew); [lia..|].
        eexists (_ :: path). rewrite <- app_assoc. split; [done|].
        rewrite reverse_cons, old_view_app, new_view_app, Hold, Hnew.
        rewrite Hx. cbn.
        rewrite (take_S_lookup _ _ _ Hx).
        rewrite Hx in Hsame. symmetry in Hsame.
        by rewrite (take_S_lookup _ _ _ Hsame).
      * destruct (_ <=? _).
        -- edestruct (IH (S i) j) as (path & -> & Hold & Hnew); [lia..|].
           eexists (_ :: path). rewrite <- app_assoc. split; [done|].
           rewrite reverse_cons, old_view_app, new_view_app, Hold, Hnew.
           rewrite Hy. cbn. rewrite (take_S_lookup _ _ _ Hy).
           by rewrite app_nil_r.
        -- edestruct (IH i (S j)) as (path & -> & Hold & Hnew); [lia..|].
           eexists (_ :: path). rewrite <- app_assoc. split; [done|].
           rewrite reverse_cons, old_view_app, new_view_app, Hold, Hnew.
           rewrite Hx. cbn. rewrite (take_S_lookup _ _ _ Hx).
           by rewrite app_nil_r.
Qed.

End Script.

(** *** Rendering *)

Lemma render_loop ds : forall a r out,
  foldl render_line (a, r, out) ds =
  (a + count_type added ds, r + count_type removed ds,
   out ++ map render_text ds).
Proof.
  induction ds as [|l ds IH]; intros a r out.
  - cbn. by rewrite !Nat.add_0_r, app_nil_r.
  - cbn [foldl map]. unfold render_line at 2, render_text at 1.
    destruct l as [[] lo ln c]; cbn [type content]; rewrite IH;
      unfold count_type; cbn; rewrite <- app_assoc;
      repeat case_bool_decide; try done; cbn; do 2 f_equal; lia.
Qed.

(** Off the short cut, [generateDiff] renders a script that shows the
    old lines on its old side and the new lines on its new side, and whose
    unchanged lines are as many as the table says. *)
Lemma generateDiff_script oldText newText :
  oldText <> newText ->
  exists ds,
    generateDiff oldText newText
      = Some (mkDiffOut (render ds) (count_type added ds)
                (count_type removed ds) false) /\
    old_view ds = split_nl oldText /\
    new_view ds = split_nl newText /\
    count_type unchanged ds
      = lcs_length (split_nl oldText) (split_nl newText)
          (length (split_nl oldText)) (length (split_nl newText)).
Proof.
  intros Hne. unfold generateDiff, seq_eq.
  rewrite bool_decide_false by done. unfold backtrack.
  set (old := split_nl oldText). set (new := split_nl newText).
  destruct (backtrack_loop_views old new (lcs old new)
              (length old + length new) (length old) (length new) [])
    as (path & Hrun & Hold & Hnew); [lia..|].
  destruct (DiffProofs.backtrack_loop_counts old new
              (length old + length new) (length old) (length new) [])
    as (path' & Hrun' & Hkept & _); [lia..|].
  rewrite Hrun in Hrun'. injection Hrun' as <-.
  rewrite Hrun. rewrite app_nil_l.
  cbn [fmap option_fmap option_map mbind option_bind].
  rewrite render_loop. exists (reverse path).
  split; [done|].
  rewrite Hold, Hnew, !firstn_all.
  rewrite DiffProofs.count_type_reverse. done.
Qed.

(** *** The table against every common subsequence *)

Lemma sublist_snoc_inv {A} (c l : list A) (x : A) :
  c `sublist_of` l ++ [x] ->
  c `sublist_of` l \/ exists c', c = c' ++ [x] /\ c' `sublist_of` l.
Proof.
  intros Hc. apply sublist_app_r in Hc as (c1 & c2 & -> & H1 & H2).
  apply sublist_cons_r in H2 as [H2|(c2' & -> & H2)].
  - apply sublist_nil_r in H2 as ->. left. by rewrite app_nil_r.
  - apply sublist_nil_r in H2 as ->. right. eauto.
Qed.

Lemma sublist_snoc_drop {A} (c l : list A) (x : A) :
  c ++ [x] `sublist_of` l -> c `sublist_of` l.
Proof.
  intros H. etrans; [|exact H]. by apply sublist_inserts_r.
Qed.

Lemma lcs_length_bound oldLines newLines i : forall j c,
  i <= length oldLines -> j <= length newLines ->
  c `sublist_of` take i oldLines -> c `sublist_of` take j newLines ->
  length c <= lcs_length oldLines newLines i j.
Proof.
  induction i as [|i IHi]; intros j c Hi Hj Hold Hnew.
  - apply sublist_nil_r in Hold as ->. cbn. lia.
  - induction j as [|j IHj] in c, Hj, Hold, Hnew |- *.
    + rewrite take_0 in Hnew. apply sublist_nil_r in Hnew as ->. cbn. lia.
    + destruct (lookup_lt_is_Some_2 oldLines i ltac:(lia)) as [x Hx].
      destruct (lookup_lt_is_Some_2 newLines j ltac:(lia)) as [y Hy].
      rewrite (take_S_lookup _ _ _ Hx) in Hold.
      rewrite (take_S_lookup _ _ _ Hy) in Hnew.
      rewrite DiffProofs.lcs_length_step.
      destruct (same_line oldLines newLines i j) eqn:Hsame.
      * apply sublist_snoc_inv in Hold as [Hold|(c1 & -> & Hold)].
        -- apply sublist_snoc_inv in Hnew as [Hnew|(c2 & -> & Hnew)].
           ++ pose proof (IHi j c ltac:(lia) ltac:(lia) Hold Hnew). lia.
           ++ apply sublist_snoc_drop in Hold.
              pose proof (IHi j c2 ltac:(lia) ltac:(lia) Hold Hnew).
              rewrite length_app. cbn. lia.
        -- apply sublist_snoc_inv in Hnew as [Hnew|(c2 & Heq & Hnew)].
           ++ apply sublist_snoc_drop in Hnew.
              pose proof (IHi j c1 ltac:(lia) ltac:(lia) Hold Hnew).
              rewrite length_app. cbn. lia.
           ++ apply app_inj_tail in Heq as [<- _].
              pose proof (IHi j c1 ltac:(lia) ltac:(lia) Hold Hnew).
              rewrite length_app. cbn. lia.
      * apply bool_decide_eq_false in Hsame.
        apply sublist_snoc_inv in Hold as [Hold|(c1 & -> & Hold)].
        -- rewrite <- (take_S_lookup _ _ _ Hy) in Hnew.
           pose proof (IHi (S j) c ltac:(lia) ltac:(lia) Hold Hnew). lia.
        -- apply sublist_snoc_inv in Hnew as [Hnew|(c2 & Heq & Hnew)].
           ++ assert (c1 ++ [x] `sublist_of` take (S i) oldLines) as Hold'.
              { rewrite (take_S_lookup _ _ _ Hx).
                by apply sublist_app. }
              pose proof (IHj (c1 ++ [x]) ltac:(lia) Hold' Hnew). lia.
           ++ apply app_inj_tail in Heq as [_ Heq].
              exfalso. apply Hsame. congruence.
Qed.

(** *** What a caller of [generateDiff] can rely on *)

Lemma filter_weaken_sublist {A} (p q : A -> bool) (l : list A) :
  (forall x, p x = true -> q x = true) ->
  List.filter p l `sublist_of` List.filter q l.
Proof.
  intros Hpq. induction l as [|x l IH]; [done|].
  cbn. destruct (p x) eqn:Hp.
  - rewrite (Hpq x Hp). by constructor.
  - destruct (q x); [by constructor | done].
Qed.

Lemma kept_view_common ds : common (kept_view ds) (old_view ds) (new_view ds).
Proof.
  unfold common, kept_view, old_view, new_view.
  split; apply fmap_sublist, filter_weaken_sublist; intros l Hl;
    apply bool_decide_eq_true in Hl; rewrite Hl; done.
Qed.

Lemma kept_view_length ds : length (kept_view ds) = count_type unchanged ds.
Proof. unfold kept_view, count_type. by rewrite length_fmap. Qed.

Lemma filter_none_counted t ds :
  count_type t ds = 0 ->
  List.filter (fun l => negb (bool_decide (type l = t))) ds = ds.
Proof.
  unfold count_type. induction ds as [|l ds IH]; [done|].
  cbn. destruct (bool_decide (type l = t)); cbn; [done|].
  intros H. by rewrite IH.
Qed.

(** X1: for two different texts, the diff that [generateDiff] returns is
    the rendering of an edit script: its unchanged and removed lines, in
    order, are the old text, its unchanged and added lines are the new
    text, and the two counts are the numbers of added and removed lines of
    that script. *)
Theorem generateDiff_edit_script (oldText newText : jsstring) :
  oldText <> newText ->
  exists ds d,
    generateDiff oldText newText = Some d /\
    diff d = render ds /\
    lines_added d = count_type added ds /\
    lines_removed d = count_type removed ds /\
    join_nl (old_view ds) = oldText /\
    join_nl (new_view ds) = newText.
Proof.
  intros Hne.
  destruct (generateDiff_script oldText newText Hne)
    as (ds & Hrun & Hold & Hnew & _).
  exists ds. eexists. split; [exact Hrun|]. cbn.
  rewrite Hold, Hnew, !join_split. done.
Qed.

(** X2: the diff is a shortest one. The lines it leaves unchanged are a
    longest common subsequence of the lines of the two texts: some common
    subsequence accounts for every line that is neither added nor
    removed, and no common subsequence is longer. *)
Theorem generateDiff_minimal (oldText newText : jsstring) :
  exists d,
    generateDiff oldText newText = Some d /\
    (exists c,
       common c (split_nl oldText) (split_nl newText) /\
       lines_removed d + length c = length (split_nl oldText) /\
       lines_added d + length c = length (split_nl newText)) /\
    (forall c,
       common c (split_nl oldText) (split_nl newText) ->
       lines_removed d + length c <= length (split_nl oldText) /\
       lines_added d + length c <= length (split_nl newText)).
Proof.
  destruct (decide (oldText = newText)) as [<-|Hne].
  - eexists. split; [apply DiffProofs.generateDiff_same_text|]. cbn. split.
    + exists (split_nl oldText). by repeat split.
    + intros c [Hc _]. apply sublist_length in Hc. lia.
  - destruct (generateDiff_script oldText newText Hne)
      as (ds & Hrun & Hold & Hnew & Hkept).
    destruct (DiffProofs.generateDiff_counts oldText newText Hne)
      as (d & Hrun' & Hadded & Hremoved).
    rewrite Hrun in Hrun'. injection Hrun' as <-. cbn in Hadded, Hremoved.
    eexists. split; [exact Hrun|]. cbn. split.
    + exists (kept_view ds). rewrite <- Hold, <- Hnew at 1.
      split; [apply kept_view_common|].
      rewrite kept_view_length, Hkept. lia.
    + intros c [Hc1 Hc2].
      pose proof (lcs_length_bound (split_nl oldText) (split_nl newText)
                    (length (split_nl oldText)) (length (split_nl newText)) c
                    ltac:(lia) ltac:(lia)) as Hbound.
      rewrite !firstn_all in Hbound. specialize (Hbound Hc1 Hc2). lia.
Qed.

(** X3: [generateDiff] reports identical texts exactly when the texts are
    equal, and a result that is not identical always counts at least one
    added or removed line. *)
Theorem generateDiff_identical_iff (oldText newText : jsstring) :
  exists d,
    generateDiff oldText newText = Some d /\
    (is_identical d = true <-> oldText = newText) /\
    (lines_added d + lines_removed d = 0 <-> oldText = newText).
Proof.
  destruct (decide (oldText = newText)) as [<-|Hne].
  - eexists. split; [apply DiffProofs.generateDiff_same_text|]. by cbn.
  - destruct (generateDiff_script oldText newText Hne)
      as (ds & Hrun & Hold & Hnew & _).
    eexists. split; [exact Hrun|]. cbn. split; [done|].
    split; [|done]. intros Hzero. exfalso. apply Hne.
    apply split_nl_inj. rewrite <- Hold, <- Hnew.
    unfold old_view, new_view.
    rewrite !filter_none_counted by lia. done.
Qed.

(** *** [getDiffContext] *)

Lemma slice_window {A} (arr : list A) (start end_ : Z) :
  (0 <= start)%Z -> (0 <= end_)%Z ->
  slice arr start end_ =
  take (Z.to_nat (Z.min end_ (Z.of_nat (length arr)))
        - Z.to_nat (Z.min start (Z.of_nat (length arr))))
       (drop (Z.to_nat (Z.min start (Z.of_nat (length arr)))) arr).
Proof.
  intros Hs He. unfold slice.
  rewrite !(proj2 (Z.ltb_ge _ _)) by done.
  f_equal. lia.
Qed.

(** X4: for a line number and a context that are not negative,
    [getDiffContext] returns a run of consecutive lines of the diff, at
    most [2 * contextLines + 1] of them, that starts [contextLines] lines
    before the numbered line (or at the first line) and holds the numbered
    line if the diff has it. *)
Theorem getDiffContext_window (diff : jsstring) (lineNumber : Z)
    (contextLines : option Z) :
  (0 <= lineNumber)%Z -> (0 <= default 3 contextLines)%Z ->
  exists before window after,
    split_nl diff = before ++ window ++ after /\
    getDiffContext diff lineNumber contextLines = join_nl window /\
    length before
      = Nat.min (Z.to_nat (lineNumber - default 3%Z contextLines))
          (length (split_nl diff)) /\
    (Z.of_nat (length window) <= 2 * default 3 contextLines + 1)%Z /\
    (forall line,
       split_nl diff !! Z.to_nat lineNumber = Some line ->
       window !! (Z.to_nat lineNumber - length before) = Some line).
Proof.
  intros Hn Hc. unfold getDiffContext.
  set (c := default 3%Z contextLines) in *.
  set (lines := split_nl diff).
  rewrite slice_window by lia.
  set (k := Z.to_nat (Z.min (Z.max 0 (lineNumber - c)) (Z.of_nat (length lines)))).
  set (f := Z.to_nat (Z.min (Z.min (Z.of_nat (length lines))
                              (lineNumber + c + 1))
                        (Z.of_nat (length lines)))).
  exists (take k lines), (take (f - k) (drop k lines)),
    (drop (f - k) (drop k lines)).
  split; [by rewrite !take_drop|]. split; [done|].
  assert (k <= length lines) as Hk by (subst k; lia).
  split; [rewrite length_take; subst k; lia|].
  split; [rewrite length_take, length_drop; subst k f; lia|].
  intros line Hline. pose proof (lookup_lt_Some _ _ _ Hline) as Hlt.
  rewrite length_take, Nat.min_l by done.
  rewrite lookup_take_lt by (subst k f; lia).
  rewrite lookup_drop. rewrite <- Hline. f_equal. subst k. lia.
Qed.

(** X5: when the context reaches from the first line to the last, 
    [getDiffContext] returns the diff as it is. *)
Theorem getDiffContext_everything (diff : jsstring) (lineNumber : Z)
    (contextLines : option Z) :
  (0 <= lineNumber)%Z ->
  (lineNumber <= default 3 contextLines)%Z ->
  (Z.of_nat (length (split_nl diff)) <= lineNumber + default 3 contextLines + 1)%Z ->
  getDiffContext diff lineNumber contextLines = diff.
Proof.
  intros Hn Hc Hlen. unfold getDiffContext.
  rewrite slice_window by lia.
  set (k := Z.to_nat (Z.min (Z.max 0 (lineNumber - default 3%Z contextLines))
                        (Z.of_nat (length (split_nl diff))))).
  assert (k = 0) as -> by (subst k; lia).
  rewrite Nat.sub_0_r, drop_0, take_ge by lia.
  apply join_split.
Qed.

End DiffScriptProofs.

(** ** Further properties of the backup manager *)

Module StoreProofs.
Import JS Store Backup BackupSpec StoreSpec.
Local Open Scope js_scope.

Ltac world_fields :=
  cbn [config projectRoot files logFile clock ticks random draws mkdir_fails
       write_fails read_fails unlink_fails set_files set_ticks set_draws
       set_logFile].

Section Proofs.
Context {P : Platform}.

(** *** File names *)

Lemma typeMap_subdirs k v : typeMap !! k = Some v -> v ∈ subdirs.
Proof.
  unfold typeMap. intros H. apply elem_of_list_to_map_2 in H.
  unfold subdirs.
  repeat (apply elem_of_cons in H as [H|H];
          [injection H as _ ->; set_solver|]).
  by apply elem_of_nil in H.
Qed.

Lemma type_dir_known (objectType : jsstring) :
  getObjectTypeDir objectType ∈ subdirs.
Proof.
  unfold getObjectTypeDir.
  destruct (typeMap !! toUpperCase objectType) as [v|] eqn:Hv; cbn.
  - by eapply typeMap_subdirs.
  - unfold subdirs. set_solver.
Qed.

(** X6: whatever the type, [getObjectTypeDir] gives one of the six
    directories that [ensureBackupDirs] creates, and "other" for a type
    whose upper-case form is not one of the eleven names of its table. *)
Theorem getObjectTypeDir_subdir (objectType : jsstring) :
  getObjectTypeDir objectType ∈ subdirs /\
  (typeMap !! toUpperCase objectType = None ->
   getObjectTypeDir objectType = str "other") /\
  (forall dir, typeMap !! toUpperCase objectType = Some dir ->
   getObjectTypeDir objectType = dir /\ dir <> str "other").
Proof.
  split; [apply type_dir_known|]. unfold getObjectTypeDir. split.
  - by intros ->.
  - intros dir Hdir. rewrite Hdir. split; [done|].
    unfold typeMap in Hdir. apply elem_of_list_to_map_2 in Hdir.
    repeat (apply elem_of_cons in Hdir as [Hdir|Hdir];
            [injection Hdir as _ ->; by vm_compute|]).
    by apply elem_of_nil in Hdir.
Qed.

Lemma sanitize_word_chars s : Forall (fun c => is_word_char c = true) (sanitize s).
Proof.
  unfold sanitize. induction s as [|c s IH]; cbn; [done|].
  constructor; [|done]. by destruct (is_word_char c) eqn:Hc.
Qed.

Lemma sanitize_clean s :
  Forall (fun c => is_word_char c = true) s -> sanitize s = s.
Proof.
  unfold sanitize. induction 1 as [|c s Hc _ IH]; [done|].
  cbn. by rewrite Hc, IH.
Qed.

(** X7: the file name that [generateBackupFilename] returns is a
    category directory, a slash, the object name with every character
    outside [a-zA-Z0-9_] replaced by an underscore (so as long as the name
    and without a slash or a dot of its own), an underscore, a time stamp
    and the suffix [.sql]; a name of word characters is used as it is. *)
Theorem generateBackupFilename_shape w (objectName objectType : jsstring) :
  exists typeDir name timestamp w',
    generateBackupFilename objectName objectType w
      = (Ok (typeDir ++ str "/" ++ name ++ str "_" ++ timestamp ++ str ".sql"),
         w') /\
    typeDir ∈ subdirs /\
    length name = length objectName /\
    Forall (fun c => is_word_char c = true) name /\
    (Forall (fun c => is_word_char c = true) objectName -> name = objectName).
Proof.
  eexists (getObjectTypeDir objectType), (sanitize objectName), _, _.
  split; [reflexivity|].
  split; [apply type_dir_known|].
  split; [apply length_map|].
  split; [apply sanitize_word_chars | apply sanitize_clean].
Qed.

(** *** Taking the header off *)

Lemma extract_is_drop content :
  exists k, extractDefinitionFromBackup content = drop k content.
Proof.
  unfold extractDefinitionFromBackup, substring_from.
  destruct (lastIndexOf _ _); [eauto|].
  destruct (statement_index _ _); [eauto|]. by exists 0.
Qed.

(** X8: [extractDefinitionFromBackup] only ever cuts text off the front:
    its result is a suffix of the content it was given. *)
Theorem extract_suffix (content : jsstring) :
  extractDefinitionFromBackup content `suffix_of` content.
Proof.
  destruct (extract_is_drop content) as [k ->]. apply suffix_drop.
Qed.

(** X9: whatever precedes the closing delimiter of the header (a header of
    another format, or text that holds the delimiter itself), the result
    of [extractDefinitionFromBackup] is the text after the last
    delimiter. So a definition that holds the delimiter comes back
    without its part up to that delimiter. *)
Theorem extract_after_last_delimiter (before rest : jsstring) :
  includes rest headerEndMarker = false ->
  extractDefinitionFromBackup (before ++ headerEndMarker ++ rest) = rest /\
  forall w objectName objectType schemaName definition operation database,
    exists content w',
      formatBackupContent objectName objectType schemaName
        (definition ++ headerEndMarker ++ rest) operation database w
        = (Ok content, w') /\
      extractDefinitionFromBackup content = rest.
Proof.
  intros Hclean. split; [by apply BackupProofs.extract_after_marker|].
  intros w objectName objectType schemaName definition operation database.
  eexists _, _. split; [reflexivity|].
  unfold formatBackupContent_at. rewrite !app_assoc, <- app_assoc.
  by apply BackupProofs.extract_after_marker.
Qed.

Lemma statement_index_Some s : forall i k,
  statement_index s i = Some k ->
  exists n, k = i + n /\ statement_at s n /\
            forall j, j < n -> ~ statement_at s j.
Proof.
  unfold statement_at.
  induction s as [|c s IH]; intros i k; cbn [statement_index].
  - destruct (statement_here []) eqn:Hhere; [|done].
    intros [= <-]. exists 0. split; [lia|]. split; [done | lia].
  - destruct (statement_here (c :: s)) eqn:Hhere.
    + intros [= <-]. exists 0. split; [lia|]. split; [done | lia].
    + intros Hrest. apply IH in Hrest as (n & -> & Hn & Hfirst).
      exists (S n). split; [lia|]. split; [done|].
      intros [|j] Hj; cbn [drop]; [by rewrite Hhere|].
      apply Hfirst. lia.
Qed.

Lemma statement_index_None s : forall i,
  statement_index s i = None -> forall j, ~ statement_at s j.
Proof.
  unfold statement_at.
  induction s as [|c s IH]; intros i; cbn [statement_index].
  - destruct (statement_here []) eqn:Hhere; [done|].
    intros _ j. rewrite drop_nil. by rewrite Hhere.
  - destruct (statement_here (c :: s)) eqn:Hhere; [done|].
    intros Hrest [|j]; cbn [drop]; [by rewrite Hhere|]. by eapply IH.
Qed.

Lemma no_delimiter content :
  includes content headerEndMarker = false ->
  lastIndexOf content headerEndMarker = None.
Proof.
  intros Hnone. apply StringProofs.lastIndexOf_from_None.
  intros k _. by apply StringProofs.includes_false_drop.
Qed.

(** X10: on a content without the closing delimiter,
    [extractDefinitionFromBackup] returns the text from the first place
    at which a CREATE or ALTER statement of a known kind starts, and the
    whole content when there is no such place. *)
Theorem extract_fallback (content : jsstring) :
  includes content headerEndMarker = false ->
  (forall k, statement_at content k ->
     exists first,
       first <= k /\ statement_at content first /\
       (forall j, j < first -> ~ statement_at content j) /\
       extractDefinitionFromBackup content = drop first content) /\
  ((forall k, ~ statement_at content k) ->
     extractDefinitionFromBackup content = content).
Proof.
  intros Hnone. unfold extractDefinitionFromBackup.
  rewrite no_delimiter by done.
  destruct (statement_index content 0) as [k0|] eqn:Hindex.
  - apply statement_index_Some in Hindex as (n & -> & Hn & Hfirst).
    split.
    + intros k Hk. exists n. repeat split; try done.
      destruct (decide (n <= k)); [done|]. exfalso. apply (Hfirst k); [lia|done].
    + intros Hnever. by destruct (Hnever n).
  - split; [|done].
    intros k Hk. exfalso. by eapply statement_index_None.
Qed.

(** *** Looking a backup up *)

Lemma find_first {A} (p : A -> bool) (l : list A) x :
  List.find p l = Some x ->
  p x = true /\
  exists pre post, l = pre ++ x :: post /\ forall y, y ∈ pre -> p y = false.
Proof.
  induction l as [|a l IH]; [done|]. cbn.
  destruct (p a) eqn:Ha.
  - intros [= <-]. split; [done|]. exists [], l. split; [done|].
    intros y Hy. by apply elem_of_nil in Hy.
  - intros Hfind. apply IH in Hfind as (Hx & pre & post & -> & Hpre).
    split; [done|]. exists (a :: pre), post. split; [done|].
    intros y [->|Hy]%elem_of_cons; auto.
Qed.

Lemma find_nothing {A} (p : A -> bool) (l : list A) :
  List.find p l = None -> forall y, y ∈ l -> p y = false.
Proof.
  intros Hfind y Hy. eapply find_none; [done|]. by apply list_elem_of_In.
Qed.

(** X11: over a log file that is absent, unparsable or a backup log,
    [getBackupById] does not throw and leaves the store as it is (it
    reads the clock when there is no log to load). It returns the newest
    entry of the log that has the id, and null exactly when no entry has
    it. Over a log file that holds JSON without a member [backups] it
    throws the TypeError of [log.backups.find]. *)
Theorem getBackupById_first w (backupId : jsstring) :
  match logFile w with
  | LogForeign type_error =>
      getBackupById backupId w = (Throw (type_error (str "find")), w)
  | _ =>
      exists r w',
        getBackupById backupId w = (Ok r, w') /\ later w w' /\
        match r with
        | Some b =>
            BackupEntry.id b = backupId /\
            exists newer older,
              log_of w = newer ++ b :: older /\
              forall x, x ∈ newer -> BackupEntry.id x <> backupId
        | None => forall x, x ∈ log_of w -> BackupEntry.id x <> backupId
        end
  end.
Proof.
  apply BackupProofs.log_cases;
    [intros Htyped
    |intros type_error Hlog; by apply BackupProofs.getBackupById_foreign].
  destruct (BackupProofs.getBackupById_run w backupId Htyped)
    as (w' & Hrun & Hlater).
  exists (entry_of w backupId), w'. split; [done|]. split; [done|].
  unfold entry_of.
  destruct (List.find _ (log_of w)) as [b|] eqn:Hfind.
  - apply find_first in Hfind as (Hb & newer & older & Hlog & Hnewer).
    split; [by apply bool_decide_eq_true in Hb|].
    exists newer, older. split; [done|].
    intros x Hx. specialize (Hnewer x Hx).
    by apply bool_decide_eq_false in Hnewer.
  - intros x Hx. pose proof (find_nothing _ _ Hfind x Hx) as Hno.
    by apply bool_decide_eq_false in Hno.
Qed.

(** X12: over a log file that is absent, unparsable or a backup log,
    [getBackupContent] does not throw and leaves the store as it is. It
    returns a text exactly when the log has an entry with the id whose
    content file is there, is a file and can be read; the text is then
    what the file decodes to, without its leading BOM, or as it is when
    it does not start with a BOM. In every other case (no entry, no
    file, a directory in its place, a read that throws) it returns null.
    Over a log file that holds JSON without a member [backups] it throws
    the TypeError of [log.backups.find]. *)
Theorem getBackupContent_cases w (backupId : jsstring) :
  match logFile w with
  | LogForeign type_error =>
      getBackupContent backupId w = (Throw (type_error (str "find")), w)
  | _ =>
      exists r w',
        getBackupContent backupId w = (Ok r, w') /\ later w w' /\
        forall text,
          r = Some text <->
          exists b content,
            entry_of w backupId = Some b /\
            files w !! file_path w b = Some (File content) /\
            read_fails w (file_path w b) = None /\
            (toWellFormed content = UTF8_BOM ++ text \/
             (toWellFormed content = text /\
              forall rest, toWellFormed content <> UTF8_BOM ++ rest))
  end.
Proof.
  apply BackupProofs.log_cases;
    [intros Htyped
    |intros type_error Hlog; by apply BackupProofs.getBackupContent_foreign].
  destruct (BackupProofs.getBackupContent_run w backupId Htyped)
    as (w' & Hrun & Hlater).
  exists (content_of w backupId), w'. split; [done|]. split; [done|].
  assert (forall content text,
    strip_bom content = text <->
    (content = UTF8_BOM ++ text \/
     (content = text /\ forall rest, content <> UTF8_BOM ++ rest))) as Hbom.
  { intros content text. unfold strip_bom, UTF8_BOM.
    destruct content as [|c content].
    - split; [intros <-; right; by split|]. by intros [?|[? _]].
    - destruct (N.eqb_spec c 65279) as [->|Hne].
      + split; [intros <-; by left|].
        intros [[= ->]|[_ Hno]]; [done|]. by destruct (Hno content).
      + split.
        * intros <-. right. split; [done|]. intros rest [= ? _]. done.
        * intros [[= ? _]|[? _]]; done. }
  intros text. unfold content_of, readable_text.
  destruct (entry_of w backupId) as [b|]; cbn.
  - destruct (read_fails w (file_path w b)) as [e|] eqn:Hread.
    + split; [done|]. intros (b' & content & [= <-] & _ & Hr & _).
      congruence.
    + destruct (files w !! file_path w b) as [[content|]|] eqn:Hfile.
      * split.
        -- intros [= Htext]. exists b, content.
           repeat (split; [done|]). by apply Hbom.
        -- intros (b' & content' & [= <-] & Hfile' & _ & Htext).
           rewrite Hfile in Hfile'. injection Hfile' as <-.
           f_equal. by apply Hbom.
      * split; [done|]. intros (b' & content' & [= <-] & Hfile' & _).
        congruence.
      * split; [done|]. intros (b' & content' & [= <-] & Hfile' & _).
        congruence.
  - split; [done|]. by intros (b & content & ? & _).
Qed.

(** *** Retention by count, in every case *)

(** X13: [cleanupOldBackups] never throws, whatever the cap and whatever
    fails on disk: it returns a log whose entries are entries of the log
    it was given, in their order, and on disk it only deletes files. When
    the object has no more entries than the cap, the log and the files
    are as they were. *)
Theorem cleanupOldBackups_safe w (log : BackupLog.t) (objectName : jsstring)
    (maxBackups : Z) :
  exists log' fs',
    cleanupOldBackups log objectName maxBackups w
      = (Ok log', set_files w fs') /\
    BackupLog.backups log' `sublist_of` BackupLog.backups log /\
    only_fewer (files w) fs' /\
    ((Z.of_nat (length (List.filter (same_name objectName)
                          (BackupLog.backups log))) <= maxBackups)%Z ->
     log' = log /\ fs' = files w).
Proof.
  destruct (CreateProofs.cleanupOldBackups_run log objectName maxBackups w)
    as (log' & fs' & Hrun & Hsub & Hfs).
  exists log', fs'. do 3 (split; [done|]).
  intros Hunder. revert Hrun. unfold cleanupOldBackups.
  rewrite (proj2 (Z.ltb_ge _ _)) by done.
  unfold ret. intros [= <- Hw]. split; [done|].
  apply (f_equal files) in Hw. by cbn in Hw.
Qed.

(** X14: a negative cap does not switch retention off. With the cap
    [- j], distinct ids in the log and no deletion that throws,
    [cleanupOldBackups] removes all but the [j] oldest entries of the
    object: it keeps the [N - j] most recent of its [N] entries, which
    are none when [j] is [N] or more. *)
Theorem cleanupOldBackups_negative_cap w (log : BackupLog.t)
    (objectName : jsstring) (maxBackups : Z) :
  (maxBackups < 0)%Z ->
  let N := length (List.filter (same_name objectName) (BackupLog.backups log)) in
  let K := N - Z.to_nat (- maxBackups) in
  let gone := excess objectName K (BackupLog.backups log) in
  NoDup (BackupEntry.id <$> BackupLog.backups log) ->
  (forall b, b ∈ gone -> delete_throws w b = false) ->
  exists log',
    cleanupOldBackups log objectName maxBackups w
      = (Ok log', set_files w (without_files w gone (files w))) /\
    BackupLog.backups log' = keep_recent objectName K (BackupLog.backups log) /\
    List.filter (same_name objectName) (BackupLog.backups log')
      = take K (List.filter (same_name objectName) (BackupLog.backups log)) /\
    List.filter (fun b => negb (same_name objectName b)) (BackupLog.backups log')
      = List.filter (fun b => negb (same_name objectName b))
          (BackupLog.backups log) /\
    length gone = Nat.min (Z.to_nat (- maxBackups)) N.
Proof.
  intros Hneg N K gone Hnodup Hok.
  exists (BackupLog.set_backups log
            (keep_recent objectName K (BackupLog.backups log))).
  split; [|split; [done|]; split; [|split]].
  - unfold cleanupOldBackups. fold N.
    rewrite (proj2 (Z.ltb_lt _ _)) by lia.
    unfold slice_from. rewrite (proj2 (Z.ltb_lt _ _)) by done.
    fold N.
    replace (Z.to_nat (Z.max (Z.of_nat N + maxBackups) 0)) with K by lia.
    fold (excess objectName K (BackupLog.backups log)). fold gone.
    unfold bind.
    rewrite (EvictionProofs.world_as_update w) at 1.
    rewrite EvictionProofs.evict_loop_run
      by (done || apply BackupProofs.only_deleted_refl).
    unfold ret. unfold gone at 1. by rewrite EvictionProofs.evict_excess.
  - apply EvictionProofs.keep_recent_same_name.
  - apply EvictionProofs.keep_recent_others.
  - unfold gone, excess. rewrite length_drop. fold N. lia.
Qed.

(** *** Cleanup by age, in every case *)

Lemma cleanupByAge_foreign w (days : Z) type_error :
  logFile w = LogForeign type_error ->
  cleanupByAge days w
  = (Throw (type_error (str "[Symbol.iterator]")),
     set_ticks w (S (ticks w))).
Proof.
  intros Hlog. unfold cleanupByAge.
  by rewrite (BackupProofs.bind_Ok _ _ _ _ _
                (BackupProofs.loadBackupLog_foreign _ _ Hlog)).
Qed.

Lemma cleanupByAge_run w (days : Z) :
  log_typed w ->
  exists n log,
    BackupLog.backups log = log_of w /\
    let cutoff := setDate (clock w n) (getDate (clock w n) - days) in
    let kept := List.filter (retained w cutoff) (log_of w) in
    let gone := List.filter (aged_out w cutoff) (log_of w) in
    let w1 := set_ticks (set_files w (without_files w gone (files w)))
                (S (S n)) in
    cleanupByAge days w =
    match write_fails w (log_path w) with
    | None =>
        (Ok (length gone),
         set_logFile w1
           (LogStored (BackupLog.set_updated_at (BackupLog.set_backups log kept)
                         (toISOString (clock w (S n))))))
    | Some e => (Throw e, w1)
    end.
Proof.
  intros Htyped.
  destruct (BackupProofs.loadBackupLog_run w Htyped)
    as (log & w1 & Hload & [n ->] & Hlog).
  exists n, log. split; [done|]. intros cutoff kept gone w1.
  unfold cleanupByAge. rewrite (BackupProofs.bind_Ok _ _ _ _ _ Hload).
  unfold bind at 1. unfold new_Date at 1. world_fields.
  unfold as_log. unfold bind at 1. unfold ret at 1.
  unfold bind at 1.
  pose proof (BackupProofs.age_loop_run w cutoff (S n) (BackupLog.backups log)
                (files w) 0 [] (BackupProofs.only_deleted_refl w)) as Hloop.
  replace (set_files (set_ticks w (S n)) (files w))
    with (set_ticks w (S n)) in Hloop by (by destruct w).
  fold cutoff.
  change (set_ticks (set_ticks w n) (S n)) with (set_ticks w (S n)).
  rewrite Hloop, Hlog. cbn [app Nat.add]. fold kept gone.
  unfold bind at 1.
  destruct (write_fails w (log_path w)) as [e|] eqn:Hwrite.
  - by rewrite (BackupProofs.saveBackupLog_throw _ _ e).
  - by rewrite BackupProofs.saveBackupLog_run.
Qed.

(** X15: when the log cannot be written back, [cleanupByAge] throws the
    error of the write after it has deleted the content files of the
    entries that are older than the cutoff: the log on disk is as it
    was and still lists those entries, whose files are gone. When the
    log file holds JSON without a member [backups], there is no entry,
    and [cleanupByAge] throws the TypeError of its loop over
    [log.backups] before it comes to the write. *)
Theorem cleanupByAge_log_write_fails w (days : Z) (e : jsstring) :
  write_fails w (log_path w) = Some e ->
  match logFile w with
  | LogForeign type_error =>
      cleanupByAge days w
      = (Throw (type_error (str "[Symbol.iterator]")),
         set_ticks w (S (ticks w)))
  | _ =>
      exists cutoff w',
        (exists t,
           cutoff = setDate (clock w t) (getDate (clock w t) - days)) /\
        cleanupByAge days w = (Throw e, w') /\
        logFile w' = logFile w /\
        files w' = without_files w
                     (List.filter (aged_out w cutoff) (log_of w)) (files w) /\
        forall b, b ∈ log_of w -> aged_out w cutoff b = true ->
          b ∈ log_of w' /\ files w' !! file_path w b = None
  end.
Proof.
  intros Hwrite. apply BackupProofs.log_cases;
    [intros Htyped
    |intros type_error Hfile; by apply cleanupByAge_foreign].
  destruct (cleanupByAge_run w days Htyped) as (n & log & Hlog & Hrun).
  cbn zeta in Hrun. rewrite Hwrite in Hrun.
  eexists _, _. split; [by exists n|]. split; [exact Hrun|].
  split; [done|]. split; [done|].
  intros b Hb Hold. split; [done|].
  cbn [files set_ticks set_files].
  rewrite EvictionProofs.without_files_lookup.
  rewrite bool_decide_true; [done|].
  apply list_elem_of_fmap_2, EvictionProofs.elem_of_filter_bool. by split.
Qed.

(** X16: however [cleanupByAge] ends (with a count, or with the error
    of a log that cannot be written back or that has no member
    [backups]), an entry whose time stamp is not a date is still in the
    log, however old the cutoff; and when the cutoff itself is not a
    date, nothing is removed: the entries and the files are as they
    were, and a count that is returned is 0. *)
Theorem cleanupByAge_keeps_undated w (days : Z) :
  exists o w',
    cleanupByAge days w = (o, w') /\
    o <> Hang /\
    (forall b, b ∈ log_of w ->
       Date_parse (BackupEntry.timestamp b) = None -> b ∈ log_of w') /\
    ((forall t, setDate (clock w t) (getDate (clock w t) - days) = None) ->
       log_of w' = log_of w /\ files w' = files w /\
       forall count, o = Ok count -> count = 0).
Proof.
  destruct (BackupProofs.typed_or_foreign w) as [Htyped|[type_error Hfile]].
  2:{ eexists _, _. split; [by apply cleanupByAge_foreign|].
      split; [done|]. split; [|done].
      intros b Hb. rewrite (BackupProofs.foreign_log_of _ _ Hfile) in Hb.
      by apply elem_of_nil in Hb. }
  destruct (cleanupByAge_run w days Htyped) as (n & log & Hlog & Hrun).
  cbn zeta in Hrun.
  assert (forall bs : list BackupEntry.t,
            List.filter (aged_out w None) bs = []) as Hnone.
  { intros bs. induction bs as [|b bs IH]; [done|]. cbn.
    unfold aged_out at 1, older_than.
    by destruct (Date_parse (BackupEntry.timestamp b)). }
  destruct (write_fails w (log_path w)) as [e|] eqn:Hwrite.
  - eexists _, _. split; [exact Hrun|]. split; [done|]. split; [done|].
    intros Hcutoff. rewrite Hcutoff, Hnone.
    split; [done|]. split; [done|]. by intros count.
  - eexists _, _. split; [exact Hrun|]. split; [done|]. split.
    + intros b Hb Hdate. unfold log_of at 1. cbn.
      apply EvictionProofs.elem_of_filter_bool. split; [done|].
      unfold retained, older_than. by rewrite Hdate.
    + intros Hcutoff. rewrite Hcutoff, Hnone.
      split; [|split; [done|]; by intros count [= <-]].
      unfold log_of at 1. cbn. apply EvictionProofs.filter_all.
      intros b _. unfold retained, older_than.
      by destruct (Date_parse (BackupEntry.timestamp b)).
Qed.

(** *** The directories *)

Lemma extends_refl w : extends w w.
Proof. split; [by destruct w | done]. Qed.

Lemma extends_trans w1 w2 w3 : extends w1 w2 -> extends w2 w3 -> extends w1 w3.
Proof.
  intros [H12 Hkeep12] [H23 Hkeep23]. split.
  - rewrite H23, H12. by destruct w1.
  - intros p Hp. rewrite Hkeep23, Hkeep12; [done..|].
    unfold present. by rewrite Hkeep12.
Qed.

Lemma extends_present w w' p : extends w w' -> present w p -> present w' p.
Proof. intros [_ Hkeep] Hp. unfold present. by rewrite Hkeep. Qed.

(** One directory: [if (!existsSync(p)) mkdirSync(p, { recursive: true })]. *)
Lemma ensure_dir_run p w :
  exists o w',
    when (negb (bool_decide (is_Some (files w !! p)))) (mkdirSync p) w
      = (o, w') /\
    extends w w' /\
    match o with
    | Ok _ => present w' p
    | Throw _ => ~ present w p
    | Hang => False
    end /\
    (present w p -> o = Ok tt /\ w' = w).
Proof.
  unfold when, mkdirSync, present.
  destruct (files w !! p) as [node|] eqn:Hp.
  - rewrite bool_decide_true by done. cbn.
    eexists _, _. split; [reflexivity|]. split; [apply extends_refl|].
    rewrite Hp. by split.
  - rewrite bool_decide_false by (by intros [? ?]). cbn.
    destruct (mkdir_fails w p) as [e|].
    + eexists _, _. split; [reflexivity|]. split; [apply extends_refl|].
      split; [by intros [? ?] | by intros [? ?]].
    + rewrite Hp. eexists _, _. split; [reflexivity|].
      split; [|split; [|by intros [? ?]]].
      * split; [done|]. intros q [node Hq]. cbn.
        rewrite lookup_insert_ne; [done|]. congruence.
      * cbn. by rewrite lookup_insert_eq.
Qed.

Lemma ensure_dirs_run (f : jsstring -> jsstring) dirs : forall w,
  exists o w',
    for_of (fun (_ : unit) d =>
              there <- existsSync (f d) ;; when (negb there) (mkdirSync (f d)))
      dirs tt w = (o, w') /\
    extends w w' /\
    match o with
    | Ok _ => forall d, d ∈ dirs -> present w' (f d)
    | Throw _ => exists d, d ∈ dirs /\ ~ present w (f d)
    | Hang => False
    end /\
    ((forall d, d ∈ dirs -> present w (f d)) -> o = Ok tt /\ w' = w).
Proof.
  induction dirs as [|d dirs IH]; intros w.
  - exists (Ok tt), w. split; [done|]. split; [apply extends_refl|].
    split; [|done]. intros d Hd. by apply elem_of_nil in Hd.
  - cbn [for_of].
    destruct (ensure_dir_run (f d) w) as (o1 & w1 & Hrun1 & Hext1 & Ho1 & Hid1).
    unfold bind at 1 2. unfold existsSync at 1. rewrite Hrun1.
    destruct o1 as [[]|e|]; [|clear IH|done].
    + destruct (IH w1) as (o2 & w2 & Hrun2 & Hext2 & Ho2 & Hid2).
      exists o2, w2. split; [done|].
      split; [by eapply extends_trans|]. split.
      * destruct o2 as [[]|e|]; [| |done].
        -- intros d' [->|Hd']%elem_of_cons; [|by apply Ho2].
           by eapply extends_present.
        -- destruct Ho2 as (d' & Hd' & Hnot).
           exists d'. split; [by apply list_elem_of_further|].
           intros Hp. apply Hnot. by eapply extends_present.
      * intros Hall.
        destruct Hid1 as [_ ->]; [apply Hall, list_elem_of_here|].
        apply Hid2. intros d' Hd'. by apply Hall, list_elem_of_further.
    + exists (Throw e), w1. split; [done|]. split; [done|]. split.
      * exists d. split; [apply list_elem_of_here | done].
      * intros Hall. destruct Hid1 as [? _]; [|done].
        apply Hall, list_elem_of_here.
Qed.

Lemma ensureBackupDirs_run w :
  exists o w',
    ensureBackupDirs w = (o, w') /\
    extends w w' /\
    match o with
    | Ok _ => forall p, p ∈ backup_dirs w -> present w' p
    | Throw _ => exists p, p ∈ backup_dirs w /\ ~ present w p
    | Hang => False
    end /\
    ((forall p, p ∈ backup_dirs w -> present w p) -> o = Ok tt /\ w' = w).
Proof.
  unfold ensureBackupDirs, backup_dirs.
  rewrite (BackupProofs.bind_Ok _ _ _ _ _ (BackupProofs.getBackupDir_run w)).
  destruct (ensure_dir_run (backup_dir w) w)
    as (o1 & w1 & Hrun1 & Hext1 & Ho1 & Hid1).
  unfold bind at 1 2. unfold existsSync at 1. rewrite Hrun1.
  destruct o1 as [[]|e|]; [|clear Hid1|done].
  - destruct (ensure_dirs_run (path_join (backup_dir w)) subdirs w1)
      as (o2 & w2 & Hrun2 & Hext2 & Ho2 & Hid2).
    exists o2, w2. split; [exact Hrun2|].
    split; [by eapply extends_trans|]. split.
    + destruct o2 as [[]|e|]; [| |done].
      * intros p [->|Hp]%elem_of_cons; [by eapply extends_present|].
        apply list_elem_of_fmap in Hp as (d & -> & Hd). by apply Ho2.
      * destruct Ho2 as (d & Hd & Hnot).
        exists (path_join (backup_dir w) d).
        split; [by apply list_elem_of_further, list_elem_of_fmap_2|].
        intros Hp. apply Hnot. by eapply extends_present.
    + intros Hall.
      destruct Hid1 as [_ ->]; [apply Hall, list_elem_of_here|].
      apply Hid2. intros d Hd.
      by apply Hall, list_elem_of_further, list_elem_of_fmap_2.
  - exists (Throw e), w1. split; [done|]. split; [done|]. split.
    + exists (backup_dir w). split; [apply list_elem_of_here | done].
    + intros Hall. exfalso. apply Ho1, Hall, list_elem_of_here.
Qed.

(** X17: [ensureBackupDirs] always ends. It changes nothing but the
    files, and what was on disk stays as it was. When it returns, the
    backup directory and its six category directories are there, and a
    second call changes nothing; it throws only if one of them was
    missing. *)
Theorem ensureBackupDirs_post w :
  exists o w',
    ensureBackupDirs w = (o, w') /\
    extends w w' /\
    match o with
    | Ok _ =>
        (forall p, p ∈ backup_dirs w -> present w' p) /\
        ensureBackupDirs w' = (Ok tt, w')
    | Throw _ => exists p, p ∈ backup_dirs w /\ ~ present w p
    | Hang => False
    end.
Proof.
  destruct (ensureBackupDirs_run w) as (o & w' & Hrun & Hext & Ho & _).
  exists o, w'. split; [done|]. split; [done|].
  destruct o as [[]|e|]; [|done..].
  split; [done|].
  assert (backup_dirs w' = backup_dirs w) as Hdirs.
  { destruct Hext as [-> _]. reflexivity. }
  destruct (ensureBackupDirs_run w') as (o2 & w2 & Hrun2 & _ & _ & Hid2).
  rewrite Hrun2. rewrite Hdirs in Hid2. by destruct (Hid2 Ho) as [-> ->].
Qed.

End Proofs.
End StoreProofs.
Module LifecycleProofs.
Import JS Store Backup BackupSpec StoreSpec.
Local Open Scope js_scope.

Section Proofs.
Context {P : Platform}.

Lemma same_env_refl w : same_env w w.
Proof. by repeat split. Qed.

Lemma same_env_trans w1 w2 w3 :
  same_env w1 w2 -> same_env w2 w3 -> same_env w1 w3.
Proof.
  intros (? & ? & ? & ? & ? & ? & ? & ?) (? & ? & ? & ? & ? & ? & ? & ?).
  repeat split; congruence.
Qed.

Lemma grown_refl w : grown w w.
Proof. split; [apply same_env_refl | by split]. Qed.

Lemma grown_trans w1 w2 w3 : grown w1 w2 -> grown w2 w3 -> grown w1 w3.
Proof.
  intros (He12 & Hl12 & Hf12) (He23 & Hl23 & Hf23).
  split; [by eapply same_env_trans|]. split; [congruence|].
  intros p Hp. rewrite Hf23, Hf12; [done..|].
  unfold present. by rewrite Hf12.
Qed.

Lemma extends_grown w w' : extends w w' -> grown w w'.
Proof. intros [-> Hkeep]. split; [by repeat split|]. by split. Qed.

Lemma grown_clock w n d : grown w (set_draws (set_ticks w n) d).
Proof. split; [by repeat split|]. by split. Qed.

Lemma grown_paths w w' :
  grown w w' -> backup_dir w' = backup_dir w /\ log_path w' = log_path w.
Proof.
  intros ((Hcfg & Hroot & _) & _). unfold log_path, backup_dir.
  by rewrite Hcfg, Hroot.
Qed.

Lemma grown_tick w n : grown w (set_ticks w n).
Proof. split; [by repeat split|]. by split. Qed.

Lemma grown_log_of w w' : grown w w' -> log_of w' = log_of w.
Proof. intros (_ & Hlog & _). unfold log_of. by rewrite Hlog. Qed.

Lemma writeFileSync_cases p content w :
  exists o w',
    writeFileSync p content w = (o, w') /\
    match o with
    | Ok _ => w' = set_files w (<[p := File (toWellFormed content)]> (files w))
    | Throw _ => w' = w
    | Hang => False
    end.
Proof.
  unfold writeFileSync.
  destruct (write_fails w p); [by eexists _, _|].
  destruct (files w !! p) as [[]|]; by eexists _, _.
Qed.

Ltac env :=
  repeat match goal with
         | H : grown _ _ |- _ => destruct H as (? & ? & ?)
         | H : same_env _ _ |- _ => destruct H as (? & ? & ? & ? & ? & ? & ? & ?)
         end;
  unfold same_env; cbn; repeat split; congruence.

(** What a call of [createBackup] does when backups are enabled: it
    returns a failure and leaves the log file alone, or it has written
    the content file, which holds what UTF-8 keeps of the content, run
    the eviction on the log with the new entry at its head, if that is
    configured, and saved the log. *)
Lemma createBackup_run (objectName objectType schemaName definition : jsstring)
    (operation : Operation) (database : jsstring) w :
  BackupConfig.enabled (config w) = true ->
  exists r w',
    createBackup objectName objectType schemaName definition operation
      database w = (Ok r, w') /\
    same_env w w' /\
    (((exists e, r = BackupResult.mk false
                       (str "Failed to create backup: " ++ e) [] []) /\
      logFile w' = logFile w)
     \/
     exists suffix stamp t t' w_mid log0 log1 w_after updated,
       let backupId := str "bkp_" ++ suffix in
       let backupFilename :=
         getObjectTypeDir objectType ++ str "/" ++ sanitize objectName
         ++ str "_" ++ stamp ++ str ".sql" in
       let content :=
         formatBackupContent_at (clock w t) objectName objectType schemaName
           definition (operation_name operation) database in
       let entry :=
         new_entry backupId (toISOString (clock w t')) operation objectType
           objectName schemaName database backupFilename content in
       r = BackupResult.mk true (str "Backup created successfully")
             backupFilename backupId /\
       same_env w w_mid /\ logFile w_mid = logFile w /\
       files w_mid !! file_path w entry
         = Some (File (toWellFormed content)) /\
       (forall p, p <> file_path w entry -> present w p ->
                  files w_mid !! p = files w !! p) /\
       BackupLog.backups log0 = log_of w /\
       (if BackupConfig.auto_cleanup (config w)
        then cleanupOldBackups
               (BackupLog.set_backups log0 (entry :: log_of w)) objectName
               (BackupConfig.max_backups_per_object (config w)) w_mid
             = (Ok log1, w_after)
        else log1 = BackupLog.set_backups log0 (entry :: log_of w) /\
             w_after = w_mid) /\
       w' = set_logFile (set_ticks w_after (S (ticks w_after)))
              (LogStored (BackupLog.set_updated_at log1 updated))).
Proof.
  intros Henabled. unfold createBackup.
  rewrite (BackupProofs.bind_Ok _ _ _ _ _
             (eq_refl : getBackupConfig w = (Ok (config w), w))).
  rewrite Henabled. cbn [negb]. unfold try_catch.
  (* the directories *)
  destruct (StoreProofs.ensureBackupDirs_run w)
    as (o1 & w1 & H1 & G1%extends_grown & Ho1 & _).
  destruct o1 as [[]|e|]; [|clear Ho1|done].
  2:{ rewrite (BackupProofs.bind_Throw _ _ _ _ _ H1).
      eexists _, _. split; [reflexivity|].
      split; [apply G1|]. left. split; [by exists e | apply G1]. }
  rewrite (BackupProofs.bind_Ok _ _ _ _ _ H1). clear H1 Ho1.
  (* the id and the file name *)
  assert (clock w1 = clock w) as Hclock1 by apply G1.
  set (suffix := toString36 (clock w (ticks w1)) ++ str "_"
                 ++ random w1 (draws w1)).
  assert (generateBackupId w1
          = (Ok (str "bkp_" ++ suffix),
             set_draws (set_ticks w1 (S (ticks w1))) (S (draws w1)))) as H2
    by (subst suffix; by rewrite <- Hclock1).
  rewrite (BackupProofs.bind_Ok _ _ _ _ _ H2). clear H2.
  pose proof (grown_trans _ _ _ G1 (grown_clock w1 (S (ticks w1))
                                      (S (draws w1)))) as G2.
  clearbody suffix.
  generalize dependent (set_draws (set_ticks w1 (S (ticks w1))) (S (draws w1))).
  clear dependent w1. intros w2 G2.
  set (stamp := strip_fraction
                  (replace_first 84 95
                     (strip_dash_colon (toISOString (clock w2 (ticks w2)))))).
  set (backupFilename := getObjectTypeDir objectType ++ str "/"
         ++ sanitize objectName ++ str "_" ++ stamp ++ str ".sql").
  rewrite (BackupProofs.bind_Ok _ _ _ _ _
             (eq_refl : generateBackupFilename objectName objectType w2
                        = (Ok backupFilename, set_ticks w2 (S (ticks w2))))).
  pose proof (grown_trans _ _ _ G2 (grown_tick w2 (S (ticks w2)))) as G3.
  clearbody stamp.
  generalize dependent (set_ticks w2 (S (ticks w2))).
  clear dependent w2. intros w3 G3.
  rewrite (BackupProofs.bind_Ok _ _ _ _ _ (BackupProofs.getBackupDir_run w3)).
  destruct (grown_paths _ _ G3) as [Hdir3 Hlogpath3]. rewrite Hdir3.
  set (path := path_join (backup_dir w) backupFilename).
  (* the directory of the file *)
  destruct (StoreProofs.ensure_dir_run (path_dirname path) w3)
    as (o4 & w4 & H4 & G4%extends_grown & Ho4 & _).
  unfold bind at 1 2. unfold existsSync at 1. rewrite H4.
  pose proof (grown_trans _ _ _ G3 G4) as G4'.
  clear H4 G4 Hdir3 Hlogpath3.
  destruct o4 as [[]|e|]; [| |done].
  2:{ eexists _, _. split; [reflexivity|].
      split; [apply G4'|]. left. split; [by exists e | apply G4']. }
  clear Ho4. clear dependent w3.
  (* the content and the write *)
  assert (clock w4 = clock w) as Hclock4 by apply G4'.
  set (t := ticks w4).
  set (content := formatBackupContent_at (clock w t) objectName
                    objectType schemaName definition
                    (operation_name operation) database).
  assert (formatBackupContent objectName objectType schemaName
            definition (operation_name operation) database w4
          = (Ok content, set_ticks w4 (S (ticks w4)))) as H5
    by (subst content t; by rewrite <- Hclock4).
  rewrite (BackupProofs.bind_Ok _ _ _ _ _ H5). clear H5.
  pose proof (grown_trans _ _ _ G4' (grown_tick w4 (S (ticks w4)))) as G5.
  clearbody t.
  generalize dependent (set_ticks w4 (S (ticks w4))).
  clear dependent w4. intros w5 G5.
  destruct (writeFileSync_cases path content w5) as (o6 & w6 & H6 & Ho6).
  unfold bind at 1. rewrite H6. clear H6.
  destruct o6 as [[]|e|]; [| |done].
  2:{ subst w6. eexists _, _. split; [reflexivity|].
      split; [apply G5|]. left. split; [by exists e | apply G5]. }
  (* the log *)
  destruct (BackupProofs.typed_or_foreign w6) as [Htyped|[type_error Hforeign]].
  2:{ rewrite (BackupProofs.bind_Ok _ _ _ _ _
                 (BackupProofs.loadBackupLog_foreign _ _ Hforeign)).
      rewrite (BackupProofs.bind_Ok _ _ _ _ _
                 (eq_refl : new_Date w6
                            = (Ok (clock w6 (ticks w6)),
                               set_ticks w6 (S (ticks w6))))).
      cbn zeta. unfold as_log, throw. unfold bind at 1.
      subst w6. eexists _, _. split; [reflexivity|].
      split; [env|]. left. split; [by eexists | apply G5]. }
  destruct (BackupProofs.loadBackupLog_run w6 Htyped)
    as (log0 & w7 & H7 & [n ->] & Hlog0).
  rewrite (BackupProofs.bind_Ok _ _ _ _ _ H7). clear H7.
  rewrite (BackupProofs.bind_Ok _ _ _ _ _
             (eq_refl : new_Date (set_ticks w6 n)
                        = (Ok (clock w6 n), set_ticks w6 (S n)))).
  cbn zeta. unfold as_log.
  rewrite (BackupProofs.bind_Ok _ _ _ _ _
             (eq_refl : ret log0 (set_ticks w6 (S n))
                        = (Ok log0, set_ticks w6 (S n)))).
  assert (clock w6 = clock w) as Hclock6 by (subst w6; apply G5).
  assert (log_of w6 = log_of w) as Hlog6
    by (subst w6; apply (grown_log_of _ _ G5)).
  rewrite Hclock6, Hlog0, Hlog6. rewrite Hlog6 in Hlog0.
  set (entry := new_entry (str "bkp_" ++ suffix) (toISOString (clock w n))
                  operation objectType objectName schemaName database
                  backupFilename content).
  set (w_mid := set_ticks w6 (S n)).
  assert (same_env w w_mid /\ logFile w_mid = logFile w /\
          files w_mid !! file_path w entry
            = Some (File (toWellFormed content)) /\
          (forall p, p <> file_path w entry -> present w p ->
                     files w_mid !! p = files w !! p)) as Hmid.
  { subst w_mid w6. destruct G5 as (Henv & Hlogfile & Hfiles).
    split; [env|]. split; [done|]. cbn. split.
    - apply lookup_insert_eq.
    - intros p Hp Hwas. rewrite lookup_insert_ne by done. by apply Hfiles. }
  clearbody w_mid. clear dependent w6. clear dependent w5.
  destruct Hmid as (Henv & Hlogfile & Hfile & Hothers).
  assert (exists log1 w_after,
    (if BackupConfig.auto_cleanup (config w)
     then cleanupOldBackups (BackupLog.set_backups log0 (entry :: log_of w))
            objectName (BackupConfig.max_backups_per_object (config w))
     else ret (BackupLog.set_backups log0 (entry :: log_of w))) w_mid
    = (Ok log1, w_after) /\
    same_env w w_after /\ logFile w_after = logFile w /\
    (if BackupConfig.auto_cleanup (config w)
     then cleanupOldBackups (BackupLog.set_backups log0 (entry :: log_of w))
            objectName (BackupConfig.max_backups_per_object (config w)) w_mid
          = (Ok log1, w_after)
     else log1 = BackupLog.set_backups log0 (entry :: log_of w) /\
          w_after = w_mid)) as (log1 & w_after & H9 & Henv9 & Hlogfile9 & Hclean).
  { destruct (BackupConfig.auto_cleanup (config w)).
    - destruct (CreateProofs.cleanupOldBackups_run
                  (BackupLog.set_backups log0 (entry :: log_of w)) objectName
                  (BackupConfig.max_backups_per_object (config w)) w_mid)
        as (log1 & fs' & Hrun & _).
      exists log1, (set_files w_mid fs').
      split; [done|]. split; [env|]. by split.
    - by eexists _, _. }
  rewrite (BackupProofs.bind_Ok _ _ _ _ _ H9). clear H9.
  (* the save *)
  assert (log_path w_after = log_path w) as Hlogpath.
  { unfold log_path, backup_dir.
    destruct Henv9 as (-> & -> & _). done. }
  destruct (write_fails w_after (log_path w_after)) as [e|] eqn:Hwrite.
  - rewrite (BackupProofs.bind_Throw _ _ _ _ _
               (BackupProofs.saveBackupLog_throw _ _ _ Hwrite)).
    eexists _, _. split; [reflexivity|]. split; [env|].
    left. split; [by exists e | done].
  - rewrite (BackupProofs.bind_Ok _ _ _ _ _
               (BackupProofs.saveBackupLog_run _ _ Hwrite)).
    eexists _, _. split; [reflexivity|]. split; [env|].
    right. exists suffix, stamp, t, n, w_mid, log0, log1, w_after.
    eexists. cbn zeta. fold backupFilename content entry.
    split; [reflexivity|]. do 4 (split; [done|]).
    split; [done|]. split; [done|]. reflexivity.
Qed.

Lemma createBackup_success_inv (objectName objectType schemaName
    definition : jsstring) (operation : Operation) (database : jsstring)
    w r w' :
  createBackup objectName objectType schemaName definition operation
    database w = (Ok r, w') ->
  BackupResult.success r = true ->
  same_env w w' /\
  exists suffix stamp t t' w_mid log0 log1 w_after updated,
    let backupId := str "bkp_" ++ suffix in
    let backupFilename :=
      getObjectTypeDir objectType ++ str "/" ++ sanitize objectName
      ++ str "_" ++ stamp ++ str ".sql" in
    let content :=
      formatBackupContent_at (clock w t) objectName objectType schemaName
        definition (operation_name operation) database in
    let entry :=
      new_entry backupId (toISOString (clock w t')) operation objectType
        objectName schemaName database backupFilename content in
    r = BackupResult.mk true (str "Backup created successfully")
          backupFilename backupId /\
    same_env w w_mid /\ logFile w_mid = logFile w /\
    files w_mid !! file_path w entry
      = Some (File (toWellFormed content)) /\
    (forall p, p <> file_path w entry -> present w p ->
               files w_mid !! p = files w !! p) /\
    BackupLog.backups log0 = log_of w /\
    (if BackupConfig.auto_cleanup (config w)
     then cleanupOldBackups
            (BackupLog.set_backups log0 (entry :: log_of w)) objectName
            (BackupConfig.max_backups_per_object (config w)) w_mid
          = (Ok log1, w_after)
     else log1 = BackupLog.set_backups log0 (entry :: log_of w) /\
          w_after = w_mid) /\
    w' = set_logFile (set_ticks w_after (S (ticks w_after)))
           (LogStored (BackupLog.set_updated_at log1 updated)).
Proof.
  intros Hrun Hsuccess.
  destruct (BackupConfig.enabled (config w)) eqn:Henabled.
  - destruct (createBackup_run objectName objectType schemaName definition
                operation database w Henabled)
      as (r0 & w0 & Hrun0 & Henv & Hcases).
    rewrite Hrun in Hrun0. injection Hrun0 as <- <-.
    split; [done|].
    destruct Hcases as [[[e ->] _]|Hdone]; [done|exact Hdone].
  - unfold createBackup in Hrun.
    rewrite (BackupProofs.bind_Ok _ _ _ _ _
               (eq_refl : getBackupConfig w = (Ok (config w), w))) in Hrun.
    rewrite Henabled in Hrun. injection Hrun as <- <-. done.
Qed.

(** X18: [createBackup] always returns a result and never throws, and
    it leaves the configuration as it is. A result that reports success
    carries an id that starts with [bkp_] and a file name under one of
    the six category directories, and the log has been saved; a result
    that reports failure carries no id and no file name, its message is
    the one of the disabled configuration or starts with "Failed to
    create backup: ", and the log on disk is as it was. *)
Theorem createBackup_returns (objectName objectType schemaName
    definition : jsstring) (operation : Operation) (database : jsstring) w :
  exists r w',
    createBackup objectName objectType schemaName definition operation
      database w = (Ok r, w') /\
    same_env w w' /\
    if BackupResult.success r
    then
      BackupResult.message r = str "Backup created successfully" /\
      (exists suffix, BackupResult.backup_id r = str "bkp_" ++ suffix) /\
      (exists typeDir stamp,
         typeDir ∈ subdirs /\
         BackupResult.backup_file r
         = typeDir ++ str "/" ++ sanitize objectName ++ str "_" ++ stamp
           ++ str ".sql") /\
      (exists log', logFile w' = LogStored log')
    else
      BackupResult.backup_id r = [] /\ BackupResult.backup_file r = [] /\
      logFile w' = logFile w /\
      (BackupResult.message r = str "Backup is disabled in configuration" \/
       exists e,
         BackupResult.message r = str "Failed to create backup: " ++ e).
Proof.
  destruct (BackupConfig.enabled (config w)) eqn:Henabled.
  - destruct (createBackup_run objectName objectType schemaName definition
                operation database w Henabled)
      as (r & w' & Hrun & Henv & Hcases).
    exists r, w'. split; [done|]. split; [done|].
    destruct Hcases as [[[e ->] Hlog]|Hdone].
    + cbn. repeat split; try done. right. by exists e.
    + destruct Hdone as (suffix & stamp & t & t' & w_mid & log0 & log1
                         & w_after & updated & -> & _ & _ & _ & _ & _ & _ & ->).
      cbn. split; [done|]. split; [by exists suffix|].
      split; [|by eexists].
      exists (getObjectTypeDir objectType), stamp.
      split; [apply StoreProofs.type_dir_known | done].
  - exists disabled_result, w. split.
    + unfold createBackup.
      rewrite (BackupProofs.bind_Ok _ _ _ _ _
                 (eq_refl : getBackupConfig w = (Ok (config w), w))).
      by rewrite Henabled.
    + split; [apply same_env_refl|]. cbn. repeat split. by left.
Qed.

(** *** Eviction right after the new entry *)

Lemma remove_backup_step bs b w :
  remove_backup bs b w =
  if delete_throws w b then (Ok bs, w)
  else (Ok (remove_by_id bs b),
        set_files w (delete (file_path w b) (files w))).
Proof.
  pose proof (BackupProofs.delete_file_run w (files w) (ticks w) b
    (match findIndex (fun b0 => seq_eq (BackupEntry.id b0) (BackupEntry.id b))
             bs with
     | Some index => ret (splice1 bs index)
     | None => ret bs
     end) (BackupProofs.only_deleted_refl w)) as Hrun.
  replace (set_files (set_ticks w (ticks w)) (files w)) with w in Hrun
    by (by destruct w).
  unfold remove_backup, try_catch. rewrite Hrun.
  destruct (delete_throws w b); [done|].
  unfold remove_by_id. by destruct (findIndex _ bs); destruct w.
Qed.

Lemma remove_by_id_other e bs b :
  BackupEntry.id b <> BackupEntry.id e ->
  remove_by_id (e :: bs) b = e :: remove_by_id bs b.
Proof.
  intros Hne. unfold remove_by_id. cbn [findIndex]. unfold seq_eq at 1.
  rewrite bool_decide_false by congruence.
  by destruct (findIndex _ bs).
Qed.

Lemma remove_by_id_head e bs :
  remove_by_id (e :: bs) e = bs.
Proof.
  unfold remove_by_id. cbn [findIndex]. unfold seq_eq at 1.
  rewrite bool_decide_true by done. unfold splice1. cbn. by rewrite drop_0.
Qed.

(** The loop of [cleanupOldBackups] leaves the head of the log and its
    file in place when the entries to remove have other ids and other
    files. *)
Lemma remove_loop_keeps e p toRemove : forall bs w1,
  (forall b, b ∈ toRemove ->
     BackupEntry.id b <> BackupEntry.id e /\ file_path w1 b <> p) ->
  exists bs' fs',
    for_of remove_backup toRemove (e :: bs) w1
      = (Ok (e :: bs'), set_files w1 fs') /\
    fs' !! p = files w1 !! p.
Proof.
  induction toRemove as [|b toRemove IH]; intros bs w1 Hother.
  - exists bs, (files w1). split; [by destruct w1 | done].
  - cbn [for_of]. unfold bind at 1. rewrite remove_backup_step.
    destruct (Hother b (list_elem_of_here _ _)) as [Hid Hfile].
    destruct (delete_throws w1 b).
    + apply IH. intros b' Hb'. by apply Hother, list_elem_of_further.
    + rewrite remove_by_id_other by done.
      destruct (IH (remove_by_id bs b)
                  (set_files w1 (delete (file_path w1 b) (files w1))))
        as (bs' & fs' & Hrun & Hfs).
      { intros b' Hb'. by apply Hother, list_elem_of_further. }
      exists bs', fs'. split; [exact Hrun|].
      rewrite Hfs. cbn. by rewrite lookup_delete_ne.
Qed.

Lemma cleanupOldBackups_keeps_head log0 e bs objectName maxBackups p
    w_mid log1 w_after :
  same_name objectName e = true ->
  (1 <= maxBackups)%Z ->
  (forall b, b ∈ bs ->
     BackupEntry.id b <> BackupEntry.id e /\ file_path w_mid b <> p) ->
  cleanupOldBackups (BackupLog.set_backups log0 (e :: bs)) objectName
    maxBackups w_mid = (Ok log1, w_after) ->
  (exists bs', BackupLog.backups log1 = e :: bs') /\
  files w_after !! p = files w_mid !! p.
Proof.
  intros Hname Hcap Hother. unfold cleanupOldBackups.
  cbn [BackupLog.backups BackupLog.set_backups List.filter].
  rewrite Hname.
  destruct (_ <? _)%Z.
  - unfold slice_from. rewrite (proj2 (Z.ltb_ge _ _)) by lia.
    destruct (Z.to_nat maxBackups) as [|k] eqn:Hk; [lia|]. cbn [drop].
    destruct (remove_loop_keeps e p
                (drop k (List.filter (same_name objectName) bs)) bs w_mid)
      as (bs' & fs' & Hrun & Hfs).
    { intros b Hb. apply Hother.
      assert (b ∈ List.filter (same_name objectName) bs) as Hin
        by (rewrite <- (take_drop k (List.filter _ bs));
            apply elem_of_app; by right).
      by apply EvictionProofs.elem_of_filter_bool in Hin as [? _]. }
    unfold bind. rewrite Hrun. unfold ret. intros [= <- <-].
    split; [by exists bs' | done].
  - unfold ret. intros [= <- <-]. split; [by exists bs | done].
Qed.

(** The entry and the file that a successful [createBackup] has made
    are in place when the call returns, if there is no eviction or the
    eviction has no reason to touch them. *)
Lemma created_backup_in_place (objectName : jsstring) w entry content
    w_mid log0 log1 w_after :
  BackupEntry.object_name entry = objectName ->
  same_env w w_mid ->
  files w_mid !! file_path w entry = Some (File content) ->
  (BackupConfig.auto_cleanup (config w) = true ->
   (1 <= BackupConfig.max_backups_per_object (config w))%Z /\
   forall b, b ∈ log_of w ->
     BackupEntry.id b <> BackupEntry.id entry /\
     file_path w b <> file_path w entry) ->
  (if BackupConfig.auto_cleanup (config w)
   then cleanupOldBackups
          (BackupLog.set_backups log0 (entry :: log_of w)) objectName
          (BackupConfig.max_backups_per_object (config w)) w_mid
        = (Ok log1, w_after)
   else log1 = BackupLog.set_backups log0 (entry :: log_of w) /\
        w_after = w_mid) ->
  (exists older, BackupLog.backups log1 = entry :: older) /\
  files w_after !! file_path w entry = Some (File content).
Proof.
  intros Hname Henv_mid Hfile Hfresh Hevict.
  destruct (BackupConfig.auto_cleanup (config w)) eqn:Hauto.
  - destruct (Hfresh eq_refl) as [Hcap Hother].
    destruct (cleanupOldBackups_keeps_head log0 entry (log_of w) objectName
                (BackupConfig.max_backups_per_object (config w))
                (file_path w entry) w_mid log1 w_after) as [Hkept Hsame];
      [ | exact Hcap | | exact Hevict | ].
    + unfold same_name, seq_eq. apply bool_decide_eq_true. by rewrite Hname.
    + intros b Hb. destruct (Hother b Hb) as [? Hpath]. split; [done|].
      unfold file_path, backup_dir in *.
      by destruct Henv_mid as (-> & -> & _).
    + split; [done|]. by rewrite Hsame.
  - destruct Hevict as [-> ->]. split; [by eexists | done].
Qed.

(** C9: when [createBackup] succeeds, it has made its content of the
    BOM, the header and the definition, written it to the backup file,
    which then holds what UTF-8 keeps of it, and made an entry with the
    returned id and file name whose [file_hash] is the digest of the
    content, which is the digest of the text that the file holds at that
    time. That entry is put at the head of the log, on which the
    eviction then runs if it is configured, and the log is saved. When
    the call returns, the saved log is drawn in order from the entry and
    the former log, and the file holds that text unless the eviction has
    deleted it; without eviction, or with a cap of one or more when no
    entry of the former log has the new id or the new file, the entry
    heads the saved log and the file holds that text. *)
Theorem createBackup_hash (objectName objectType schemaName
    definition : jsstring) (operation : Operation) (database : jsstring)
    w r w' :
  createBackup objectName objectType schemaName definition operation
    database w = (Ok r, w') ->
  BackupResult.success r = true ->
  exists content entry w_written log0 log1 w_after updated,
    (exists t,
       content = formatBackupContent_at (clock w t) objectName objectType
                   schemaName definition (operation_name operation)
                   database) /\
    BackupEntry.id entry = BackupResult.backup_id r /\
    BackupEntry.backup_file entry = BackupResult.backup_file r /\
    BackupEntry.object_name entry = objectName /\
    (* at the time of the write *)
    same_env w w_written /\ logFile w_written = logFile w /\
    (forall p, p <> file_path w entry -> present w p ->
               files w_written !! p = files w !! p) /\
    files w_written !! file_path w entry
      = Some (File (toWellFormed content)) /\
    BackupEntry.file_hash entry = calculateHash content /\
    BackupEntry.file_hash entry
      = str "sha256:" ++ sha256_hex (toWellFormed content) /\
    BackupEntry.file_hash entry = calculateHash (toWellFormed content) /\
    (* the log, the eviction and the save *)
    BackupLog.backups log0 = entry :: log_of w /\
    (if BackupConfig.auto_cleanup (config w)
     then cleanupOldBackups log0 objectName
            (BackupConfig.max_backups_per_object (config w)) w_written
          = (Ok log1, w_after)
     else log1 = log0 /\ w_after = w_written) /\
    w' = set_logFile (set_ticks w_after (S (ticks w_after)))
           (LogStored (BackupLog.set_updated_at log1 updated)) /\
    (* when the call returns *)
    log_of w' `sublist_of` entry :: log_of w /\
    (files w' !! file_path w entry = Some (File (toWellFormed content)) \/
     (BackupConfig.auto_cleanup (config w) = true /\
      files w' !! file_path w entry = None)) /\
    ((BackupConfig.auto_cleanup (config w) = true ->
      (1 <= BackupConfig.max_backups_per_object (config w))%Z /\
      forall b, b ∈ log_of w ->
        BackupEntry.id b <> BackupEntry.id entry /\
        file_path w b <> file_path w entry) ->
     (exists older, log_of w' = entry :: older) /\
     files w' !! file_path w entry = Some (File (toWellFormed content))).
Proof.
  intros Hrun Hsuccess.
  destruct (createBackup_success_inv _ _ _ _ _ _ _ _ _ Hrun Hsuccess)
    as (Henv & suffix & stamp & t & t' & w_mid & log0 & log1 & w_after
        & updated & Hr & Henv_mid & Hlog_mid & Hfile & Hothers & Hlog0
        & Hevict & Hw').
  cbn zeta in *.
  set (content := formatBackupContent_at (clock w t) objectName objectType
                    schemaName definition (operation_name operation)
                    database) in *.
  set (entry := new_entry (str "bkp_" ++ suffix) (toISOString (clock w t'))
                  operation objectType objectName schemaName database
                  (getObjectTypeDir objectType ++ str "/"
                   ++ sanitize objectName ++ str "_" ++ stamp ++ str ".sql")
                  content) in *.
  exists content, entry, w_mid,
    (BackupLog.set_backups log0 (entry :: log_of w)), log1, w_after, updated.
  split; [by exists t|]. split; [by rewrite Hr|]. split; [by rewrite Hr|].
  split; [done|]. split; [done|]. split; [done|]. split; [done|].
  split; [done|]. split; [done|]. split; [done|].
  split; [unfold calculateHash; by rewrite StringProofs.toWellFormed_twice|].
  split; [done|]. split; [exact Hevict|]. split; [exact Hw'|].
  assert (log_of w' = BackupLog.backups log1) as Hlog' by (by subst w').
  assert (files w' = files w_after) as Hfiles' by (by subst w').
  rewrite Hlog', Hfiles'.
  split; [|split].
  - destruct (BackupConfig.auto_cleanup (config w)).
    + destruct (CreateProofs.cleanupOldBackups_run
                  (BackupLog.set_backups log0 (entry :: log_of w)) objectName
                  (BackupConfig.max_backups_per_object (config w)) w_mid)
        as (log1' & fs' & Hclean & Hsub & _).
      rewrite Hclean in Hevict. by injection Hevict as <- _.
    + by destruct Hevict as [-> _].
  - destruct (BackupConfig.auto_cleanup (config w)).
    + destruct (CreateProofs.cleanupOldBackups_run
                  (BackupLog.set_backups log0 (entry :: log_of w)) objectName
                  (BackupConfig.max_backups_per_object (config w)) w_mid)
        as (log1' & fs' & Hclean & _ & Hfs).
      rewrite Hclean in Hevict. injection Hevict as _ <-.
      cbn [files set_files].
      destruct (Hfs (file_path w entry)) as [Hsame|Hgone].
      * left. by rewrite Hsame.
      * right. by split.
    + destruct Hevict as [_ ->]. by left.
  - intros Hfresh.
    by apply (created_backup_in_place objectName w entry
                (toWellFormed content) w_mid log0 log1 w_after).
Qed.

(** The backup that a successful [createBackup] has made, as the log
    and the disk hold it when the call returns. *)
Lemma created_backup_available (objectName objectType schemaName
    definition : jsstring) (operation : Operation) (database : jsstring)
    w r w' :
  createBackup objectName objectType schemaName definition operation
    database w = (Ok r, w') ->
  BackupResult.success r = true ->
  read_fails w (path_join (backup_dir w) (BackupResult.backup_file r)) = None ->
  (BackupConfig.auto_cleanup (config w) = true ->
   (1 <= BackupConfig.max_backups_per_object (config w))%Z /\
   forall b, b ∈ log_of w ->
     BackupEntry.id b <> BackupResult.backup_id r /\
     file_path w b <> path_join (backup_dir w) (BackupResult.backup_file r)) ->
  exists entry header,
    entry_of w' (BackupResult.backup_id r) = Some entry /\
    content_of w' (BackupResult.backup_id r)
      = Some (header ++ headerEndMarker ++ toWellFormed definition) /\
    BackupEntry.id entry = BackupResult.backup_id r /\
    BackupEntry.backup_file entry = BackupResult.backup_file r /\
    BackupEntry.object_name entry = objectName /\
    BackupEntry.object_type entry = objectType /\
    BackupEntry.schema_name entry = schemaName /\
    BackupEntry.database entry = database /\
    BackupEntry.operation entry = operation /\
    BackupEntry.file_hash entry
      = calculateHash (UTF8_BOM ++ header ++ headerEndMarker
                       ++ toWellFormed definition).
Proof.
  intros Hrun Hsuccess Hread Hfresh.
  destruct (createBackup_success_inv _ _ _ _ _ _ _ _ _ Hrun Hsuccess)
    as (Henv & suffix & stamp & t & t' & w_mid & log0 & log1 & w_after
        & updated & Hr & Henv_mid & _ & Hfile & _ & Hlog0 & Hevict & Hw').
  cbn zeta in *.
  set (backupId := str "bkp_" ++ suffix) in *.
  set (backupFilename := getObjectTypeDir objectType ++ str "/"
         ++ sanitize objectName ++ str "_" ++ stamp ++ str ".sql") in *.
  set (content := formatBackupContent_at (clock w t) objectName objectType
                    schemaName definition (operation_name operation)
                    database) in *.
  set (entry := new_entry backupId (toISOString (clock w t')) operation
                  objectType objectName schemaName database backupFilename
                  content) in *.
  assert (BackupResult.backup_id r = backupId /\
          BackupResult.backup_file r = backupFilename) as [Hid Hname]
    by (by rewrite Hr).
  rewrite Hid, Hname in *. clear Hr.
  set (path := path_join (backup_dir w) backupFilename) in *.
  (* the entry heads the saved log and its file is in place *)
  destruct (created_backup_in_place objectName w entry (toWellFormed content)
              w_mid log0 log1 w_after eq_refl Henv_mid Hfile Hfresh Hevict)
    as [[bs' Hhead] Hthere].
  change (file_path w entry) with path in Hthere.
  assert (log_of w' = entry :: bs') as Hlog' by (by subst w').
  assert (files w' = files w_after) as Hfiles' by (by subst w').
  assert (file_path w' entry = path) as Hpath'.
  { unfold file_path, backup_dir, path.
    by destruct Henv as (-> & -> & _). }
  assert (entry_of w' backupId = Some entry) as Hentry.
  { unfold entry_of. rewrite Hlog'. cbn [List.find].
    unfold seq_eq. by rewrite bool_decide_true. }
  destruct (BackupProofs.content_as_stored (clock w t) objectName objectType
              schemaName definition (operation_name operation) database)
    as [pre Hstored].
  fold content in Hstored.
  exists entry, pre. split; [done|]. split.
  { unfold content_of. rewrite Hentry. cbn [mbind option_bind].
    unfold readable_text. rewrite Hpath', Hfiles', Hthere.
    replace (read_fails w' path) with (read_fails w path)
      by (by destruct Henv as (_ & _ & _ & _ & _ & _ & -> & _)).
    rewrite Hread, StringProofs.toWellFormed_twice, Hstored. done. }
  do 7 (split; [done|]).
  cbn [BackupEntry.file_hash entry new_entry]. unfold calculateHash.
  by rewrite <- Hstored, StringProofs.toWellFormed_twice.
Qed.

(** X19: a backup that [createBackup] has made can be read back at
    once. If [createBackup] reports success, the definition does not
    hold the closing delimiter of the header, the content file can be
    read and, where eviction is on, the cap is at least one and no entry
    of the log had the new id or the new file, then [getBackupById] with
    the returned id gives an entry with the arguments of the call,
    [getBackupContent] gives a text which, with the BOM before it, has
    the digest of the entry, and [extractDefinitionFromBackup] gives
    from that text what UTF-8 keeps of the definition: the definition
    with U+FFFD in place of each lone surrogate, which is the definition
    itself when it has none. *)
Theorem createBackup_then_retrieve (objectName objectType schemaName
    definition : jsstring) (operation : Operation) (database : jsstring)
    w r w' :
  createBackup objectName objectType schemaName definition operation
    database w = (Ok r, w') ->
  BackupResult.success r = true ->
  includes definition headerEndMarker = false ->
  read_fails w (path_join (backup_dir w) (BackupResult.backup_file r)) = None ->
  (BackupConfig.auto_cleanup (config w) = true ->
   (1 <= BackupConfig.max_backups_per_object (config w))%Z /\
   forall b, b ∈ log_of w ->
     BackupEntry.id b <> BackupResult.backup_id r /\
     file_path w b <> path_join (backup_dir w) (BackupResult.backup_file r)) ->
  exists entry text w1 w2,
    getBackupById (BackupResult.backup_id r) w' = (Ok (Some entry), w1) /\
    BackupEntry.id entry = BackupResult.backup_id r /\
    BackupEntry.backup_file entry = BackupResult.backup_file r /\
    BackupEntry.object_name entry = objectName /\
    BackupEntry.object_type entry = objectType /\
    BackupEntry.schema_name entry = schemaName /\
    BackupEntry.database entry = database /\
    BackupEntry.operation entry = operation /\
    getBackupContent (BackupResult.backup_id r) w' = (Ok (Some text), w2) /\
    BackupEntry.file_hash entry = calculateHash (UTF8_BOM ++ text) /\
    extractDefinitionFromBackup text = toWellFormed definition /\
    (toWellFormed definition = definition ->
     extractDefinitionFromBackup text = definition).
Proof.
  intros Hrun Hsuccess Hclean Hread Hfresh.
  destruct (created_backup_available _ _ _ _ _ _ _ _ _ Hrun Hsuccess
              Hread Hfresh)
    as (entry & header & Hentry & Hcontent & Hid & Hfile & Hname & Htype
        & Hschema & Hdb & Hop & Hhash).
  pose proof (BackupProofs.entry_of_typed _ _ _ Hentry) as Htyped.
  destruct (BackupProofs.getBackupById_run w' (BackupResult.backup_id r)
              Htyped) as (w1 & Hget & _).
  destruct (BackupProofs.getBackupContent_run w' (BackupResult.backup_id r)
              Htyped) as (w2 & Hgetc & _).
  rewrite Hentry in Hget. rewrite Hcontent in Hgetc.
  exists entry, (header ++ headerEndMarker ++ toWellFormed definition), w1, w2.
  do 10 (split; [done|]).
  pose proof (BackupProofs.extract_as_stored header definition Hclean)
    as Hextract.
  split; [done|]. intros Hwell. by rewrite Hextract.
Qed.

(** X20: a cap of 0 is not read as "no cap". With eviction on and the
    cap 0, a [createBackup] that reports success has evicted its own
    backup before it returns: if the id is new to the log and the file
    can be deleted, the returned id is in no entry of the saved log, the
    file is gone, and the saved log holds entries of the former log
    only. *)
Theorem createBackup_cap_zero (objectName objectType schemaName
    definition : jsstring) (operation : Operation) (database : jsstring)
    w r w' :
  createBackup objectName objectType schemaName definition operation
    database w = (Ok r, w') ->
  BackupResult.success r = true ->
  BackupConfig.auto_cleanup (config w) = true ->
  BackupConfig.max_backups_per_object (config w) = 0%Z ->
  unlink_fails w (path_join (backup_dir w) (BackupResult.backup_file r))
    = None ->
  (forall b, b ∈ log_of w -> BackupEntry.id b <> BackupResult.backup_id r) ->
  entry_of w' (BackupResult.backup_id r) = None /\
  files w' !! path_join (backup_dir w) (BackupResult.backup_file r) = None /\
  log_of w' `sublist_of` log_of w.
Proof.
  intros Hrun Hsuccess Hauto Hcap Hunlink Hfresh.
  destruct (createBackup_success_inv _ _ _ _ _ _ _ _ _ Hrun Hsuccess)
    as (Henv & suffix & stamp & t & t' & w_mid & log0 & log1 & w_after
        & updated & Hr & Henv_mid & _ & Hfile & _ & Hlog0 & Hevict & Hw').
  cbn zeta in *. rewrite Hauto, Hcap in Hevict.
  set (backupId := str "bkp_" ++ suffix) in *.
  set (backupFilename := getObjectTypeDir objectType ++ str "/"
         ++ sanitize objectName ++ str "_" ++ stamp ++ str ".sql") in *.
  set (content := formatBackupContent_at (clock w t) objectName objectType
                    schemaName definition (operation_name operation)
                    database) in *.
  set (entry := new_entry backupId (toISOString (clock w t')) operation
                  objectType objectName schemaName database backupFilename
                  content) in *.
  assert (BackupResult.backup_id r = backupId /\
          BackupResult.backup_file r = backupFilename) as [Hid Hname]
    by (by rewrite Hr).
  rewrite Hid, Hname in *. clear Hr.
  set (path := path_join (backup_dir w) backupFilename) in *.
  assert (file_path w_mid entry = path) as Hpath.
  { unfold file_path, backup_dir, path.
    by destruct Henv_mid as (-> & -> & _). }
  assert (same_name objectName entry = true) as Hsame
    by (unfold same_name, seq_eq; by apply bool_decide_eq_true).
  unfold cleanupOldBackups in Hevict.
  cbn [BackupLog.backups BackupLog.set_backups List.filter] in Hevict.
  rewrite Hsame in Hevict. cbn [length] in Hevict.
  rewrite (proj2 (Z.ltb_lt _ _)) in Hevict by lia.
  unfold slice_from in Hevict. cbn [Z.ltb Z.compare] in Hevict.
  change (Z.to_nat 0) with 0 in Hevict. rewrite drop_0 in Hevict.
  cbn [for_of] in Hevict. unfold bind at 1 in Hevict.
  unfold bind at 1 in Hevict.
  rewrite remove_backup_step in Hevict.
  assert (delete_throws w_mid entry = false) as Hcan.
  { unfold delete_throws. rewrite Hpath.
    change (file_path w entry) with path in Hfile. rewrite Hfile.
    replace (unlink_fails w_mid path) with (unlink_fails w path)
      by (by destruct Henv_mid as (_ & _ & _ & _ & _ & _ & _ & ->)).
    rewrite Hunlink. apply bool_decide_eq_false. by intros [? ?]. }
  rewrite Hcan, remove_by_id_head, Hpath in Hevict.
  destruct (CreateProofs.remove_loop_run
              (List.filter (same_name objectName) (log_of w)) (log_of w)
              (set_files w_mid (delete path (files w_mid))))
    as (bs' & fs' & Hloop & Hsub & Hfs).
  rewrite Hloop in Hevict. injection Hevict as <- <-.
  assert (log_of w' = bs') as Hlog' by (by subst w').
  rewrite Hlog'. split; [|split; [|done]].
  - unfold entry_of. rewrite Hlog'.
    destruct (List.find _ bs') as [b|] eqn:Hfind; [|done].
    apply find_some in Hfind as [Hb Hbid].
    apply bool_decide_eq_true in Hbid.
    destruct (Hfresh b); [|done].
    eapply elem_of_sublist; [|exact Hsub]. by apply list_elem_of_In.
  - subst w'. cbn [files set_logFile set_ticks set_files].
    destruct (Hfs path) as [-> | ->]; [|done].
    cbn. apply lookup_delete_eq.
Qed.

End Proofs.
End LifecycleProofs.
(** ** Statistics *)

Module StatsProofs.
Import JS Store Backup BackupSpec Stats StatsSpec.
Local Open Scope js_scope.

Lemma str_lt_irrefl a : str_lt a a = false.
Proof.
  induction a as [|x a IH]; [done|]. cbn.
  by rewrite N.ltb_irrefl, N.eqb_refl, IH.
Qed.

Lemma str_lt_trans a : forall b c,
  str_lt a b = true -> str_lt b c = true -> str_lt a c = true.
Proof.
  induction a as [|x a IH]; intros [|y b] [|z c]; cbn; try done.
  intros Hab Hbc.
  apply orb_true_iff in Hab as [Hxy|[Hxy Hab]%andb_true_iff];
    apply orb_true_iff in Hbc as [Hyz|[Hyz Hbc]%andb_true_iff];
    apply orb_true_iff.
  - left. apply N.ltb_lt in Hxy, Hyz. apply N.ltb_lt. lia.
  - left. apply N.ltb_lt in Hxy. apply N.eqb_eq in Hyz. apply N.ltb_lt. lia.
  - left. apply N.ltb_lt in Hyz. apply N.eqb_eq in Hxy. apply N.ltb_lt. lia.
  - right. apply N.eqb_eq in Hxy, Hyz. subst.
    rewrite N.eqb_refl. cbn. by eapply IH.
Qed.

Section Proofs.
Context {P : Platform}.
Variable stat_size : jsstring -> option N.

Lemma bump_lookup counts key k :
  default 0 (bump counts key !! k)
  = default 0 (counts !! k) + (if bool_decide (key = k) then 1 else 0).
Proof.
  unfold bump. case_bool_decide as Hk.
  - subst. by rewrite lookup_insert_eq.
  - rewrite lookup_insert_ne by done. lia.
Qed.

Lemma bump_positive counts key :
  (forall k, counts !! k <> Some 0) -> forall k, bump counts key !! k <> Some 0.
Proof.
  intros Hpos k. unfold bump.
  destruct (decide (key = k)) as [->|Hne].
  - rewrite lookup_insert_eq. intros [= H]. lia.
  - by rewrite lookup_insert_ne.
Qed.

(** One turn of the loop never throws and leaves the world as it is. *)
Lemma stats_step_run s b w :
  exists s',
    stats_step stat_size (backup_dir w) s b w = (Ok s', w) /\
    total_backups s' = total_backups s /\
    Stats.by_type s' = bump (Stats.by_type s) (type_dir b) /\
    by_operation s'
      = bump (by_operation s) (operation_name (BackupEntry.operation b)) /\
    oldest_backup s'
      = (if negb (truthy_opt (oldest_backup s))
            || str_lt (BackupEntry.timestamp b) (default [] (oldest_backup s))
         then Some (BackupEntry.timestamp b) else oldest_backup s) /\
    newest_backup s'
      = (if negb (truthy_opt (newest_backup s))
            || str_lt (default [] (newest_backup s)) (BackupEntry.timestamp b)
         then Some (BackupEntry.timestamp b) else newest_backup s) /\
    total_size_bytes s' = (total_size_bytes s + size_of stat_size w b)%N.
Proof.
  unfold stats_step, size_of, file_path.
  unfold bind at 1. unfold try_catch, bind at 1, existsSync at 1.
  destruct (files w !! path_join (backup_dir w) (BackupEntry.backup_file b))
    as [node|] eqn:Hfile.
  - rewrite bool_decide_true by done.
    unfold bind, statSync.
    destruct (stat_size _) as [size|]; eexists; (split; [reflexivity|]);
      cbn; repeat split; try done. by rewrite N.add_0_r.
  - rewrite bool_decide_false by (by intros [? ?]).
    eexists; (split; [reflexivity|]); cbn; repeat split; try done.
    by rewrite N.add_0_r.
Qed.

(** What is known of the oldest and of the newest time stamp after the
    entries [seen]. *)
Lemma stats_loop_run w bs : forall s seen,
  (forall k, Stats.by_type s !! k <> Some 0) ->
  (forall k, by_operation s !! k <> Some 0) ->
  exists s',
    for_of (stats_step stat_size (backup_dir w)) bs s w = (Ok s', w) /\
    total_backups s' = total_backups s /\
    (forall k, default 0 (Stats.by_type s' !! k)
               = default 0 (Stats.by_type s !! k)
                 + count (fun b => bool_decide (type_dir b = k)) bs) /\
    (forall k, Stats.by_type s' !! k <> Some 0) /\
    (forall k, default 0 (by_operation s' !! k)
               = default 0 (by_operation s !! k)
                 + count (fun b => bool_decide
                            (operation_name (BackupEntry.operation b) = k)) bs) /\
    (forall k, by_operation s' !! k <> Some 0) /\
    total_size_bytes s'
      = (total_size_bytes s + foldr N.add 0 (size_of stat_size w <$> bs))%N /\
    ((forall b, b ∈ bs -> BackupEntry.timestamp b <> []) ->
     forall (lt : jsstring -> jsstring -> bool) (pick : Stats.t -> option jsstring),
       (lt = str_lt /\ pick = oldest_backup \/
        lt = (fun a b => str_lt b a) /\ pick = newest_backup) ->
       match pick s with
       | None => seen = []
       | Some t => t <> [] /\ t ∈ seen /\ forall x, x ∈ seen -> lt x t = false
       end ->
       match pick s' with
       | None => seen ++ (BackupEntry.timestamp <$> bs) = []
       | Some t =>
           t <> [] /\ t ∈ seen ++ (BackupEntry.timestamp <$> bs) /\
           forall x, x ∈ seen ++ (BackupEntry.timestamp <$> bs) ->
                     lt x t = false
       end).
Proof.
  induction bs as [|b bs IH]; intros s seen Htype Hop.
  - exists s. split; [done|]. split; [done|].
    unfold count. cbn.
    split; [intros; lia|]. split; [done|].
    split; [intros; lia|]. split; [done|].
    split; [by rewrite N.add_0_r|].
    intros _ lt pick _. by rewrite app_nil_r.
  - destruct (stats_step_run s b w)
      as (s1 & Hrun1 & Htotal1 & Htype1 & Hop1 & Hold1 & Hnew1 & Hsize1).
    destruct (IH s1 (seen ++ [BackupEntry.timestamp b]))
      as (s' & Hrun & Htotal & Htypes & Htpos & Hops & Hopos & Hsize & Htimes).
    { rewrite Htype1. by apply bump_positive. }
    { rewrite Hop1. by apply bump_positive. }
    exists s'. cbn [for_of]. unfold bind at 1. rewrite Hrun1.
    split; [exact Hrun|]. split; [congruence|].
    split; [|split; [done|]; split; [|split; [done|]; split]].
    + intros k. rewrite Htypes, Htype1, bump_lookup. unfold count. cbn.
      case_bool_decide; cbn; lia.
    + intros k. rewrite Hops, Hop1, bump_lookup. unfold count. cbn.
      case_bool_decide; cbn; lia.
    + rewrite Hsize, Hsize1. cbn. lia.
    + intros Hstamps lt pick Hwhich Hinv.
      replace (seen ++ (BackupEntry.timestamp <$> b :: bs))
        with ((seen ++ [BackupEntry.timestamp b])
              ++ (BackupEntry.timestamp <$> bs))
        by (by rewrite <- app_assoc).
      apply Htimes; [intros b' Hb'; by apply Hstamps, list_elem_of_further
                    | done |].
      pose proof (Hstamps b (list_elem_of_here _ _)) as Hts.
      assert (pick s1 =
              if negb (truthy_opt (pick s))
                 || lt (BackupEntry.timestamp b) (default [] (pick s))
              then Some (BackupEntry.timestamp b) else pick s) as ->.
      { by destruct Hwhich as [[-> ->]|[-> ->]]. }
      assert (forall a, lt a a = false) as Hirrefl.
      { intros a. destruct Hwhich as [[-> _]|[-> _]]; apply str_lt_irrefl. }
      assert (forall a b c, lt a b = true -> lt b c = true -> lt a c = true)
        as Htrans.
      { intros a0 b0 c0. destruct Hwhich as [[-> _]|[-> _]].
        - apply str_lt_trans.
        - intros H1 H2. by eapply str_lt_trans. }
      destruct (pick s) as [t|]; cbn; cbv beta iota in Hinv.
      * destruct Hinv as (Ht & Hin & Hmin).
        destruct t as [|c t]; [done|]. cbn.
        destruct (lt (BackupEntry.timestamp b) (c :: t)) eqn:Hlt;
          cbv beta iota.
        -- split; [done|].
           split; [apply elem_of_app; right; apply list_elem_of_here|].
           intros x [Hx|Hx%list_elem_of_singleton]%elem_of_app.
           ++ destruct (lt x (BackupEntry.timestamp b)) eqn:Hx'; [|done].
              rewrite <- (Hmin x Hx). symmetry. by eapply Htrans.
           ++ subst. apply Hirrefl.
        -- split; [done|]. split; [apply elem_of_app; by left|].
           intros x [Hx|Hx%list_elem_of_singleton]%elem_of_app; [by apply Hmin|].
           by subst.
      * subst seen. split; [done|]. split; [apply list_elem_of_here|].
        intros x Hx%list_elem_of_singleton. subst. apply Hirrefl.
Qed.

Lemma getBackupStats_foreign w type_error :
  logFile w = LogForeign type_error ->
  getBackupStats stat_size w = (Throw (type_error (str "length")), w).
Proof.
  intros Hlog. unfold getBackupStats.
  by rewrite (BackupProofs.bind_Ok _ _ _ _ _
                (BackupProofs.loadBackupLog_foreign _ _ Hlog)).
Qed.

Lemma getBackupStats_run w :
  log_typed w ->
  exists s w',
    getBackupStats stat_size w = (Ok s, w') /\ later w w' /\
    for_of (stats_step stat_size (backup_dir w)) (log_of w)
      (Stats.mk (length (log_of w)) ∅ ∅ None None 0) w' = (Ok s, w').
Proof.
  intros Htyped.
  destruct (BackupProofs.loadBackupLog_run w Htyped)
    as (log & w1 & Hload & Hlater & Hlog).
  destruct (stats_loop_run w1 (log_of w)
              (Stats.mk (length (log_of w)) ∅ ∅ None None 0) [])
    as (s & Hrun & _); [done..|].
  assert (backup_dir w1 = backup_dir w) as Hdir
    by (by destruct Hlater as [n ->]).
  rewrite Hdir in Hrun.
  exists s, w1. split; [|by split].
  unfold getBackupStats. rewrite (BackupProofs.bind_Ok _ _ _ _ _ Hload).
  rewrite (BackupProofs.bind_Ok _ _ _ _ _ (BackupProofs.getBackupDir_run w1)).
  unfold as_log.
  rewrite (BackupProofs.bind_Ok _ _ _ _ _
             (eq_refl : ret log w1 = (Ok log, w1))).
  by rewrite Hdir, Hlog.
Qed.

(** X21: over a log file that is absent, unparsable or a backup log,
    [getBackupStats] does not throw and leaves the store as it is. Its
    total is the number of entries of the log; for every category
    directory and for every operation it counts the entries of the log
    that fall under it, and it has no key for one that has none; the
    size is the sum, over the entries, of the size of the content file
    where the path is there and [statSync] does not throw. Over a log
    file that holds JSON without a member [backups] it throws the
    TypeError of [log.backups.length]. *)
Theorem getBackupStats_counts w :
  match logFile w with
  | LogForeign type_error =>
      getBackupStats stat_size w = (Throw (type_error (str "length")), w)
  | _ =>
      exists s w',
        getBackupStats stat_size w = (Ok s, w') /\ later w w' /\
        total_backups s = length (log_of w) /\
        (forall d, default 0 (Stats.by_type s !! d)
                   = count (fun b => bool_decide (type_dir b = d))
                       (log_of w)) /\
        (forall d, Stats.by_type s !! d <> Some 0) /\
        (forall o, default 0 (by_operation s !! operation_name o)
                   = count (fun b => bool_decide (BackupEntry.operation b = o))
                       (log_of w)) /\
        (forall k, by_operation s !! k <> Some 0) /\
        total_size_bytes s
        = foldr N.add 0%N (size_of stat_size w <$> log_of w)
  end.
Proof.
  apply BackupProofs.log_cases;
    [intros Htyped
    |intros type_error Hlog; by apply getBackupStats_foreign].
  destruct (getBackupStats_run w Htyped) as (s & w' & Hrun & Hlater & Hloop).
  exists s, w'. split; [done|]. split; [done|].
  assert (backup_dir w' = backup_dir w) as Hdir
    by (by destruct Hlater as [n ->]).
  destruct (stats_loop_run w' (log_of w)
              (Stats.mk (length (log_of w)) ∅ ∅ None None 0) [])
    as (s' & Hrun' & Htotal & Htypes & Htpos & Hops & Hopos & Hsize & _);
    [done..|].
  rewrite Hdir, Hloop in Hrun'. injection Hrun' as <-.
  split; [done|]. split; [intros d; by rewrite Htypes|].
  split; [done|]. split; [|split; [done|]].
  - intros o. rewrite Hops. cbn [by_operation]. rewrite lookup_empty.
    unfold count. cbn [default Nat.add]. f_equal.
    apply List.filter_ext. intros b. apply bool_decide_ext.
    split; [|by intros ->].
    destruct (BackupEntry.operation b), o; try done; by vm_compute.
  - rewrite Hsize. cbn [total_size_bytes]. rewrite N.add_0_l.
    replace (size_of stat_size w') with (size_of stat_size w); [done|].
    destruct Hlater as [n ->]. reflexivity.
Qed.

(** X22: when no entry of the log has an empty time stamp, the oldest
    and the newest time stamp of [getBackupStats] are time stamps of the
    log, no entry has a time stamp that is less than the oldest in the
    order of strings, and none has one that is greater than the newest;
    both are null exactly when the log is empty. When the log file
    holds JSON without a member [backups], there is no log, and
    [getBackupStats] throws the TypeError of [log.backups.length]. *)
Theorem getBackupStats_oldest_newest w :
  (forall b, b ∈ log_of w -> BackupEntry.timestamp b <> []) ->
  match logFile w with
  | LogForeign type_error =>
      getBackupStats stat_size w = (Throw (type_error (str "length")), w)
  | _ =>
      exists s w',
        getBackupStats stat_size w = (Ok s, w') /\
        match oldest_backup s with
        | None => log_of w = []
        | Some t =>
            t ∈ BackupEntry.timestamp <$> log_of w /\
            forall b, b ∈ log_of w ->
                      str_lt (BackupEntry.timestamp b) t = false
        end /\
        match newest_backup s with
        | None => log_of w = []
        | Some t =>
            t ∈ BackupEntry.timestamp <$> log_of w /\
            forall b, b ∈ log_of w ->
                      str_lt t (BackupEntry.timestamp b) = false
        end
  end.
Proof.
  intros Hstamps. apply BackupProofs.log_cases;
    [intros Htyped
    |intros type_error Hfile; by apply getBackupStats_foreign].
  destruct (getBackupStats_run w Htyped) as (s & w' & Hrun & Hlater & Hloop).
  exists s, w'. split; [done|].
  assert (backup_dir w' = backup_dir w) as Hdir
    by (by destruct Hlater as [n ->]).
  destruct (stats_loop_run w' (log_of w)
              (Stats.mk (length (log_of w)) ∅ ∅ None None 0) [])
    as (s' & Hrun' & _ & _ & _ & _ & _ & _ & Htimes); [done..|].
  rewrite Hdir, Hloop in Hrun'. injection Hrun' as <-.
  specialize (Htimes Hstamps).
  split.
  - specialize (Htimes str_lt oldest_backup (or_introl (conj eq_refl eq_refl))
                  eq_refl).
    cbn [app] in Htimes.
    destruct (oldest_backup s) as [t|].
    + destruct Htimes as (_ & Hin & Hmin). split; [done|].
      intros b Hb. by apply Hmin, list_elem_of_fmap_2.
    + by apply fmap_nil_inv in Htimes.
  - specialize (Htimes (fun a b => str_lt b a) newest_backup
                  (or_intror (conj eq_refl eq_refl)) eq_refl).
    cbn [app] in Htimes.
    destruct (newest_backup s) as [t|].
    + destruct Htimes as (_ & Hin & Hmax). split; [done|].
      intros b Hb. by apply (Hmax _ (list_elem_of_fmap_2 _ _ _ Hb)).
    + by apply fmap_nil_inv in Htimes.
Qed.

End Proofs.
End StatsProofs.
(** ** Comparing what was stored *)

Module CompareProofs.
Import JS Store Backup BackupSpec StoreSpec DiffTools.
Local Open Scope js_scope.

Section Proofs.
Context {P : Platform}.

(** The old side of a comparison, when its backup is there with a text. *)
Lemma compare_old_side w backupIdOld b text :
  entry_of w backupIdOld = Some b ->
  content_of w backupIdOld = Some text ->
  text <> [] ->
  exists w1 w2,
    later w w2 /\
    getBackupById backupIdOld w = (Ok (Some b), w1) /\
    getBackupContent backupIdOld w1 = (Ok (Some text), w2).
Proof.
  intros Hentry Hcontent Htext.
  pose proof (BackupProofs.entry_of_typed _ _ _ Hentry) as Htyped.
  destruct (BackupProofs.getBackupById_run w backupIdOld Htyped)
    as (w1 & Hget & Hl1).
  destruct (BackupProofs.getBackupContent_run w1 backupIdOld
              (BackupProofs.later_log_typed _ _ Hl1 Htyped))
    as (w2 & Hgetc & Hl2).
  rewrite (BackupProofs.later_content_of _ _ _ Hl1), Hcontent in Hgetc.
  rewrite Hentry in Hget.
  exists w1, w2. split; [by eapply BackupProofs.later_trans | done].
Qed.

(** X23: a backup compared with itself shows no changes. When the
    backup has an entry and a text, and its id is not "current",
    [compareBackups] with that id on both sides returns a result that is
    identical, with no line added or removed and the same version on
    both sides, and [generateChangeSummary] says so by the name of the
    object. *)
Theorem compareBackups_same_backup w (backupId : jsstring)
    (currentDefinition : option jsstring) b text :
  entry_of w backupId = Some b ->
  content_of w backupId = Some text ->
  text <> [] ->
  backupId <> str "current" ->
  exists d w',
    compareBackups backupId backupId currentDefinition w = (Ok (Some d), w') /\
    later w w' /\
    d = DiffResult.mk (BackupEntry.object_name b)
          (Version.mk (BackupEntry.id b) (BackupEntry.timestamp b))
          (Version.mk (BackupEntry.id b) (BackupEntry.timestamp b))
          (str "(No changes)") 0 0 true /\
    generateChangeSummary d
    = str "No changes between versions of " ++ BackupEntry.object_name b.
Proof.
  intros Hentry Hcontent Htext Hid.
  destruct (compare_old_side w backupId b text Hentry Hcontent Htext)
    as (w1 & w2 & Hl2 & Hget & Hgetc).
  pose proof (BackupProofs.later_entry_of _ _ backupId Hl2) as Hentry2.
  pose proof (BackupProofs.later_content_of _ _ backupId Hl2) as Hcontent2.
  rewrite Hentry in Hentry2. rewrite Hcontent in Hcontent2.
  destruct (compare_old_side w2 backupId b text Hentry2 Hcontent2 Htext)
    as (w3 & w4 & Hl4 & Hget' & Hgetc').
  eexists _, w4. split; [|split; [by eapply BackupProofs.later_trans|]].
  - unfold compareBackups.
    rewrite (BackupProofs.bind_Ok _ _ _ _ _ Hget).
    rewrite (BackupProofs.bind_Ok _ _ _ _ _ Hgetc).
    destruct text as [|c text]; [done|]. cbn [truthy negb].
    unfold seq_eq. rewrite bool_decide_false by done.
    unfold bind at 1. rewrite (BackupProofs.bind_Ok _ _ _ _ _ Hget').
    rewrite (BackupProofs.bind_Ok _ _ _ _ _ Hgetc').
    cbn [truthy negb]. unfold ret at 1.
    rewrite DiffProofs.generateDiff_same_text. reflexivity.
  - split; reflexivity.
Qed.

(** X24: a backup compared with the definition it was made from shows
    no changes, when the definition is a text that UTF-8 keeps as it is
    (one without a lone surrogate). If [createBackup] reports success,
    the definition is such a text, is not empty and does not hold the
    closing delimiter of the header, the content file can be read and,
    where eviction is on, the cap is at least one and no entry of the
    log had the new id or the new file, then [compareBackups] with the
    returned id and "current" with that definition returns a result
    that is identical, for the object of the call. *)
Theorem createBackup_then_compare (objectName objectType schemaName
    definition : jsstring) (operation : Operation) (database : jsstring)
    w r w' :
  createBackup objectName objectType schemaName definition operation
    database w = (Ok r, w') ->
  BackupResult.success r = true ->
  toWellFormed definition = definition ->
  includes definition headerEndMarker = false ->
  definition <> [] ->
  read_fails w (path_join (backup_dir w) (BackupResult.backup_file r)) = None ->
  (BackupConfig.auto_cleanup (config w) = true ->
   (1 <= BackupConfig.max_backups_per_object (config w))%Z /\
   forall b, b ∈ log_of w ->
     BackupEntry.id b <> BackupResult.backup_id r /\
     file_path w b <> path_join (backup_dir w) (BackupResult.backup_file r)) ->
  exists d w'',
    compareBackups (BackupResult.backup_id r) (str "current")
      (Some definition) w' = (Ok (Some d), w'') /\
    DiffResult.is_identical d = true /\
    DiffResult.lines_added d = 0 /\ DiffResult.lines_removed d = 0 /\
    DiffResult.object_name d = objectName /\
    Version.backup_id (DiffResult.old_version d) = BackupResult.backup_id r /\
    Version.backup_id (DiffResult.new_version d) = str "current" /\
    generateChangeSummary d
    = str "No changes between versions of " ++ objectName.
Proof.
  intros Hrun Hsuccess Hwell Hclean Hdef Hread Hfresh.
  destruct (LifecycleProofs.created_backup_available _ _ _ _ _ _ _ _ _
              Hrun Hsuccess Hread Hfresh)
    as (entry & header & Hentry & Hcontent & Hid & _ & Hname & _).
  rewrite Hwell in Hcontent.
  destruct (compare_old_side w' _ entry _ Hentry Hcontent)
    as (w1 & w2 & Hl2 & Hget & Hgetc).
  { by destruct header. }
  eexists _, _. split.
  - unfold compareBackups.
    rewrite (BackupProofs.bind_Ok _ _ _ _ _ Hget).
    rewrite (BackupProofs.bind_Ok _ _ _ _ _ Hgetc).
    replace (truthy (header ++ headerEndMarker ++ definition)) with true
      by (by destruct header).
    cbn [negb]. unfold seq_eq. rewrite bool_decide_true by done.
    replace (truthy definition) with true by (by destruct definition).
    cbn [negb]. unfold bind, new_Date, ret.
    rewrite BackupProofs.extract_after_marker by done.
    rewrite DiffProofs.generateDiff_same_text. reflexivity.
  - cbn. rewrite Hname, Hid. by repeat split.
Qed.

End Proofs.
End CompareProofs.
(** ** The backup tools *)

Module ToolProofs.
Import JS Store Backup BackupSpec StoreSpec Tools.

Section Proofs.
Context {P : Platform}.
Variable Response : Type -> Type.
Variable formatSuccessResponse : forall A, A -> Response A.
Variable number_toString : Z -> jsstring.


(** X26: [cleanupBackups] without [confirm] rejects with
    CONFIRM_REQUIRED and touches nothing. With [confirm] it runs
    [cleanupByAge] with the days it was given, or with the configured
    [cleanup_days] when the days are left out or 0; it resolves with the
    count that [cleanupByAge] returns, and rejects with
    INVALID_OPERATION and the message of the error when [cleanupByAge]
    throws, which it does when the log cannot be written, and when the
    log file holds JSON without a member [backups]. *)
Theorem cleanupBackups_outcomes w (days : option Z) :
  let cleanupDays :=
    match days with
    | Some d => if (d =? 0)%Z then BackupConfig.cleanup_days (config w) else d
    | None => BackupConfig.cleanup_days (config w)
    end in
  (exists e,
     cleanupBackups Response formatSuccessResponse number_toString days false w
       = (Rejected e, w) /\
     code e = CONFIRM_REQUIRED) /\
  exists o w',
    cleanupBackups Response formatSuccessResponse number_toString days true w
      = (o, w') /\
    match logFile w with
    | LogForeign type_error =>
        cleanupByAge cleanupDays w
        = (Throw (type_error (str "[Symbol.iterator]")), w') /\
        o = Rejected (mkError INVALID_OPERATION
                        (str "Error cleaning up backups: "
                         ++ type_error (str "[Symbol.iterator]")) None)
    | _ =>
        match write_fails w (log_path w) with
        | None =>
            exists removed,
              cleanupByAge cleanupDays w = (Ok removed, w') /\
              o = Resolved
                    (formatSuccessResponse _
                       (mkReport true
                          (str "Cleaned up "
                           ++ number_toString (Z.of_nat removed)
                           ++ str " backups older than "
                           ++ number_toString cleanupDays ++ str " days")
                          removed))
        | Some e =>
            cleanupByAge cleanupDays w = (Throw e, w') /\
            o = Rejected (mkError INVALID_OPERATION
                            (str "Error cleaning up backups: " ++ e) None)
        end
    end.
Proof.
  intros cleanupDays. split; [by eexists|].
  unfold cleanupBackups. cbn [negb].
  unfold rethrow_all, then_ at 1, call at 1, getBackupConfig.
  fold cleanupDays. unfold then_, call.
  destruct (BackupProofs.typed_or_foreign w) as [Htyped|[type_error Hfile]].
  - destruct (StoreProofs.cleanupByAge_run w cleanupDays Htyped)
      as (n & log & _ & Hrun).
    cbn zeta in Hrun. rewrite Hrun.
    destruct (write_fails w (log_path w)) as [e|].
    + eexists _, _. split; [reflexivity|].
      unfold log_typed in Htyped. destruct (logFile w); by try split.
    + eexists _, _. split; [reflexivity|].
      unfold log_typed in Htyped.
      destruct (logFile w); try done; eexists; by split.
  - rewrite (StoreProofs.cleanupByAge_foreign w cleanupDays _ Hfile).
    eexists _, _. split; [reflexivity|]. rewrite Hfile. by split.
Qed.

End Proofs.
End ToolProofs.
(** ** Time stamps and file names *)

Module NameProofs.
Import JS Store Backup BackupSpec StoreSpec.
Local Open Scope js_scope.

Lemma digit_plain c :
  is_digit c = true ->
  c <> 45%N /\ c <> 58%N /\ c <> 84%N /\ c <> 46%N /\
  is_line_terminator c = false.
Proof.
  unfold is_digit, is_line_terminator.
  intros [H1%N.leb_le H2%N.leb_le]%andb_true_iff.
  repeat split; try lia.
  repeat (apply orb_false_iff; split); apply N.eqb_neq; lia.
Qed.

Lemma strip_dash_colon_app a b :
  strip_dash_colon (a ++ b) = strip_dash_colon a ++ strip_dash_colon b.
Proof. unfold strip_dash_colon. apply List.filter_app. Qed.

Lemma strip_dash_colon_digits s : digits s -> strip_dash_colon s = s.
Proof.
  unfold strip_dash_colon. induction 1 as [|c s Hc _ IH]; [done|].
  cbn. destruct (digit_plain c Hc) as (H1 & H2 & _).
  rewrite (proj2 (N.eqb_neq _ _) H1), (proj2 (N.eqb_neq _ _) H2). cbn.
  by rewrite IH.
Qed.

Lemma replace_first_digits c d s rest :
  digits s -> is_digit c = false ->
  replace_first c d (s ++ rest) = s ++ replace_first c d rest.
Proof.
  intros Hs Hc. induction Hs as [|x s Hx _ IH]; [done|].
  cbn. destruct (N.eqb_spec x c) as [->|_]; [congruence|]. by rewrite IH.
Qed.

Lemma strip_fraction_app pre rest :
  Forall (fun c => c <> 46%N) pre ->
  strip_fraction (pre ++ rest) = pre ++ strip_fraction rest.
Proof.
  induction 1 as [|c pre Hc _ IH]; [done|].
  cbn [app strip_fraction].
  rewrite (proj2 (N.eqb_neq _ _) Hc). cbn. by rewrite IH.
Qed.

Lemma skip_line_plain s :
  Forall (fun c => is_line_terminator c = false) s -> skip_line s = [].
Proof. induction 1 as [|c s Hc _ IH]; [done|]. cbn. by rewrite Hc. Qed.

Lemma digits_no_dot s : digits s -> Forall (fun c => c <> 46%N) s.
Proof.
  intros Hs. eapply Forall_impl; [exact Hs|].
  intros c Hc. by destruct (digit_plain c Hc) as (_&_&_&?&_).
Qed.

Lemma digits_one_line s :
  digits s -> Forall (fun c => is_line_terminator c = false) s.
Proof.
  intros Hs. eapply Forall_impl; [exact Hs|].
  intros c Hc. by destruct (digit_plain c Hc) as (_&_&_&_&?).
Qed.

(** The fraction of a second and what follows it go. *)
Lemma strip_fraction_tail fraction :
  digits fraction -> fraction <> [] ->
  strip_fraction (str "." ++ fraction ++ str "Z") = [].
Proof.
  intros Hf Hne. destruct Hf as [|c fraction Hc Hf]; [done|].
  change (str "." ++ (c :: fraction) ++ str "Z")
    with (46%N :: c :: fraction ++ str "Z").
  cbn [strip_fraction]. rewrite N.eqb_refl.
  destruct (digit_plain c Hc) as (_ & _ & _ & _ & ->). cbn [negb andb].
  apply skip_line_plain. constructor; [by destruct (digit_plain c Hc) as (_&_&_&_&?)|].
  apply Forall_app. split; [by apply digits_one_line|].
  by repeat constructor.
Qed.

Section Proofs.
Context {P : Platform}.

(** X27: the time stamps have the granularity of a second. When the
    clock reads a time whose ISO text has the usual form, the file name
    of [generateBackupFilename] ends in [_YYYYMMDD_hhmmss.sql] and the
    header of [formatBackupContent] shows [YYYY-MM-DD hh:mm:ss]: the
    fraction of the second is in neither, so two backups of one object
    within a second get the same file name. *)
Theorem timestamps_to_the_second w (objectName objectType schemaName
    definition operation database : jsstring)
    (year month day hour minute second fraction : jsstring) :
  digits year -> digits month -> digits day -> digits hour ->
  digits minute -> digits second -> digits fraction -> fraction <> [] ->
  toISOString (clock w (ticks w))
    = iso_text year month day hour minute second fraction ->
  fst (generateBackupFilename objectName objectType w)
    = Ok (getObjectTypeDir objectType ++ str "/" ++ sanitize objectName
          ++ str "_" ++ year ++ month ++ day ++ str "_" ++ hour ++ minute
          ++ second ++ str ".sql") /\
  fst (formatBackupContent objectName objectType schemaName definition
         operation database w)
    = Ok (UTF8_BOM
          ++ header objectName objectType schemaName
               (year ++ str "-" ++ month ++ str "-" ++ day ++ str " "
                ++ hour ++ str ":" ++ minute ++ str ":" ++ second)
               operation database
          ++ definition).
Proof.
  intros Hy Hmo Hd Hh Hmi Hs Hf Hne Hiso.
  pose proof (strip_fraction_tail fraction Hf Hne) as Htail.
  split.
  - unfold generateBackupFilename, bind, new_Date, ret. cbn [fst].
    rewrite Hiso. unfold iso_text.
    rewrite !strip_dash_colon_app.
    rewrite (strip_dash_colon_digits year), (strip_dash_colon_digits month),
      (strip_dash_colon_digits day), (strip_dash_colon_digits hour),
      (strip_dash_colon_digits minute), (strip_dash_colon_digits second),
      (strip_dash_colon_digits fraction) by done.
    change (strip_dash_colon (str "-")) with (@nil N).
    change (strip_dash_colon (str ":")) with (@nil N).
    change (strip_dash_colon (str "T")) with (str "T").
    change (strip_dash_colon (str ".")) with (str ".").
    change (strip_dash_colon (str "Z")) with (str "Z").
    cbn [app].
    rewrite !replace_first_digits by done.
    change (replace_first 84 95 (str "T" ++ ?x)) with (str "_" ++ x).
    replace (year ++ month ++ day ++ str "_" ++ hour ++ minute ++ second
             ++ str "." ++ fraction ++ str "Z")
      with ((year ++ month ++ day ++ str "_" ++ hour ++ minute ++ second)
            ++ str "." ++ fraction ++ str "Z")
      by (by rewrite <- !app_assoc).
    rewrite strip_fraction_app, Htail.
    + rewrite app_nil_r. by rewrite <- !app_assoc.
    + repeat (apply Forall_app; split); try by apply digits_no_dot.
      by repeat constructor.
  - unfold formatBackupContent, bind, new_Date, ret. cbn [fst].
    unfold formatBackupContent_at. rewrite Hiso. unfold iso_text.
    replace (year ++ str "-" ++ month ++ str "-" ++ day ++ str "T" ++ hour
             ++ str ":" ++ minute ++ str ":" ++ second ++ str "."
             ++ fraction ++ str "Z")
      with (year ++ (str "-" ++ month) ++ (str "-" ++ day) ++ str "T" ++ hour
            ++ str ":" ++ minute ++ str ":" ++ second ++ str "."
            ++ fraction ++ str "Z")
      by (by rewrite <- !app_assoc).
    rewrite replace_first_digits by done.
    change (str "-" ++ month) with (45%N :: month).
    change (str "-" ++ day) with (45%N :: day).
    cbn [app replace_first N.eqb Pos.eqb].
    rewrite replace_first_digits by done.
    cbn [app replace_first N.eqb Pos.eqb].
    rewrite replace_first_digits by done.
    change (replace_first 84 32 (str "T" ++ ?x)) with (str " " ++ x).
    replace (year ++ 45%N :: month ++ 45%N :: day ++ str " " ++ hour
             ++ str ":" ++ minute ++ str ":" ++ second ++ str "."
             ++ fraction ++ str "Z")
      with ((year ++ str "-" ++ month ++ str "-" ++ day ++ str " " ++ hour
             ++ str ":" ++ minute ++ str ":" ++ second)
            ++ str "." ++ fraction ++ str "Z")
      by (by rewrite <- !app_assoc).
    rewrite strip_fraction_app, Htail.
    + by rewrite app_nil_r.
    + repeat (apply Forall_app; split); try by apply digits_no_dot.
      all: by repeat constructor.
Qed.

End Proofs.
End NameProofs.
(** ** A file name taken twice *)

Module OverwriteProofs.
Import JS Store Backup BackupSpec StoreSpec.
Local Open Scope js_scope.

Section Proofs.
Context {P : Platform}.

(** X28: [createBackup] writes over a content file of the same name.
    If [createBackup] reports success in a store without eviction, for a
    definition that does not hold the closing delimiter of the header,
    and an entry of the log, which is the one found under its id, has
    another id than the new one and the file name that the call has
    used, a file that can be read, then that entry stays in the log as
    it was, digest included, and [getBackupContent] with its id now
    gives the new content as UTF-8 keeps it, from which
    [extractDefinitionFromBackup] takes what UTF-8 keeps of the
    definition of the new backup (the definition itself when it has no
    lone surrogate): the text of the older backup is lost. *)
Theorem createBackup_overwrites (objectName objectType schemaName
    definition : jsstring) (operation : Operation) (database : jsstring)
    w r w' (b : BackupEntry.t) :
  createBackup objectName objectType schemaName definition operation
    database w = (Ok r, w') ->
  BackupResult.success r = true ->
  BackupConfig.auto_cleanup (config w) = false ->
  includes definition headerEndMarker = false ->
  entry_of w (BackupEntry.id b) = Some b ->
  BackupEntry.id b <> BackupResult.backup_id r ->
  file_path w b = path_join (backup_dir w) (BackupResult.backup_file r) ->
  read_fails w (file_path w b) = None ->
  exists text w1 w2,
    getBackupById (BackupEntry.id b) w' = (Ok (Some b), w1) /\
    getBackupContent (BackupEntry.id b) w' = (Ok (Some text), w2) /\
    extractDefinitionFromBackup text = toWellFormed definition /\
    (toWellFormed definition = definition ->
     extractDefinitionFromBackup text = definition) /\
    exists now, UTF8_BOM ++ text
                = toWellFormed
                    (formatBackupContent_at now objectName objectType
                       schemaName definition (operation_name operation)
                       database).
Proof.
  intros Hrun Hsuccess Hauto Hclean Hentry Hid Hsame Hread.
  destruct (LifecycleProofs.createBackup_success_inv _ _ _ _ _ _ _ _ _
              Hrun Hsuccess)
    as (Henv & suffix & stamp & t & t' & w_mid & log0 & log1 & w_after
        & updated & Hr & Henv_mid & _ & Hfile & _ & Hlog0 & Hevict & Hw').
  cbn zeta in *. rewrite Hauto in Hevict. destruct Hevict as [-> ->].
  set (content := formatBackupContent_at (clock w t) objectName objectType
                    schemaName definition (operation_name operation)
                    database) in *.
  assert (file_path w b = file_path w
            (new_entry (str "bkp_" ++ suffix) (toISOString (clock w t'))
               operation objectType objectName schemaName database
               (getObjectTypeDir objectType ++ str "/" ++ sanitize objectName
                ++ str "_" ++ stamp ++ str ".sql") content)) as Hpath.
  { rewrite Hsame, Hr. reflexivity. }
  rewrite <- Hpath in Hfile.
  assert (entry_of w' (BackupEntry.id b) = Some b) as Hentry'.
  { subst w'. unfold entry_of, log_of. cbn [logFile set_logFile
      BackupLog.backups BackupLog.set_updated_at BackupLog.set_backups
      List.find BackupEntry.id new_entry].
    unfold seq_eq at 1. rewrite bool_decide_false; [exact Hentry|].
    intros Heq. apply Hid. by rewrite Hr. }
  destruct (BackupProofs.content_as_stored (clock w t) objectName objectType
              schemaName definition (operation_name operation) database)
    as [pre Hstored].
  fold content in Hstored.
  assert (content_of w' (BackupEntry.id b)
          = Some (pre ++ headerEndMarker ++ toWellFormed definition))
    as Hcontent.
  { unfold content_of. rewrite Hentry'. cbn [mbind option_bind].
    unfold readable_text.
    assert (file_path w' b = file_path w b) as ->.
    { unfold file_path, backup_dir. by destruct Henv as (-> & -> & _). }
    replace (read_fails w' (file_path w b))
      with (read_fails w (file_path w b))
      by (by destruct Henv as (_ & _ & _ & _ & _ & _ & -> & _)).
    rewrite Hread. replace (files w') with (files w_mid) by (by subst w').
    by rewrite Hfile, StringProofs.toWellFormed_twice, Hstored. }
  pose proof (BackupProofs.entry_of_typed _ _ _ Hentry') as Htyped.
  destruct (BackupProofs.getBackupById_run w' (BackupEntry.id b) Htyped)
    as (w1 & Hget & _).
  destruct (BackupProofs.getBackupContent_run w' (BackupEntry.id b) Htyped)
    as (w2 & Hgetc & _).
  rewrite Hentry' in Hget. rewrite Hcontent in Hgetc.
  exists (pre ++ headerEndMarker ++ toWellFormed definition), w1, w2.
  split; [done|]. split; [done|].
  pose proof (BackupProofs.extract_as_stored pre definition Hclean)
    as Hextract.
  split; [done|]. split; [intros Hwell; by rewrite Hextract|].
  exists (clock w t). symmetry. exact Hstored.
Qed.

End Proofs.
End OverwriteProofs.
(** ** Retention after a new backup *)

Module RetentionProofs.
Import JS Store Backup BackupSpec StoreSpec.
Local Open Scope js_scope.

Section Proofs.
Context {P : Platform}.

(** [cleanupOldBackups] on a log with distinct ids, when no deletion
    throws. *)
Lemma cleanupOldBackups_keep_recent w (log : BackupLog.t)
    (objectName : jsstring) (maxBackups : Z) :
  (0 <= maxBackups)%Z ->
  NoDup (BackupEntry.id <$> BackupLog.backups log) ->
  (forall b,
     b ∈ excess objectName (Z.to_nat maxBackups) (BackupLog.backups log) ->
     delete_throws w b = false) ->
  cleanupOldBackups log objectName maxBackups w
  = (Ok (BackupLog.set_backups log
           (keep_recent objectName (Z.to_nat maxBackups)
              (BackupLog.backups log))),
     set_files w
       (without_files w
          (excess objectName (Z.to_nat maxBackups) (BackupLog.backups log))
          (files w))).
Proof.
  intros Hcap Hnodup Hok. unfold cleanupOldBackups.
  destruct (Z.ltb_spec maxBackups
              (Z.of_nat (length (List.filter (same_name objectName)
                                   (BackupLog.backups log)))))
    as [Hover|Hunder].
  - unfold slice_from. rewrite (proj2 (Z.ltb_ge _ _)) by done.
    fold (excess objectName (Z.to_nat maxBackups) (BackupLog.backups log)).
    unfold bind.
    rewrite (EvictionProofs.world_as_update w) at 1.
    rewrite EvictionProofs.evict_loop_run
      by (done || apply BackupProofs.only_deleted_refl).
    unfold ret. by rewrite EvictionProofs.evict_excess.
  - assert (excess objectName (Z.to_nat maxBackups) (BackupLog.backups log)
            = []) as Hnone.
    { unfold excess. apply drop_ge. lia. }
    rewrite Hnone. cbn [without_files foldl]. unfold ret.
    f_equal; [|by destruct w]. f_equal.
    rewrite <- (EvictionProofs.evict_excess objectName (Z.to_nat maxBackups))
      by done.
    rewrite Hnone. by destruct log.
Qed.

(** X29: retention holds after every successful backup. With eviction on
    and a cap K of at least one, when the ids of the log are distinct
    and new to it, and the content files of its entries are in place,
    can be deleted and are not the new file, the log that a successful
    [createBackup] saves is the new entry followed by the former log
    less the entries of the object beyond its K - 1 most recent: the
    object then has min(N + 1, K) entries, the entries of other objects
    are all there, and the files of the evicted entries are gone. *)
Theorem createBackup_retention (objectName objectType schemaName
    definition : jsstring) (operation : Operation) (database : jsstring)
    w r w' :
  createBackup objectName objectType schemaName definition operation
    database w = (Ok r, w') ->
  BackupResult.success r = true ->
  BackupConfig.auto_cleanup (config w) = true ->
  (1 <= BackupConfig.max_backups_per_object (config w))%Z ->
  NoDup (BackupEntry.id <$> log_of w) ->
  (forall b, b ∈ log_of w ->
     BackupEntry.id b <> BackupResult.backup_id r /\
     file_path w b <> path_join (backup_dir w) (BackupResult.backup_file r) /\
     unlink_fails w (file_path w b) = None /\
     exists content, files w !! file_path w b = Some (File content)) ->
  let K := Z.to_nat (BackupConfig.max_backups_per_object (config w)) in
  let N := length (List.filter (same_name objectName) (log_of w)) in
  exists entry,
    log_of w' = entry :: keep_recent objectName (K - 1) (log_of w) /\
    BackupEntry.id entry = BackupResult.backup_id r /\
    BackupEntry.object_name entry = objectName /\
    length (List.filter (same_name objectName) (log_of w'))
      = Nat.min (S N) K /\
    List.filter (fun b => negb (same_name objectName b)) (log_of w')
      = List.filter (fun b => negb (same_name objectName b)) (log_of w) /\
    forall b, b ∈ excess objectName (K - 1) (log_of w) ->
      files w' !! file_path w b = None.
Proof.
  intros Hrun Hsuccess Hauto Hcap Hnodup Hold K N.
  destruct (LifecycleProofs.createBackup_success_inv _ _ _ _ _ _ _ _ _
              Hrun Hsuccess)
    as (Henv & suffix & stamp & t & t' & w_mid & log0 & log1 & w_after
        & updated & Hr & Henv_mid & _ & Hfile & Hothers & Hlog0 & Hevict
        & Hw').
  cbn zeta in *. rewrite Hauto in Hevict.
  set (content := formatBackupContent_at (clock w t) objectName objectType
                    schemaName definition (operation_name operation)
                    database) in *.
  set (entry := new_entry (str "bkp_" ++ suffix) (toISOString (clock w t'))
                  operation objectType objectName schemaName database
                  (getObjectTypeDir objectType ++ str "/"
                   ++ sanitize objectName ++ str "_" ++ stamp ++ str ".sql")
                  content) in *.
  assert (BackupEntry.id entry = BackupResult.backup_id r /\
          file_path w entry
          = path_join (backup_dir w) (BackupResult.backup_file r))
    as [Hid Hpath] by (by rewrite Hr).
  assert (same_name objectName entry = true) as Hsame
    by (unfold same_name, seq_eq; by apply bool_decide_eq_true).
  assert (forall b, file_path w_mid b = file_path w b) as Hpaths.
  { intros b. unfold file_path, backup_dir.
    by destruct Henv_mid as (-> & -> & _). }
  destruct (Z.to_nat (BackupConfig.max_backups_per_object (config w)))
    as [|k] eqn:HK; [lia|].
  rewrite cleanupOldBackups_keep_recent in Hevict.
  - injection Hevict as <- <-. exists entry.
    assert (log_of w' = entry :: keep_recent objectName k (log_of w)) as Hlog'.
    { subst w'. unfold log_of. cbn [logFile set_logFile BackupLog.backups
        BackupLog.set_updated_at BackupLog.set_backups].
      rewrite HK. cbn [keep_recent]. by rewrite Hsame. }
    subst K. cbn [Nat.sub]. rewrite Nat.sub_0_r, Hlog'.
    split; [done|]. split; [done|]. split; [done|].
    cbn [List.filter]. rewrite Hsame. cbn [negb length].
    split; [|split].
    + rewrite EvictionProofs.keep_recent_same_name, length_take.
      fold N. lia.
    + by rewrite EvictionProofs.keep_recent_others.
    + intros b Hb. subst w'.
      cbn [files set_logFile set_ticks set_files BackupLog.backups
           BackupLog.set_backups].
      rewrite HK, EvictionProofs.excess_cons_kept by done.
      rewrite EvictionProofs.without_files_lookup.
      rewrite bool_decide_true; [done|].
      rewrite <- Hpaths. by apply list_elem_of_fmap_2.
  - lia.
  - cbn [BackupLog.backups BackupLog.set_backups]. rewrite fmap_cons.
    apply NoDup_cons. split; [|done].
    intros Hin. apply list_elem_of_fmap in Hin as (b & Hb & Hb').
    destruct (Hold b Hb') as [Hfresh _]. congruence.
  - cbn [BackupLog.backups BackupLog.set_backups].
    rewrite HK, EvictionProofs.excess_cons_kept by done.
    intros b Hb.
    assert (b ∈ log_of w) as Hin.
    { unfold excess in Hb.
      assert (b ∈ List.filter (same_name objectName) (log_of w)) as Hf
        by (rewrite <- (take_drop k (List.filter _ (log_of w)));
            apply elem_of_app; by right).
      by apply EvictionProofs.elem_of_filter_bool in Hf as [? _]. }
    destruct (Hold b Hin) as (_ & Hnew & Hcan & c & Hthere).
    unfold delete_throws. rewrite Hpaths.
    rewrite Hothers; [|congruence|by eexists].
    rewrite Hthere.
    replace (unlink_fails w_mid (file_path w b))
      with (unlink_fails w (file_path w b))
      by (by destruct Henv_mid as (_ & _ & _ & _ & _ & _ & _ & ->)).
    rewrite Hcan. apply bool_decide_eq_false. by intros [? ?].
Qed.

End Proofs.
End RetentionProofs.

(** ** Closed instances of the further properties *)

Module MoreWitnesses.
Import JS Diff Store Backup BackupSpec StoreSpec Examples MoreExamples.

Lemma run_parts {A} (run : Outcome A * World) (a : A) :
  fst run = Ok a -> run = (Ok a, snd run).
Proof. destruct run as [o w]. cbn. by intros ->. Qed.

(** One line changed among three. *)
Lemma generateDiff_edit_script_witness :
  exists ds d,
    generateDiff (str "a" ++ nl ++ str "b" ++ nl ++ str "c")
      (str "a" ++ nl ++ str "x" ++ nl ++ str "c") = Some d /\
    diff d = DiffScript.render ds /\
    lines_added d = DiffSpec.count_type added ds /\
    lines_removed d = DiffSpec.count_type removed ds /\
    join_nl (DiffScript.old_view ds) = str "a" ++ nl ++ str "b" ++ nl ++ str "c" /\
    join_nl (DiffScript.new_view ds) = str "a" ++ nl ++ str "x" ++ nl ++ str "c".
Proof.
  apply (DiffScriptProofs.generateDiff_edit_script
           (str "a" ++ nl ++ str "b" ++ nl ++ str "c")
           (str "a" ++ nl ++ str "x" ++ nl ++ str "c")).
  vm_compute. discriminate.
Defined.

(** Line 4 of a diff of eight lines with a context of one line. *)
Lemma getDiffContext_window_witness :
  let diff := str "0" ++ nl ++ str "1" ++ nl ++ str "2" ++ nl ++ str "3" ++ nl
              ++ str "4" ++ nl ++ str "5" ++ nl ++ str "6" ++ nl ++ str "7" in
  exists before window after,
    split_nl diff = before ++ window ++ after /\
    DiffTools.getDiffContext diff 4 (Some 1%Z) = join_nl window /\
    length before = Nat.min (Z.to_nat (4 - 1)) (length (split_nl diff)) /\
    (Z.of_nat (length window) <= 2 * 1 + 1)%Z /\
    (forall line,
       split_nl diff !! Z.to_nat 4 = Some line ->
       window !! (Z.to_nat 4 - length before) = Some line).
Proof.
  intros diff.
  apply (DiffScriptProofs.getDiffContext_window diff 4 (Some 1%Z)); cbn; lia.
Defined.

(** A diff of three lines seen from line 2 with the default context. *)
Lemma getDiffContext_everything_witness :
  DiffTools.getDiffContext (str "a" ++ nl ++ str "b" ++ nl ++ str "c") 2 None
  = str "a" ++ nl ++ str "b" ++ nl ++ str "c".
Proof.
  apply DiffScriptProofs.getDiffContext_everything; vm_compute; discriminate.
Defined.

(** A header of another format, and a definition cut at its delimiter. *)
Lemma extract_after_last_delimiter_witness :
  extractDefinitionFromBackup
    (str "/* another header" ++ nl ++ headerEndMarker ++ sample_definition)
  = sample_definition.
Proof.
  apply (StoreProofs.extract_after_last_delimiter
           (str "/* another header" ++ nl) sample_definition).
  reflexivity.
Defined.

(** A content without a header: the statement starts at offset 17. *)
Lemma extract_fallback_witness :
  exists first,
    first <= 17 /\
    extractDefinitionFromBackup bare_content = drop first bare_content.
Proof.
  destruct (StoreProofs.extract_fallback bare_content) as [Hsome _];
    [reflexivity|].
  destruct (Hsome 17) as (first & Hle & _ & _ & Hrun); [reflexivity|].
  exists first. exact (conj Hle Hrun).
Defined.

(** With the cap -2, the two oldest of the five backups of "foo" go. *)
Lemma cleanupOldBackups_negative_cap_witness :
  exists log' w',
    cleanupOldBackups (BackupLog.mk (str "1.0") [] [] scenario_log)
      (str "Foo") (-2) scenario_store = (Ok log', w') /\
    map BackupEntry.id (BackupLog.backups log')
      = [str "b8"; str "b7"; str "b6"; str "b5"; str "b4"; str "b3"].
Proof.
  destruct (StoreProofs.cleanupOldBackups_negative_cap scenario_store
              (BackupLog.mk (str "1.0") [] [] scenario_log) (str "Foo") (-2))
    as (log' & Hrun & Hkept & _).
  - lia.
  - apply (bool_decide_unpack _). vm_compute. exact I.
  - intros b Hb. apply list_elem_of_In in Hb. vm_compute in Hb.
    destruct Hb as [<-|[<-|[]]]; vm_compute; reflexivity.
  - eexists log', _. split; [exact Hrun|].
    rewrite Hkept. reflexivity.
Defined.

(** The log cannot be written: the two backups of January lose their
    files and stay in the log. *)
Lemma cleanupByAge_log_write_fails_witness :
  exists w',
    cleanupByAge 30 locked_store
      = (Throw (str "EACCES: permission denied"), w') /\
    logFile w' = logFile locked_store /\
    files w' !! path_of "b1" = None /\
    files locked_store !! path_of "b1" = Some (File (str "SELECT 1")).
Proof.
  destruct (StoreProofs.cleanupByAge_log_write_fails locked_store 30
              (str "EACCES: permission denied"))
    as (cutoff & w' & [t ->] & Hrun & Hlog & Hfiles & _);
    [vm_compute; reflexivity|].
  exists w'. split; [exact Hrun|]. split; [exact Hlog|].
  rewrite Hfiles. split; vm_compute; reflexivity.
Defined.

(** Of two backups of January, the one whose time stamp is no date
    stays when the other goes; and with a number of days that takes the
    cutoff out of the range of dates, both stay with their files. *)
Lemma cleanupByAge_keeps_undated_witness :
  (exists w',
     cleanupByAge 30 undated_store = (Ok 1, w') /\
     entry "b2" "foo" "last winter" ∈ log_of w') /\
  (exists o w',
     cleanupByAge 100000000000000000 undated_store = (o, w') /\
     log_of w' = log_of undated_store /\
     files w' = files undated_store).
Proof.
  split.
  - destruct (StoreProofs.cleanupByAge_keeps_undated undated_store 30)
      as (o & w' & Hrun & _ & Hkept & _).
    assert (fst (cleanupByAge 30 undated_store) = Ok 1) as Hcount
      by (vm_compute; reflexivity).
    rewrite Hrun in Hcount. cbn in Hcount. subst o.
    exists w'. split; [exact Hrun|].
    apply Hkept; [apply list_elem_of_here | vm_compute; reflexivity].
  - destruct (StoreProofs.cleanupByAge_keeps_undated undated_store
                100000000000000000)
      as (o & w' & Hrun & _ & _ & Hinvalid).
    destruct Hinvalid as (Hlog & Hfiles & _);
      [intros t; vm_compute; reflexivity|].
    exists o, w'. exact (conj Hrun (conj Hlog Hfiles)).
Defined.

Lemma sample_run_scenario :
  sample_run scenario_store = (Ok sample_result, snd (sample_run scenario_store)).
Proof. apply run_parts. vm_compute. reflexivity. Qed.

Lemma scenario_fresh (b : BackupEntry.t) :
  b ∈ log_of scenario_store ->
  BackupEntry.id b <> BackupResult.backup_id sample_result /\
  file_path scenario_store b
  <> path_join (backup_dir scenario_store)
       (BackupResult.backup_file sample_result).
Proof.
  intros Hb. apply list_elem_of_In in Hb. vm_compute in Hb.
  repeat (destruct Hb as [<-|Hb]; [split; vm_compute; discriminate|]).
  destruct Hb.
Qed.

(** A backup made in the scenario store is read back. *)
Lemma createBackup_then_retrieve_witness :
  exists entry text w1 w2,
    getBackupById (str "bkp_1714996800000_k3x9qa")
      (snd (sample_run scenario_store)) = (Ok (Some entry), w1) /\
    getBackupContent (str "bkp_1714996800000_k3x9qa")
      (snd (sample_run scenario_store)) = (Ok (Some text), w2) /\
    extractDefinitionFromBackup text = sample_definition.
Proof.
  destruct (LifecycleProofs.createBackup_then_retrieve _ _ _ _ _ _ _ _ _
              sample_run_scenario)
    as (entry & text & w1 & w2 & Hget & _ & _ & _ & _ & _ & _ & _ & Hgetc
        & _ & _ & Hdef).
  - reflexivity.
  - reflexivity.
  - reflexivity.
  - intros _. split; [vm_compute; discriminate | exact scenario_fresh].
  - exists entry, text, w1, w2.
    exact (conj Hget (conj Hgetc (Hdef eq_refl))).
Defined.

(** A backup made in the scenario store: the file and the digest at the
    time of the write, and the entry and the file when the call has
    returned. *)
Lemma createBackup_hash_witness :
  exists content entry w_written,
    files w_written !! (str "/srv/.sql_backups/" ++ taken_name)
      = Some (File (toWellFormed content)) /\
    BackupEntry.id entry = str "bkp_1714996800000_k3x9qa" /\
    BackupEntry.file_hash entry = calculateHash content /\
    BackupEntry.file_hash entry = calculateHash (toWellFormed content) /\
    (exists older,
       log_of (snd (sample_run scenario_store)) = entry :: older) /\
    files (snd (sample_run scenario_store))
      !! (str "/srv/.sql_backups/" ++ taken_name)
      = Some (File (toWellFormed content)).
Proof.
  destruct (LifecycleProofs.createBackup_hash _ _ _ _ _ _ _ _ _
              sample_run_scenario eq_refl)
    as (content & entry & w_written & log0 & log1 & w_after & updated & _
        & Hid & Hfile & _ & _ & _ & _ & Hwritten & Hhash & _ & Hstored & _
        & _ & _ & _ & _ & Hreturn).
  assert (file_path scenario_store entry
          = str "/srv/.sql_backups/" ++ taken_name) as Hpath
    by (unfold file_path; rewrite Hfile; vm_compute; reflexivity).
  rewrite Hpath in Hwritten, Hreturn.
  destruct Hreturn as [Hhead Hthere].
  { intros _. split; [vm_compute; discriminate|].
    intros b Hb. destruct (scenario_fresh b Hb) as [Hnew_id Hnew_file].
    split; [by rewrite Hid | exact Hnew_file]. }
  exists content, entry, w_written.
  exact (conj Hwritten (conj Hid (conj Hhash (conj Hstored
           (conj Hhead Hthere))))).
Defined.

Lemma sample_run_zero_cap :
  sample_run zero_cap_store = (Ok sample_result, snd (sample_run zero_cap_store)).
Proof. apply run_parts. vm_compute. reflexivity. Qed.

(** With the cap 0 the backup is gone when the call returns. *)
Lemma createBackup_cap_zero_witness :
  entry_of (snd (sample_run zero_cap_store)) (str "bkp_1714996800000_k3x9qa")
    = None /\
  files (snd (sample_run zero_cap_store))
    !! (str "/srv/.sql_backups/" ++ taken_name) = None.
Proof.
  destruct (LifecycleProofs.createBackup_cap_zero _ _ _ _ _ _ _ _ _
              sample_run_zero_cap) as (Hentry & Hfile & _).
  - reflexivity.
  - reflexivity.
  - reflexivity.
  - reflexivity.
  - intros b Hb. apply list_elem_of_In in Hb. vm_compute in Hb.
    repeat (destruct Hb as [<-|Hb]; [vm_compute; discriminate|]).
    destruct Hb.
  - exact (conj Hentry Hfile).
Defined.

(** The scenario: the oldest backup is of January, the newest of May. *)
Lemma getBackupStats_oldest_newest_witness :
  exists s w',
    Stats.getBackupStats (fun _ => None) scenario_store = (Ok s, w') /\
    is_Some (Stats.oldest_backup s) /\ is_Some (Stats.newest_backup s).
Proof.
  destruct (StatsProofs.getBackupStats_oldest_newest (fun _ => None)
              scenario_store) as (s & w' & Hrun & Hold & Hnew).
  - intros b Hb. apply list_elem_of_In in Hb. vm_compute in Hb.
    repeat (destruct Hb as [<-|Hb]; [vm_compute; discriminate|]).
    destruct Hb.
  - exists s, w'. split; [exact Hrun|].
    destruct (Stats.oldest_backup s), (Stats.newest_backup s);
      try (split; eexists; reflexivity);
      exfalso; first [ by vm_compute in Hold | by vm_compute in Hnew ].
Defined.

(** The backup "b5" of the scenario against itself. *)
Lemma compareBackups_same_backup_witness :
  exists d w',
    compareBackups (str "b5") (str "b5") None scenario_store
      = (Ok (Some d), w') /\
    DiffResult.is_identical d = true.
Proof.
  destruct (CompareProofs.compareBackups_same_backup scenario_store (str "b5")
              None (entry "b5" "Foo" "2024-05-06T07:08:09.000Z")
              (str "SELECT 1"))
    as (d & w' & Hrun & _ & -> & _).
  - vm_compute. reflexivity.
  - vm_compute. reflexivity.
  - vm_compute. discriminate.
  - vm_compute. discriminate.
  - eexists _, w'. split; [exact Hrun | reflexivity].
Defined.

(** A backup made in the scenario store against its definition. *)
Lemma createBackup_then_compare_witness :
  exists d w'',
    compareBackups (str "bkp_1714996800000_k3x9qa") (str "current")
      (Some sample_definition) (snd (sample_run scenario_store))
      = (Ok (Some d), w'') /\
    DiffResult.is_identical d = true.
Proof.
  destruct (CompareProofs.createBackup_then_compare _ _ _ _ _ _ _ _ _
              sample_run_scenario) as (d & w'' & Hrun & Hsame & _).
  - reflexivity.
  - reflexivity.
  - reflexivity.
  - vm_compute. discriminate.
  - reflexivity.
  - intros _. split; [vm_compute; discriminate | exact scenario_fresh].
  - exists d, w''. exact (conj Hrun Hsame).
Defined.

(** Noon of 6 May 2024 in a file name and in a header. *)
Lemma timestamps_to_the_second_witness :
  fst (generateBackupFilename (str "usp_x") (str "PROCEDURE") scenario_store)
  = Ok taken_name.
Proof.
  destruct (NameProofs.timestamps_to_the_second scenario_store (str "usp_x")
              (str "PROCEDURE") (str "dbo") sample_definition (str "ALTER")
              (str "db") (str "2024") (str "05") (str "06") (str "12")
              (str "00") (str "00") (str "000")) as [Hname _];
    try (apply (bool_decide_unpack _); vm_compute; exact I).
  rewrite Hname. vm_compute. reflexivity.
Defined.

Lemma sample_run_taken :
  sample_run taken_store = (Ok sample_result, snd (sample_run taken_store)).
Proof. apply run_parts. vm_compute. reflexivity. Qed.

(** The name is taken: the older backup "b0" now reads as the new one. *)
Lemma createBackup_overwrites_witness :
  exists text w2,
    getBackupContent (str "b0") (snd (sample_run taken_store))
      = (Ok (Some text), w2) /\
    extractDefinitionFromBackup text = sample_definition /\
    files taken_store !! (str "/srv/.sql_backups/" ++ taken_name)
      = Some (File (str "SELECT 0")).
Proof.
  destruct (OverwriteProofs.createBackup_overwrites _ _ _ _ _ _ _ _ _
              taken_entry sample_run_taken)
    as (text & w1 & w2 & _ & Hgetc & _ & Hdef & _).
  - reflexivity.
  - reflexivity.
  - reflexivity.
  - vm_compute. reflexivity.
  - vm_compute. discriminate.
  - vm_compute. reflexivity.
  - reflexivity.
  - exists text, w2. split; [exact Hgetc|]. split; [exact (Hdef eq_refl)|].
    vm_compute. reflexivity.
Defined.

(** The log file holds [{}]: every operation on the log throws, and
    [createBackup] reports a failure after it has written the content
    file. *)
Lemma foreign_store_outcomes :
  fst (getBackupById (str "b1") foreign_store)
    = Throw (str "Cannot read properties of undefined (reading 'find')") /\
  fst (listBackups None None None foreign_store)
    = Throw (str "Cannot read properties of undefined (reading 'slice')") /\
  fst (listBackups (Some (str "foo")) None None foreign_store)
    = Throw (str "Cannot read properties of undefined (reading 'filter')") /\
  fst (cleanupByAge 30 foreign_store)
    = Throw (str "log.backups is not iterable") /\
  fst (Stats.getBackupStats (fun _ => None) foreign_store)
    = Throw (str "Cannot read properties of undefined (reading 'length')") /\
  fst (sample_run foreign_store)
    = Ok (BackupResult.mk false
            (str "Failed to create backup: Cannot read properties of undefined (reading 'unshift')")
            [] []) /\
  logFile (snd (sample_run foreign_store)) = logFile foreign_store /\
  is_Some (files (snd (sample_run foreign_store))
             !! (str "/srv/.sql_backups/" ++ taken_name)).
Proof. vm_compute. repeat split. eauto. Qed.

(** A lone surrogate does not come back: the definition read from the
    backup has U+FFFD in its place, and the backup compared with the
    definition it was made from shows a change. *)
Lemma lone_surrogate_is_replaced :
  created torn_run = true /\
  match fst (getBackupContent (str "bkp_1714996800000_k3x9qa")
               (snd torn_run)) with
  | Ok (Some text) =>
      extractDefinitionFromBackup text
      = str "SELECT '" ++ [65533%N] ++ str "'"
  | _ => False
  end /\
  match fst (compareBackups (str "bkp_1714996800000_k3x9qa") (str "current")
               (Some torn_definition) (snd torn_run)) with
  | Ok (Some d) => DiffResult.is_identical d = false
  | _ => False
  end.
Proof. vm_compute. repeat split. Qed.

Lemma foo_run_capped :
  foo_run capped_store = (Ok foo_result, snd (foo_run capped_store)).
Proof. apply run_parts. vm_compute. reflexivity. Qed.

(** With a cap of two, a new backup of "foo" leaves it and "b7". *)
Lemma createBackup_retention_witness :
  length (List.filter (same_name (str "foo")) (log_of (snd (foo_run capped_store))))
    = 2 /\
  files (snd (foo_run capped_store)) !! path_of "b1" = None.
Proof.
  destruct (RetentionProofs.createBackup_retention _ _ _ _ _ _ _ _ _
              foo_run_capped) as (e & _ & _ & _ & Hcount & _ & Hgone).
  - reflexivity.
  - reflexivity.
  - vm_compute. discriminate.
  - apply (bool_decide_unpack _). vm_compute. exact I.
  - intros b Hb. apply list_elem_of_In in Hb. vm_compute in Hb.
    repeat (destruct Hb as [<-|Hb];
            [split; [vm_compute; discriminate|];
             split; [vm_compute; discriminate|];
             split; [reflexivity|]; eexists; vm_compute; reflexivity|]).
    destruct Hb.
  - split; [rewrite Hcount; vm_compute; reflexivity|].
    apply (Hgone (entry "b1" "foO" "2024-01-01T00:00:00.000Z")).
    apply list_elem_of_In. vm_compute. tauto.
Defined.

End MoreWitnesses.
